(** * smart_pub: the version-state engine, the TTL cache, the manifest accessor

    A shallow embedding of the TypeScript services of the extension
    (pub-api-service.ts, cache-service.ts, pubspec-analyzer.ts,
    workspace-service.ts, dependency-resolver.ts) and the properties of
    them that the specification states. *)

From Stdlib Require Import ZArith NArith List Ascii String Bool Lia.
From stdpp Require Import base option list gmap fin_maps pretty.

Set Default Proof Using "Type".
Set Warnings "-register-all".

(** ** JavaScript strings

    A string is its sequence of UTF-16 code units.  Literals are written
    [js "..."]; every property below is stated over all code unit
    sequences. *)

Module Js.

Abbreviation jsstring := (list N).

Definition js (s : string) : list N :=
  List.map N_of_ascii (list_ascii_of_string s).

Definition isDigit (c : N) : bool := ((48 <=? c) && (c <=? 57))%N.

Definition DOT : N := 46.
Definition COLON : N := 58.
Definition NEWLINE : N := 10.
Definition CARET : N := 94.
Definition TILDE : N := 126.

(** [s.split(sep)] for a one-character separator: never an empty array,
    [''.split('.')] is [['']]. *)
Fixpoint split (sep : N) (s : list N) : list (list N) :=
  match s with
  | [] => [[]]
  | c :: s' =>
      if (c =? sep)%N then [] :: split sep s'
      else match split sep s' with
           | p :: ps => (c :: p) :: ps
           | [] => [[c]]
           end
  end.

(** Truthiness of a string: [!s] holds of the empty string only. *)
Definition nonEmpty (s : list N) : bool :=
  match s with [] => false | _ :: _ => true end.

(** *** Numbers

    [Number(s)] for [s] a string of decimal digits, the only strings that
    the version comparison converts.  The result is an IEEE-754 double:
    a natural below 2^53 is kept as it is, a larger one is rounded to 53
    significant bits (to nearest, ties to even), and a value that rounds
    to 2^1024 or more is [Infinity]. *)

Inductive jsnum : Type :=
  | Fin (n : N)
  | Infinity.

Definition digitsValue (s : list N) : N :=
  fold_left (fun acc c => 10 * acc + (c - 48))%N s 0%N.

Definition roundDouble (n : N) : jsnum :=
  if (n <? 2 ^ 53)%N then Fin n
  else
    let e := (N.log2 n - 52)%N in
    let q := N.shiftr n e in
    let r := N.land n (N.ones e) in
    let half := (2 ^ (e - 1))%N in
    let q' := if (half <? r)%N || ((r =? half)%N && N.odd q)
              then (q + 1)%N else q in
    let v := N.shiftl q' e in
    if (2 ^ 1024 <=? v)%N then Infinity else Fin v.

Definition Number (s : list N) : jsnum := roundDouble (digitsValue s).

(** [a > b] on these numbers. *)
Definition gt (a b : jsnum) : bool :=
  match a, b with
  | Fin x, Fin y => (y <? x)%N
  | Infinity, Fin _ => true
  | _, Infinity => false
  end.

(** Truthiness of a number: [0] is falsy. *)
Definition truthyNum (a : jsnum) : bool :=
  match a with Fin 0 => false | _ => true end.

(** [parts[i] || 0]: an index past the end reads [undefined]. *)
Definition orZero (o : option jsnum) : jsnum :=
  match o with
  | Some a => if truthyNum a then a else Fin 0
  | None => Fin 0
  end.

End Js.

Import Js.

(** ** Version comparison (pub-api-service.ts, [isVersionOutdated])

    The same method, statement for statement, is also a private method
    of PubspecAnalyzer and of WorkspaceService. *)

Module Version.

(** [s.replace(/[^0-9.]/g, '')] *)
Definition clean (s : list N) : list N :=
  List.filter (fun c => isDigit c || (c =? DOT)%N) s.

(** The [for] loop: [i] runs while [i < Math.max(currentParts.length,
    latestParts.length)]; [remaining] is the number of iterations left. *)
Fixpoint compareLoop (currentParts latestParts : list jsnum)
    (remaining i : nat) : bool :=
  match remaining with
  | O => false
  | S remaining' =>
      let current := orZero (currentParts !! i) in
      let latest := orZero (latestParts !! i) in
      if gt latest current then true
      else if gt current latest then false
      else compareLoop currentParts latestParts remaining' (S i)
  end.

(** An argument is [None] when the caller passes [undefined] or [null]. *)
Definition isVersionOutdated (currentVersion latestVersion : option (list N))
    : bool :=
  match currentVersion, latestVersion with
  | Some cur, Some lat =>
      if negb (nonEmpty cur) || negb (nonEmpty lat) then false
      else
        let cleanCurrent := clean cur in
        let cleanLatest := clean lat in
        if negb (nonEmpty cleanCurrent) || negb (nonEmpty cleanLatest)
        then false
        else
          let currentParts := List.map Number (split DOT cleanCurrent) in
          let latestParts := List.map Number (split DOT cleanLatest) in
          compareLoop currentParts latestParts
            (Nat.max (length currentParts) (length latestParts)) 0
  | _, _ => false
  end.

(** *** The loop as a first difference

    The loop read as one comparison: the shorter array of numbers padded
    with zeros, and the first position where the two differ deciding. *)

Definition padZero (n : nat) (l : list jsnum) : list jsnum :=
  l ++ replicate (n - length l) (Fin 0).

Fixpoint firstDifference (pairs : list (jsnum * jsnum)) : bool :=
  match pairs with
  | [] => false
  | (declared, latest) :: rest =>
      if gt latest declared then true
      else if gt declared latest then false
      else firstDifference rest
  end.

Definition components (s : list N) : list jsnum :=
  List.map Number (split DOT (clean s)).

Definition isOutdated_padded (declared latest : option (list N)) : bool :=
  match declared, latest with
  | Some d, Some l =>
      match clean d, clean l with
      | [], _ | _, [] => false
      | _, _ =>
          let n := Nat.max (length (components d)) (length (components l)) in
          firstDifference
            (zip (padZero n (components d)) (padZero n (components l)))
      end
  | _, _ => false
  end.

(** *** The comparison as the specification words it

    Written from the words of the specification, with none of the
    definitions above: the characters that are kept, the components
    between the dots, the natural number that a component denotes (an
    empty component denotes 0), the component at a position (a missing
    one is 0), and the first position, from the left, where the two
    numbers differ. *)

Definition kept_spec (c : N) : bool := existsb (N.eqb c) (js "0123456789.").

Fixpoint strip_spec (s : jsstring) : jsstring :=
  match s with
  | [] => []
  | c :: rest => if kept_spec c then c :: strip_spec rest else strip_spec rest
  end.

(** The pieces of [s] between the occurrences of [separator]; [current]
    is the piece being read. *)
Fixpoint pieces_spec (separator : N) (current s : jsstring) : list jsstring :=
  match s with
  | [] => [current]
  | c :: rest =>
      if (c =? separator)%N then current :: pieces_spec separator [] rest
      else pieces_spec separator (current ++ [c]) rest
  end.

Definition digit_spec (c : N) : N :=
  match c with
  | 49 => 1 | 50 => 2 | 51 => 3 | 52 => 4 | 53 => 5
  | 54 => 6 | 55 => 7 | 56 => 8 | 57 => 9 | _ => 0
  end%N.

(** The number written in base ten. *)
Fixpoint numberOf_spec (component : jsstring) : N :=
  match component with
  | [] => 0
  | c :: rest =>
      (digit_spec c * 10 ^ N.of_nat (length rest) + numberOf_spec rest)%N
  end.

Definition numbers_spec (version : jsstring) : list N :=
  numberOf_spec <$> pieces_spec 46 [] (strip_spec version).

Definition componentAt_spec (numbers : list N) (i : nat) : N :=
  nth i numbers 0%N.

Fixpoint decide_spec (declared latest : list N) (positions : list nat)
    : bool :=
  match positions with
  | [] => false
  | i :: rest =>
      let d := componentAt_spec declared i in
      let l := componentAt_spec latest i in
      if (d <? l)%N then true
      else if (l <? d)%N then false
      else decide_spec declared latest rest
  end.

Definition isOutdated_spec (declared latest : option jsstring) : bool :=
  match declared, latest with
  | Some d, Some l =>
      if bool_decide (strip_spec d = []) || bool_decide (strip_spec l = [])
      then false
      else
        let ds := numbers_spec d in
        let ls := numbers_spec l in
        decide_spec ds ls (seq 0 (Nat.max (length ds) (length ls)))
  | _, _ => false
  end.

(** Every component of the version is below 2^53, where a JavaScript
    number still is the natural number that was written. *)
Definition readExactly (version : option jsstring) : Prop :=
  match version with
  | Some v => Forall (λ n, (n < 2 ^ 53)%N) (numbers_spec v)
  | None => True
  end.

End Version.

(** ** Manifest analysis (pubspec-analyzer.ts) *)

Module PubspecAnalyzer.

(** White space as [String.prototype.trim] and the regular expression
    class [\s] have it: the WhiteSpace and LineTerminator code units. *)
Definition isSpace (c : N) : bool :=
  ((9 <=? c) && (c <=? 13) || (c =? 32) || (c =? 160) || (c =? 5760)
   || (8192 <=? c) && (c <=? 8202) || (c =? 8232) || (c =? 8233)
   || (c =? 8239) || (c =? 8287) || (c =? 12288) || (c =? 65279))%N.

Fixpoint trimStart (s : jsstring) : jsstring :=
  match s with
  | c :: s' => if isSpace c then trimStart s' else s
  | [] => []
  end.

Definition trim (s : jsstring) : jsstring :=
  rev (trimStart (rev (trimStart s))).

(** [line.search(/\S/)]: the index of the first character that is not
    white space, [-1] when there is none. *)
Fixpoint searchNonSpace (s : jsstring) : Z :=
  match s with
  | [] => -1
  | c :: s' =>
      if isSpace c
      then (let r := searchNonSpace s' in if r <? 0 then -1 else r + 1)%Z
      else 0%Z
  end.

Fixpoint startsWith (s prefix : jsstring) : bool :=
  match prefix, s with
  | [], _ => true
  | p :: prefix', c :: s' => (c =? p)%N && startsWith s' prefix'
  | _ :: _, [] => false
  end.

Definition endsWith (s suffix : jsstring) : bool :=
  startsWith (rev s) (rev suffix).

(** [vscode.Position] and [vscode.Range]; the [Range] constructor puts
    the smaller of its two positions first. *)
Record Position : Type := { line : nat; character : Z }.
Record Range : Type := { start : Position; end_ : Position }.

Definition isBefore (a b : Position) : bool :=
  (line a <? line b)%nat
  || ((line a =? line b)%nat && (character a <? character b)%Z).

Definition newRange (a b : Position) : Range :=
  if isBefore b a then {| start := b; end_ := a |}
  else {| start := a; end_ := b |}.

(** The body of the [for] loop of [findPackageRange], from line [i] on;
    [inSection] and [sectionIndent] are the two mutable locals. *)
Fixpoint scanLines (packageName sectionName : jsstring)
    (lines : list jsstring) (i : nat) (inSection : bool) (sectionIndent : Z)
    : option Range :=
  match lines with
  | [] => None
  | line :: rest =>
      let trimmedLine := trim line in
      let lineIndent := searchNonSpace line in
      if bool_decide (trimmedLine = sectionName ++ [COLON]) then
        scanLines packageName sectionName rest (S i) true lineIndent
      else if inSection then
        if (lineIndent <=? sectionIndent)%Z && endsWith trimmedLine [COLON]
        then None
        else if startsWith trimmedLine (packageName ++ [COLON]) then
          Some (newRange {| line := i; character := lineIndent |}
                         {| line := i; character := Z.of_nat (length line) |})
        else scanLines packageName sectionName rest (S i) inSection sectionIndent
      else scanLines packageName sectionName rest (S i) inSection sectionIndent
  end.

(** [document] is the text [document.getText()] returns. *)
Definition findPackageRange (document packageName sectionName : jsstring)
    : option Range :=
  scanLines packageName sectionName (split NEWLINE document) 0 false 0.

(** The regular expression [/[\d]+\.[\d]+\.[\d]+/]. *)
Fixpoint spanDigits (s : jsstring) : jsstring * jsstring :=
  match s with
  | c :: s' =>
      if isDigit c then let '(d, r) := spanDigits s' in (c :: d, r)
      else ([], s)
  | [] => ([], [])
  end.

(** A match anchored at the head of [s]: each [\d+] is greedy, and a
    shorter run of digits can never be followed by the ['.'] it needs. *)
Definition matchVersionHere (s : jsstring) : option jsstring :=
  let '(d1, r1) := spanDigits s in
  match d1, r1 with
  | _ :: _, c1 :: r1' =>
      if (c1 =? DOT)%N then
        let '(d2, r2) := spanDigits r1' in
        match d2, r2 with
        | _ :: _, c2 :: r2' =>
            if (c2 =? DOT)%N then
              let '(d3, _) := spanDigits r2' in
              match d3 with
              | _ :: _ => Some (d1 ++ [DOT] ++ d2 ++ [DOT] ++ d3)
              | [] => None
              end
            else None
        | _, _ => None
        end
      else None
  | _, _ => None
  end.

(** [constraint.match(re)]: the leftmost match, [None] for [null]. *)
Fixpoint matchVersion (s : jsstring) : option jsstring :=
  match matchVersionHere s with
  | Some m => Some m
  | None => match s with
            | _ :: s' => matchVersion s'
            | [] => None
            end
  end.

(** The argument is a string at every call ([typeof] is checked by the
    caller as well); the empty string is falsy. *)
Definition extractVersionFromConstraint (constraint : jsstring) : jsstring :=
  if negb (nonEmpty constraint) then js "1.0.0"
  else match matchVersion constraint with
       | Some m => m
       | None => if nonEmpty (trim constraint) then trim constraint
                 else js "1.0.0"
       end.

(** The tests that the loop makes of a line, and the range it returns
    for one. *)
Definition isHeader (sectionName l : jsstring) : Prop :=
  trim l = sectionName ++ [COLON].

Definition names (packageName l : jsstring) : bool :=
  startsWith (trim l) (packageName ++ [COLON]).

Definition rangeOfLine (i : nat) (l : jsstring) : Range :=
  {| start := {| line := i; character := searchNonSpace l |};
     end_ := {| line := i; character := Z.of_nat (length l) |} |}.

(** The two lines of [analyzeDependencySection] that decide
    [isOutdated], for a latest version that is not empty. *)
Definition analyzedOutdated (versionConstraint latestVersion : jsstring)
    : bool :=
  let currentVersion := extractVersionFromConstraint versionConstraint in
  Version.isVersionOutdated (Some currentVersion) (Some latestVersion).

(** *** [findPackageRange] as the specification words it

    The first line after the section header that begins with the name
    and is indented more than the header, unless a line ending in [':']
    at the header's indentation or less comes first. *)
Fixpoint findInSection_spec (packageName : jsstring) (sectionIndent : Z)
    (lines : list jsstring) (i : nat) : option Range :=
  match lines with
  | [] => None
  | line :: rest =>
      if (searchNonSpace line <=? sectionIndent)%Z && endsWith (trim line) [COLON]
      then None
      else if startsWith (trim line) (packageName ++ [COLON])
              && (sectionIndent <? searchNonSpace line)%Z
      then Some (newRange {| line := i; character := searchNonSpace line |}
                          {| line := i; character := Z.of_nat (length line) |})
      else findInSection_spec packageName sectionIndent rest (S i)
  end.

Fixpoint findHeader_spec (packageName sectionName : jsstring)
    (lines : list jsstring) (i : nat) : option Range :=
  match lines with
  | [] => None
  | line :: rest =>
      if bool_decide (trim line = sectionName ++ [COLON])
      then findInSection_spec packageName (searchNonSpace line) rest (S i)
      else findHeader_spec packageName sectionName rest (S i)
  end.

Definition findPackageRange_spec (document packageName sectionName : jsstring)
    : option Range :=
  findHeader_spec packageName sectionName (split NEWLINE document) 0.

(** *** [findPackageRange] as the amended description words it

    Written from the words of the amended description, with none of the
    definitions above.  Every line that is a header sets the section's
    indentation; the first line after a header that is not a header and
    that closes the section or begins with the name decides. *)

Definition whiteSpace_amended : list N :=
  [9; 10; 11; 12; 13; 32; 160; 5760; 8192; 8193; 8194; 8195; 8196; 8197;
   8198; 8199; 8200; 8201; 8202; 8232; 8233; 8239; 8287; 12288; 65279]%N.

Definition blank_amended (c : N) : bool :=
  existsb (N.eqb c) whiteSpace_amended.

(** The number of white-space characters at the head of the line. *)
Fixpoint leading_amended (l : jsstring) : nat :=
  match l with
  | c :: rest => if blank_amended c then S (leading_amended rest) else 0
  | [] => 0
  end.

(** The column of the first character that is not white space, and -1
    for a line that has none. *)
Definition indentation_amended (l : jsstring) : Z :=
  if (leading_amended l <? length l)%nat then Z.of_nat (leading_amended l)
  else (-1)%Z.

(** The line without the white space at its two ends. *)
Definition trimmed_amended (l : jsstring) : jsstring :=
  take (length l - leading_amended l - leading_amended (rev l))
    (drop (leading_amended l) l).

Definition header_amended (sectionName l : jsstring) : bool :=
  bool_decide (trimmed_amended l = sectionName ++ js ":").

Definition begins_amended (packageName l : jsstring) : bool :=
  bool_decide (take (length packageName + 1) (trimmed_amended l)
               = packageName ++ js ":").

Definition closes_amended (indent : Z) (l : jsstring) : bool :=
  (indentation_amended l <=? indent)%Z
  && bool_decide (last (trimmed_amended l) = Some 58%N).

(** The indentation of the nearest header among the lines [before]. *)
Definition nearestHeader_amended (sectionName : jsstring)
    (before : list jsstring) : option Z :=
  indentation_amended
    <$> last (List.filter (header_amended sectionName) before).

(** Line [j] decides: it comes after a header, is not a header, and
    closes the section or begins with the name. *)
Definition decides_amended (packageName sectionName : jsstring)
    (lines : list jsstring) (j : nat) : bool :=
  match lines !! j, nearestHeader_amended sectionName (take j lines) with
  | Some l, Some indent =>
      negb (header_amended sectionName l)
      && (closes_amended indent l || begins_amended packageName l)
  | _, _ => false
  end.

(** What the deciding line gives: nothing when it closes the section,
    and otherwise its range, from its indentation to its end. *)
Definition outcome_amended (sectionName : jsstring) (lines : list jsstring)
    (j : nat) : option Range :=
  match lines !! j, nearestHeader_amended sectionName (take j lines) with
  | Some l, Some indent =>
      if closes_amended indent l then None
      else Some {| start := {| line := j;
                               character := indentation_amended l |};
                   end_ := {| line := j;
                              character := Z.of_nat (length l) |} |}
  | _, _ => None
  end.

Definition findPackageRange_amended
    (document packageName sectionName : jsstring) : option Range :=
  let lines := Version.pieces_spec 10 [] document in
  match List.find (decides_amended packageName sectionName lines)
          (seq 0 (length lines)) with
  | Some j => outcome_amended sectionName lines j
  | None => None
  end.

End PubspecAnalyzer.

(** ** The TTL cache (cache-service.ts)

    Times are milliseconds since the epoch, as [Date.now()] returns them;
    every operation takes the clock readings it makes as arguments.  The
    state is the [Map] of the service and the value that the extension's
    global state holds under the key ['smartPubCache']. *)

Module CacheService.

Record CacheEntry (T : Type) : Type := {
  data : option T;        (* [None] is the JavaScript [null] *)
  timestamp : Z;
  expiresAt : Z
}.
Arguments data {T} _.
Arguments timestamp {T} _.
Arguments expiresAt {T} _.

Record t (T : Type) : Type := {
  cache : gmap (list N) (CacheEntry T);
  globalState : option (gmap (list N) (CacheEntry T))
}.
Arguments cache {T} _.
Arguments globalState {T} _.

Section Cache.
Context {T : Type}.

(** [this.context.globalState.update('smartPubCache',
    Object.fromEntries(this.cache))] *)
Definition saveCacheToStorage (st : t T) : t T :=
  {| cache := cache st; globalState := Some (cache st) |}.

(** [now > entry.expiresAt] *)
Definition expired (now : Z) (entry : CacheEntry T) : bool :=
  (expiresAt entry <? now)%Z.

Definition get (now : Z) (key : jsstring) (st : t T) : option T * t T :=
  match cache st !! key with
  | None => (None, st)
  | Some entry =>
      if expired now entry then
        (None,
         saveCacheToStorage
           {| cache := delete key (cache st); globalState := globalState st |})
      else (data entry, st)
  end.

(** [cacheExpiration] is the configured value of [smartPub.cacheExpiration],
    [None] when the configuration has none; [expirationSeconds] is [None]
    when the argument is omitted.  [a || b] is [b] when [a] is [0]. *)
Definition defaultExpiration (cacheExpiration : option Z) : Z :=
  default 3600%Z cacheExpiration.

Definition orElse (expirationSeconds : option Z) (fallback : Z) : Z :=
  match expirationSeconds with
  | Some s => if (s =? 0)%Z then fallback else s
  | None => fallback
  end.

(** [now] and [now'] are the two readings of the clock, for [timestamp]
    and for [expiresAt]. *)
Definition set (cacheExpiration : option Z) (now now' : Z) (key : jsstring)
    (value : option T) (expirationSeconds : option Z) (st : t T) : t T :=
  let expiration := orElse expirationSeconds (defaultExpiration cacheExpiration) in
  let entry := {| data := value;
                  timestamp := now;
                  expiresAt := (now' + expiration * 1000)%Z |} in
  saveCacheToStorage
    {| cache := <[key := entry]> (cache st); globalState := globalState st |}.

Definition has (now : Z) (key : jsstring) (st : t T) : bool * t T :=
  let '(value, st') := get now key st in
  (match value with Some _ => true | None => false end, st').

Definition delete (key : jsstring) (st : t T) : t T :=
  saveCacheToStorage
    {| cache := base.delete key (cache st); globalState := globalState st |}.

Definition clear (st : t T) : t T :=
  saveCacheToStorage {| cache := ∅; globalState := globalState st |}.

(** The loop of [cleanExpiredEntries] visits every entry of the map it
    is deleting from; the accumulator is the map and [hasChanges]. *)
Definition cleanStep (now : Z) (key : jsstring) (entry : CacheEntry T)
    (acc : gmap (list N) (CacheEntry T) * bool)
    : gmap (list N) (CacheEntry T) * bool :=
  if expired now entry then (base.delete key (fst acc), true) else acc.

Definition cleanExpiredEntries (now : Z) (st : t T) : t T :=
  let '(cache', hasChanges) :=
    map_fold (cleanStep now) (cache st, false) (cache st) in
  let st' := {| cache := cache'; globalState := globalState st |} in
  if hasChanges then saveCacheToStorage st' else st'.

(** [globalState.get('smartPubCache', {})], then the sweep. *)
Definition loadCacheFromStorage (now : Z) (st : t T) : t T :=
  let stored := default ∅ (globalState st) in
  cleanExpiredEntries now {| cache := stored; globalState := globalState st |}.

(** [new CacheService(context)] *)
Definition new (now : Z) (storage : option (gmap (list N) (CacheEntry T)))
    : t T :=
  loadCacheFromStorage now {| cache := ∅; globalState := storage |}.

End Cache.
End CacheService.

(** ** Values of the manifest

    What [yaml.parse] returns and [yaml.stringify] takes.  A number is
    kept as the two things this code observes of it: whether it is falsy
    ([0] or [NaN]) and what [String] prints for it.  An object is a
    finite map from property names to values; [Object.entries] lists it
    in the map's order of enumeration. *)

Inductive yaml : Type :=
  | YNull
  | YBool (b : bool)
  | YNum (falsy : bool) (text : jsstring)
  | YStr (s : jsstring)
  | YSeq (items : list yaml)
  | YMap (entries : gmap (list N) yaml).

Module Yaml.

(** An [Error] object, by the properties that [getErrorMessage] reads. *)
Record Error : Type := {
  response : option (N * jsstring);   (* status, statusText *)
  request : bool;
  message : jsstring
}.

Definition TypeError (text : string) : Error :=
  {| response := None; request := false; message := js text |}.

Definition RangeError (text : string) : Error :=
  {| response := None; request := false; message := js text |}.

Definition truthy (v : yaml) : bool :=
  match v with
  | YNull => false
  | YBool b => b
  | YNum falsy _ => negb falsy
  | YStr s => nonEmpty s
  | YSeq _ | YMap _ => true
  end.

(** [!v] for a property that may be [undefined] *)
Definition truthyProp (v : option yaml) : bool :=
  match v with Some v => truthy v | None => false end.

(** [typeof v === 'object'] for a truthy [v] *)
Definition isObject (v : yaml) : bool :=
  match v with YSeq _ | YMap _ => true | _ => false end.

(** [v.name], [v.dependencies], [v.dev_dependencies]: reading one of
    these of [null] throws, an array or a primitive has none of them. *)
Definition getProperty (v : yaml) (key : jsstring) : Error + option yaml :=
  match v with
  | YNull => inl (TypeError "Cannot read properties of null")
  | YMap entries => inr (entries !! key)
  | _ => inr None
  end.

(** A canonical array index: decimal digits without a leading zero,
    below 2^32 - 1. *)
Definition arrayIndex (key : jsstring) : option nat :=
  match key with
  | [] => None
  | c :: rest =>
      if forallb isDigit key && (negb (c =? 48)%N || negb (nonEmpty rest))
         && (digitsValue key <? 2 ^ 32 - 1)%N
      then Some (N.to_nat (digitsValue key))
      else None
  end.

(** [items[i] = value]: an index past the end lengthens the array, and
    the holes it leaves read [undefined], which is written as [null]. *)
Definition setIndex (i : nat) (value : yaml) (items : list yaml) : list yaml :=
  if (i <? length items)%nat then <[i := value]> items
  else items ++ repeat YNull (i - length items) ++ [value].

(** [target[key] = value] in strict mode, for the values this code
    assigns (an empty object, a string that begins with a caret: neither
    is an array length).  A property of an array that is not an index
    is not among its items; [__proto__] is a setter unless the object
    has a property of its own by that name, and adds no property. *)
Definition setProperty (target : yaml) (key : jsstring) (value : yaml)
    : Error + yaml :=
  match target with
  | YMap entries =>
      if bool_decide (key = js "__proto__")
         && bool_decide (entries !! key = None)
      then inr target
      else inr (YMap (<[key := value]> entries))
  | YSeq items =>
      match arrayIndex key with
      | Some i => inr (YSeq (setIndex i value items))
      | None =>
          if bool_decide (key = js "length")
          then inl (RangeError "Invalid array length")
          else inr target
      end
  | YNull => inl (TypeError "Cannot set properties of null")
  | YBool _ | YNum _ _ | YStr _ => inl (TypeError "Cannot create property")
  end.

Fixpoint joinComma (parts : list jsstring) : jsstring :=
  match parts with
  | [] => []
  | [p] => p
  | p :: rest => p ++ js "," ++ joinComma rest
  end.

(** [String(v)].  An object that has a property of its own called
    [toString] cannot be converted (the property is not a function, and
    [valueOf] does not give a primitive either): [None] is the
    [TypeError]. *)
Fixpoint String (v : yaml) : option jsstring :=
  match v with
  | YNull => Some (js "null")
  | YBool true => Some (js "true")
  | YBool false => Some (js "false")
  | YNum _ text => Some text
  | YStr s => Some s
  | YSeq items =>
      joinComma <$>
        (fix elements (l : list yaml) : option (list jsstring) :=
           match l with
           | [] => Some []
           | YNull :: rest => cons [] <$> elements rest
           | item :: rest =>
               match String item, elements rest with
               | Some s, Some ss => Some (s :: ss)
               | _, _ => None
               end
           end) items
  | YMap entries =>
      match entries !! js "toString" with
      | None => Some (js "[object Object]")
      | Some _ => None
      end
  end.

(** [Object.entries(v)] for an object: the items of an array are listed
    under their indices. *)
Definition entriesOf (v : yaml) : list (jsstring * yaml) :=
  match v with
  | YMap entries => map_to_list entries
  | YSeq items => imap (fun i item => (js (pretty (N.of_nat i)), item)) items
  | _ => []
  end.

End Yaml.

Import Yaml.

(** ** Records of the registry and of the workspace (pub-types.ts) *)

Module PubTypes.

Record Pubspec : Type := {
  pubspec_name : jsstring;
  pubspec_description : option jsstring;
  pubspec_homepage : option jsstring;
  pubspec_repository : option jsstring;
  environment_sdk : option jsstring;
  environment_flutter : option jsstring
}.

Record PubPackageDetails : Type := {
  details_name : jsstring;
  latest_version : jsstring;
  latest_pubspec : Pubspec
}.

(** [popularityPercent] is [Math.round((popularityScore || 0) * 100)],
    the one thing computed from the floating point score. *)
Record Score : Type := {
  grantedPoints : option N;
  likeCount : option N;
  popularityPercent : Z
}.

Record PubPackageSearchResult : Type := {
  package : jsstring;
  result_description : option jsstring;
  result_tags : option (list jsstring);
  score : option Score
}.

Record PubPackage : Type := {
  name : jsstring;
  version : jsstring;
  description : jsstring;
  homepage : option jsstring;
  repository : option jsstring;
  popularity : Z;
  likes : N;
  points : N;
  tags : list jsstring;
  isFlutterPackage : bool;
  isDartPackage : bool
}.

Record DependencyInfo : Type := {
  dep_name : jsstring;
  dep_version : jsstring;
  isDev : bool;
  isOutdated : bool;
  latestVersion : option jsstring
}.

Record WorkspaceProject : Type := {
  project_name : yaml;
  path : jsstring;
  pubspecPath : jsstring;
  dependencies : list DependencyInfo
}.

Record DependencyConflict : Type := {
  packageName : jsstring;
  conflictingVersions : list jsstring;
  suggestedResolution : jsstring;
  reason : jsstring
}.

(** What the cache holds: the service stores lists of packages and
    package details under keys of two disjoint shapes, and reads them
    back without a check. *)
Inductive PubData : Type :=
  | Packages (l : list PubPackage)
  | Details (d : PubPackageDetails).

End PubTypes.

Import PubTypes.

(** ** The world the services run in

    The services are asynchronous methods that read the clock, the
    configuration and the file system, call the registry and report to
    the user.  An [await] is modelled as running the awaited call to
    completion. *)

Record SearchParams : Type := { q : jsstring; page : N; size : Z }.

Inductive Request : Type :=
  | GetSearch (url : jsstring) (params : SearchParams) (timeout : Z)
  | GetPackage (url : jsstring) (timeout : Z).

Inductive LogLevel : Type := LogError | LogWarn | LogInfo.

Inductive Notification : Type :=
  | ErrorMessage (text : jsstring)
  | ErrorMessageOf (text : jsstring) (error : Error)
  | WarningMessage (text : jsstring)
  | InformationMessage (text : jsstring).

(** The surroundings that the code does not control.  The [n]-th reading
    of the clock and the answer to the [n]-th request are given by
    oracles, so that a request that is made again may be answered
    differently. *)
Record Env : Type := {
  Date_now : nat -> Z;
  axios_search : nat -> Request -> Error + list PubPackageSearchResult;
  axios_package : nat -> Request -> Error + PubPackageDetails;
  enableCache : option bool;
  cacheExpiration : option Z;
  maxSearchResults : option Z;
  parseYaml : jsstring -> option yaml;
  stringifyYaml : yaml -> jsstring;
  path_join : jsstring -> jsstring -> jsstring
}.

Record World : Type := {
  clock : nat;                                  (* readings of the clock *)
  requests : list Request;                      (* requests sent, in order *)
  cacheService : CacheService.t PubData;
  console : list (LogLevel * jsstring * option Error);
  window : list Notification;
  files : gmap (list N) (list N);
  projects : list WorkspaceProject;
  terminals : list (jsstring * jsstring)        (* cwd, text sent *)
}.

Module Run.

Inductive Outcome (A : Type) : Type :=
  | Return (a : A)
  | Throw (e : Error).
Arguments Return {A} a.
Arguments Throw {A} e.

Definition M (A : Type) : Type := World -> Outcome A * World.

#[global] Instance M_ret : MRet M := fun A a w => (Return a, w).

#[global] Instance M_bind : MBind M := fun A B f m w =>
  match m w with
  | (Return a, w') => f a w'
  | (Throw e, w') => (Throw e, w')
  end.

Definition throw {A} (e : Error) : M A := fun w => (Throw e, w).

(** [try { body } catch (error) { handler }] *)
Definition tryCatch {A} (body : M A) (handler : Error -> M A) : M A :=
  fun w =>
    match body w with
    | (Return a, w') => (Return a, w')
    | (Throw e, w') => handler e w'
    end.

Definition liftEither {A} (r : Error + A) : M A :=
  match r with inl e => throw e | inr a => mret a end.

Definition reads {A} (f : World -> A) : M A := fun w => (Return (f w), w).

Definition modify (f : World -> World) : M unit := fun w => (Return tt, f w).

Definition setClock (n : nat) (w : World) : World :=
  {| clock := n; requests := requests w; cacheService := cacheService w;
     console := console w; window := window w; files := files w;
     projects := projects w; terminals := terminals w |}.

Definition setRequests (l : list Request) (w : World) : World :=
  {| clock := clock w; requests := l; cacheService := cacheService w;
     console := console w; window := window w; files := files w;
     projects := projects w; terminals := terminals w |}.

Definition setCacheService (c : CacheService.t PubData) (w : World) : World :=
  {| clock := clock w; requests := requests w; cacheService := c;
     console := console w; window := window w; files := files w;
     projects := projects w; terminals := terminals w |}.

Definition setConsole (l : list (LogLevel * jsstring * option Error))
    (w : World) : World :=
  {| clock := clock w; requests := requests w; cacheService := cacheService w;
     console := l; window := window w; files := files w;
     projects := projects w; terminals := terminals w |}.

Definition setWindow (l : list Notification) (w : World) : World :=
  {| clock := clock w; requests := requests w; cacheService := cacheService w;
     console := console w; window := l; files := files w;
     projects := projects w; terminals := terminals w |}.

Definition setFiles (f : gmap (list N) (list N)) (w : World) : World :=
  {| clock := clock w; requests := requests w; cacheService := cacheService w;
     console := console w; window := window w; files := f;
     projects := projects w; terminals := terminals w |}.

Definition setProjects (l : list WorkspaceProject) (w : World) : World :=
  {| clock := clock w; requests := requests w; cacheService := cacheService w;
     console := console w; window := window w; files := files w;
     projects := l; terminals := terminals w |}.

Definition setTerminals (l : list (jsstring * jsstring)) (w : World) : World :=
  {| clock := clock w; requests := requests w; cacheService := cacheService w;
     console := console w; window := window w; files := files w;
     projects := projects w; terminals := l |}.

Section Primitives.
Variable env : Env.

(** [Date.now()] *)
Definition dateNow : M Z :=
  fun w => (Return (Date_now env (clock w)), setClock (S (clock w)) w).

Definition consoleLog (level : LogLevel) (text : jsstring) (e : option Error)
    : M unit :=
  modify (fun w => setConsole (console w ++ [(level, text, e)]) w).

Definition show (n : Notification) : M unit :=
  modify (fun w => setWindow (window w ++ [n]) w).

(** [axios.get]: the request is sent, and the promise is rejected when
    it fails. *)
Definition axiosGetSearch (r : Request) : M (list PubPackageSearchResult) :=
  fun w =>
    let w' := setRequests (requests w ++ [r]) w in
    match axios_search env (length (requests w)) r with
    | inl e => (Throw e, w')
    | inr data => (Return data, w')
    end.

Definition axiosGetPackage (r : Request) : M PubPackageDetails :=
  fun w =>
    let w' := setRequests (requests w ++ [r]) w in
    match axios_package env (length (requests w)) r with
    | inl e => (Throw e, w')
    | inr data => (Return data, w')
    end.

(** The methods of the cache service, on the cache of the world. *)
Definition onCache {A} (f : CacheService.t PubData -> A * CacheService.t PubData)
    : M A :=
  fun w => let '(a, c) := f (cacheService w) in (Return a, setCacheService c w).

Definition cacheIsEnabled : M bool :=
  mret (default true (enableCache env)).

Definition cacheGet (key : jsstring) : M (option PubData) :=
  now ← dateNow;
  onCache (CacheService.get now key).

Definition cacheHas (key : jsstring) : M bool :=
  now ← dateNow;
  onCache (CacheService.has now key).

Definition cacheSet (key : jsstring) (value : PubData)
    (expirationSeconds : option Z) : M unit :=
  now ← dateNow;
  now' ← dateNow;
  onCache (fun c =>
    (tt, CacheService.set (cacheExpiration env) now now' key (Some value)
           expirationSeconds c)).

End Primitives.

(** What a computation leaves alone.  [keepsFiles m]: whatever [m]
    does, the files are as before.  [safe m]: moreover [m] returns, it
    does not throw. *)
Definition keepsFiles {A} (m : M A) : Prop :=
  forall w, files (snd (m w)) = files w.

Definition safe {A} (m : M A) : Prop :=
  forall w, exists a w', m w = (Return a, w') /\ files w' = files w.

End Run.

Import Run.

(** ** The registry client (pub-api-service.ts) *)

Module PubApiService.
Section Service.
Variable env : Env.

Definition baseUrl : jsstring := js "https://pub.dev/api".

(** A natural number in a template string. *)
Definition numberToString (n : N) : jsstring := js (pretty n).

(** [a || b] on strings that may be [undefined] *)
Definition orString (a : option jsstring) (b : option jsstring)
    : option jsstring :=
  match a with
  | Some s => if nonEmpty s then Some s else b
  | None => b
  end.

Definition truthyString (a : option jsstring) : bool :=
  match a with Some s => nonEmpty s | None => false end.

Definition includes (l : list jsstring) (s : string) : bool :=
  bool_decide (js s ∈ l).

Definition getErrorMessage (error : Error) : jsstring :=
  match response error with
  | Some (status, statusText) =>
      js "HTTP " ++ numberToString status ++ js ": " ++ statusText
  | None =>
      if request error then js "Network error - check your internet connection"
      else if nonEmpty (message error) then message error
      else js "Unknown error occurred"
  end.

(** [this.cacheService.isEnabled() && this.cacheService.has(cacheKey)] *)
Definition cacheHit (cacheKey : jsstring) : M bool :=
  enabled ← cacheIsEnabled env;
  if (enabled : bool) then cacheHas env cacheKey else mret false.

Definition getPackageDetails (packageName : jsstring) : M (option PubData) :=
  let cacheKey := js "package:" ++ packageName in
  hit ← cacheHit cacheKey;
  if (hit : bool) then cacheGet env cacheKey
  else
    tryCatch
      (response ← axiosGetPackage env
         (GetPackage (baseUrl ++ js "/packages/" ++ packageName) 10000);
       enabled ← cacheIsEnabled env;
       _ ← (if (enabled : bool) then cacheSet env cacheKey (Details response) (Some 3600%Z)
            else mret tt);
       mret (Some (Details response)))
      (fun error =>
         _ ← consoleLog LogError
               (js "Error getting package details for " ++ packageName ++ js ":")
               (Some error);
         mret None).

(** [details?.latest?.version || null]: a value read from the cache
    that is not a details record has no [latest]. *)
Definition getLatestVersion (packageName : jsstring) : M (option jsstring) :=
  details ← getPackageDetails packageName;
  mret (match details with
        | Some (Details d) =>
            if nonEmpty (latest_version d) then Some (latest_version d) else None
        | _ => None
        end).

Definition isFlutterPackage (tags : option (list jsstring))
    (details : PubPackageDetails) : bool :=
  let tags := default [] tags in
  includes tags "flutter" || includes tags "flutter-package"
  || truthyString (environment_flutter (latest_pubspec details)).

Definition isDartPackage (tags : option (list jsstring))
    (details : PubPackageDetails) : bool :=
  let tags := default [] tags in
  includes tags "dart" || includes tags "dart-package"
  || truthyString (environment_sdk (latest_pubspec details)).

Definition toPackage (result : PubPackageSearchResult)
    (packageDetails : PubPackageDetails) : PubPackage :=
  {| name := package result;
     version := latest_version packageDetails;
     description :=
       default []
         (orString (result_description result)
            (orString (pubspec_description (latest_pubspec packageDetails))
               (Some [])));
     homepage := pubspec_homepage (latest_pubspec packageDetails);
     repository := pubspec_repository (latest_pubspec packageDetails);
     popularity := match score result with
                   | Some s => popularityPercent s
                   | None => 0%Z
                   end;
     likes := default 0%N (score result ≫= likeCount);
     points := default 0%N (score result ≫= grantedPoints);
     tags := default [] (result_tags result);
     PubTypes.isFlutterPackage :=
       isFlutterPackage (result_tags result) packageDetails;
     PubTypes.isDartPackage :=
       isDartPackage (result_tags result) packageDetails |}.

(** The loop of [convertSearchResultsToPackages]; [packages] is the
    array that it pushes to. *)
Fixpoint convertLoop (searchResults : list PubPackageSearchResult)
    (packages : list PubPackage) : M (list PubPackage) :=
  match searchResults with
  | [] => mret packages
  | result :: rest =>
      packageDetails ← getPackageDetails (package result);
      match packageDetails with
      | None => convertLoop rest packages
      | Some (Details d) => convertLoop rest (packages ++ [toPackage result d])
      | Some (Packages _) =>
          throw (TypeError "Cannot read properties of undefined")
      end
  end.

Definition convertSearchResultsToPackages
    (searchResults : list PubPackageSearchResult) : M (list PubPackage) :=
  convertLoop searchResults [].

(** [page] is [None] when the argument is omitted.  What is returned on
    a hit is whatever the cache holds under the key. *)
Definition searchPackages (query : jsstring) (page : option N) : M PubData :=
  let page := default 1%N page in
  let cacheKey := js "search:" ++ query ++ js ":" ++ numberToString page in
  hit ← cacheHit cacheKey;
  if (hit : bool) then
    cached ← cacheGet env cacheKey;
    mret (default (Packages []) cached)
  else
    tryCatch
      (let maxResults := default 20%Z (maxSearchResults env) in
       response ← axiosGetSearch env
         (GetSearch (baseUrl ++ js "/search")
            {| q := query; page := page; size := Z.min maxResults 50 |}
            10000);
       packages ← convertSearchResultsToPackages response;
       enabled ← cacheIsEnabled env;
       _ ← (if (enabled : bool) then cacheSet env cacheKey (Packages packages) (Some 1800%Z)
            else mret tt);
       mret (Packages packages))
      (fun error =>
         _ ← consoleLog LogError (js "Error searching packages:") (Some error);
         _ ← show (ErrorMessage
                     (js "Failed to search packages: " ++ getErrorMessage error));
         mret (Packages [])).

(** The tasks of [checkForUpdates], one for each key of [dependencies],
    run here one after the other. *)
Fixpoint checkLoop (dependencies : gmap (list N) (list N))
    (keys : list jsstring) (updates : gmap (list N) (list N))
    : M (gmap (list N) (list N)) :=
  match keys with
  | [] => mret updates
  | packageName :: rest =>
      latestVersion ← getLatestVersion packageName;
      match latestVersion with
      | Some latest =>
          if Version.isVersionOutdated (dependencies !! packageName) (Some latest)
          then checkLoop dependencies rest (<[packageName := latest]> updates)
          else checkLoop dependencies rest updates
      | None => checkLoop dependencies rest updates
      end
  end.

Definition checkForUpdates (dependencies : gmap (list N) (list N))
    : M (gmap (list N) (list N)) :=
  checkLoop dependencies (fst <$> map_to_list dependencies) ∅.

End Service.
End PubApiService.

(** ** The manifest accessor (workspace-service.ts) *)

Module WorkspaceService.

(** [version.replace(/^[\^~]/, '')], behind a caret. *)
Definition formatVersion (version : jsstring) : jsstring :=
  if negb (nonEmpty version) then js "^1.0.0"
  else
    let cleanVersion :=
      match version with
      | c :: rest => if (c =? CARET)%N || (c =? TILDE)%N then rest else version
      | [] => []
      end in
    CARET :: cleanVersion.

(** The two assignments of [addDependency]:
    [if (!pubspec[section]) pubspec[section] = {}] and
    [pubspec[section][name] = value].  The second one changes, in place,
    the object that [pubspec[section]] refers to. *)
Definition setDependency (pubspec : yaml) (section name value : jsstring)
    : Error + yaml :=
  match getProperty pubspec section with
  | inl e => inl e
  | inr current =>
      match (if truthyProp current then inr pubspec
             else setProperty pubspec section (YMap ∅)) with
      | inl e => inl e
      | inr pubspec1 =>
          let target :=
            if truthyProp current then default YNull current else YMap ∅ in
          match setProperty target name (YStr value) with
          | inl e => inl e
          | inr target' =>
              match pubspec1 with
              | YMap entries => inr (YMap (<[section := target']> entries))
              | _ => inr pubspec1
              end
          end
      end
  end.

Section Service.
Variable env : Env.

Definition existsSync (file : jsstring) : M bool :=
  reads (fun w => bool_decide (is_Some (files w !! file))).

Definition readFileSync (file : jsstring) : M jsstring :=
  fun w =>
    match files w !! file with
    | Some content => (Return content, w)
    | None =>
        (Throw {| response := None; request := false;
                  message := js "ENOENT: no such file or directory" |}, w)
    end.

Definition writeFileSync (file content : jsstring) : M unit :=
  modify (fun w => setFiles (<[file := content]> (files w)) w).

(** [parseYaml(content)] throws on a text that is not YAML. *)
Definition parse (content : jsstring) : M yaml :=
  match parseYaml env content with
  | Some v => mret v
  | None =>
      throw {| response := None; request := false;
               message := js "YAMLParseError" |}
  end.

(** A computation together with the error that it threw, if any. *)
Definition attempt {A} (m : M A) : M (Error + A) :=
  fun w =>
    match m w with
    | (Return a, w') => (Return (inr a), w')
    | (Throw e, w') => (Return (inl e), w')
    end.

Definition stringOf (v : yaml) : M jsstring :=
  match String v with
  | Some s => mret s
  | None => throw (TypeError "Cannot convert object to primitive value")
  end.

(** One [for] loop of [extractDependencies] over the entries of a
    section; [sdk] is the name that the section skips, [dependencies]
    the array pushed to.  The second component is the error that left
    the loop: one thrown by the handler of the inner [try]. *)
Fixpoint extractLoop (isDev : bool) (sdk : jsstring)
    (entries : list (jsstring * yaml)) (dependencies : list DependencyInfo)
    : M (list DependencyInfo * option Error) :=
  match entries with
  | [] => mret (dependencies, None)
  | (name, version) :: rest =>
      if nonEmpty name && negb (bool_decide (name = sdk)) && truthy version
      then
        pushed ← attempt
          (tryCatch
             (latestVersion ← PubApiService.getLatestVersion env name;
              versionString ← stringOf version;
              mret (dependencies ++
                [{| dep_name := name;
                    dep_version := versionString;
                    isDev := isDev;
                    isOutdated :=
                      match latestVersion with
                      | Some latest =>
                          Version.isVersionOutdated (Some versionString)
                            (Some latest)
                      | None => false
                      end;
                    latestVersion := latestVersion |}]))
             (fun error =>
                _ ← consoleLog LogWarn
                      (js "Failed to process dependency " ++ name ++ js ":")
                      (Some error);
                versionString ← stringOf version;
                mret (dependencies ++
                  [{| dep_name := name;
                      dep_version := versionString;
                      isDev := isDev;
                      isOutdated := false;
                      latestVersion := None |}])));
        match pushed with
        | inr dependencies' => extractLoop isDev sdk rest dependencies'
        | inl error => mret (dependencies, Some error)
        end
      else extractLoop isDev sdk rest dependencies
  end.

(** [section && typeof section === 'object'] *)
Definition isSection (section : option yaml) : bool :=
  match section with
  | Some v => truthy v && isObject v
  | None => false
  end.

Definition sectionEntries (section : option yaml) : list (jsstring * yaml) :=
  match section with Some v => entriesOf v | None => [] end.

Definition extractDependencies (pubspec : yaml) : M (list DependencyInfo) :=
  let failed (dependencies : list DependencyInfo) (error : Error) :=
    _ ← consoleLog LogError (js "Error extracting dependencies:") (Some error);
    mret dependencies in
  match getProperty pubspec (js "dependencies"),
        getProperty pubspec (js "dev_dependencies") with
  | inr regular, inr dev =>
      first ← (if isSection regular
               then extractLoop false (js "flutter") (sectionEntries regular) []
               else mret ([], None));
      match first with
      | (dependencies, Some error) => failed dependencies error
      | (dependencies, None) =>
          second ← (if isSection dev
                    then extractLoop true (js "flutter_test")
                           (sectionEntries dev) dependencies
                    else mret (dependencies, None));
          match second with
          | (dependencies, Some error) => failed dependencies error
          | (dependencies, None) => mret dependencies
          end
      end
  | inl error, _ | _, inl error => failed [] error
  end.

Definition createProjectFromPath (projectPath : jsstring)
    : M (option WorkspaceProject) :=
  tryCatch
    (let pubspecPath := path_join env projectPath (js "pubspec.yaml") in
     content ← readFileSync pubspecPath;
     pubspec ← parse content;
     if negb (truthy pubspec) then mret None
     else
       name ← liftEither (getProperty pubspec (js "name"));
       if negb (truthyProp name) then mret None
       else
         dependencies ← extractDependencies pubspec;
         mret (Some {| project_name := default YNull name;
                       path := projectPath;
                       pubspecPath := pubspecPath;
                       dependencies := dependencies |}))
    (fun error =>
       _ ← consoleLog LogError
             (js "Error creating project from " ++ projectPath ++ js ":")
             (Some error);
       mret None).

(** [this.projects.findIndex(p => p.path === projectPath)] *)
Fixpoint findIndex (projectPath : jsstring) (l : list WorkspaceProject)
    : option nat :=
  match l with
  | [] => None
  | p :: rest =>
      if bool_decide (path p = projectPath) then Some O
      else S <$> findIndex projectPath rest
  end.

Definition refreshProject (projectPath : jsstring) : M unit :=
  index ← reads (fun w => findIndex projectPath (projects w));
  match index with
  | Some index =>
      project ← createProjectFromPath projectPath;
      match project with
      | Some project =>
          modify (fun w => setProjects (<[index := project]> (projects w)) w)
      | None => mret tt
      end
  | None => mret tt
  end.

(** [executePubGet] sends the command to a new terminal and resolves,
    two seconds later, with [success: true]. *)
Definition runPubGet (projectPath : jsstring) : M unit :=
  _ ← modify (fun w =>
         setTerminals (terminals w ++ [(projectPath, js "flutter pub get")]) w);
  show (InformationMessage (js "Dependencies updated successfully!")).

(** [isDev] is [None] when the argument is omitted. *)
Definition addDependency (projectPath packageName version : jsstring)
    (isDev : option bool) : M bool :=
  let isDev := default false isDev in
  tryCatch
    (let pubspecPath := path_join env projectPath (js "pubspec.yaml") in
     found ← existsSync pubspecPath;
     if negb found then
       _ ← show (ErrorMessage (js "pubspec.yaml not found in " ++ projectPath));
       mret false
     else
       content ← readFileSync pubspecPath;
       pubspec ← parse content;
       let dependencySection :=
         if isDev then js "dev_dependencies" else js "dependencies" in
       pubspec' ← liftEither
         (setDependency pubspec dependencySection packageName
            (formatVersion version));
       let newContent := stringifyYaml env pubspec' in
       _ ← writeFileSync pubspecPath newContent;
       _ ← runPubGet projectPath;
       _ ← refreshProject projectPath;
       _ ← show (InformationMessage
                   (js "Added " ++ packageName ++ js ":" ++ version ++ js " to "
                    ++ (if isDev then js "dev_dependencies"
                        else js "dependencies")));
       mret true)
    (fun error =>
       _ ← consoleLog LogError (js "Error adding dependency:") (Some error);
       _ ← show (ErrorMessageOf (js "Failed to add dependency: ") error);
       mret false).

Definition updateDependency (projectPath packageName newVersion : jsstring)
    (isDev : option bool) : M bool :=
  let isDev := default false isDev in
  addDependency projectPath packageName newVersion (Some isDev).

End Service.
End WorkspaceService.

(** ** The conflict advisor (dependency-resolver.ts) *)

Module DependencyResolver.

Definition detectConflicts (projectPath : jsstring)
    : M (list DependencyConflict) :=
  let commonConflicts :=
    [{| packageName := js "flutter_lints";
        conflictingVersions := [js "^6.0.0"; js "^5.0.0"];
        suggestedResolution := js "^5.0.0";
        reason := js "Incompatible version ranges between direct and transitive dependencies" |}] in
  mret commonConflicts.

End DependencyResolver.

(** ** Vocabulary for the properties of the manifest accessor *)

(** Every value of the section can be printed by [String]. *)
Definition printable (section : option yaml) : Prop :=
  Forall (λ entry, is_Some (String (snd entry)))
    (WorkspaceService.sectionEntries section).

(** The entries of a section that is an object, none otherwise. *)
Definition sectionMap (section : option yaml) : gmap (list N) yaml :=
  match section with
  | Some (YMap entries) => entries
  | _ => ∅
  end.

(** The manifest with [name: value] in [section]. *)
Definition withDependency (manifest : gmap (list N) yaml)
    (section name value : jsstring) : gmap (list N) yaml :=
  <[section := YMap (<[name := YStr value]> (sectionMap (manifest !! section)))]>
    manifest.

Definition sectionOf (isDev : bool) : jsstring :=
  if isDev then js "dev_dependencies" else js "dependencies".

Definition sdkOf (isDev : bool) : jsstring :=
  if isDev then js "flutter_test" else js "flutter".

(** The normalization as the specification words it: a leading caret or
    tilde stripped, a caret put in front. *)
Definition stripPrefix (version : jsstring) : jsstring :=
  match version with
  | c :: rest => if (c =? CARET)%N || (c =? TILDE)%N then rest else version
  | [] => []
  end.

Definition formatVersion_spec (version : jsstring) : jsstring :=
  CARET :: stripPrefix version.

(** ** Sample surroundings

    A registry that knows one version of every package, a registry that
    cannot be reached, and a world in which nothing has happened yet. *)

Module Samples.

Definition detailsOf (name version : jsstring) : PubPackageDetails :=
  {| details_name := name;
     latest_version := version;
     latest_pubspec :=
       {| pubspec_name := name;
          pubspec_description := None;
          pubspec_homepage := None;
          pubspec_repository := None;
          environment_sdk := None;
          environment_flutter := None |} |}.

Definition notFound : Error :=
  {| response := Some (404%N, js "Not Found");
     request := true;
     message := js "Request failed with status code 404" |}.

Definition networkError : Error :=
  {| response := None; request := true; message := js "Network Error" |}.

Definition manifestBefore : yaml :=
  YMap {[ js "name" := YStr (js "app") ]}.

Definition manifestAfter : yaml :=
  YMap {[ js "name" := YStr (js "app");
          js "dependencies" := YMap {[ js "foo" := YStr (js "^1.0.0") ]} ]}.

Definition textBefore : jsstring := js "name: app".

Definition textAfter : jsstring :=
  js "name: app" ++ [NEWLINE] ++ js "dependencies:" ++ [NEWLINE]
  ++ js "  foo: ^1.0.0".

(** A YAML library for the two manifests above. *)
Definition parseSample (content : jsstring) : option yaml :=
  if bool_decide (content = textBefore) then Some manifestBefore
  else if bool_decide (content = textAfter) then Some manifestAfter
  else None.

Definition registry (latest : jsstring) : Env :=
  {| Date_now := fun n => (1000 * Z.of_nat n)%Z;
     axios_search := fun _ _ => inr [];
     axios_package := fun _ _ => inr (detailsOf (js "pkg") latest);
     enableCache := None;
     cacheExpiration := None;
     maxSearchResults := None;
     parseYaml := parseSample;
     stringifyYaml := fun _ => textAfter;
     path_join := fun a b => a ++ js "/" ++ b |}.

Definition unreachable (error : Error) : Env :=
  {| Date_now := fun n => (1000 * Z.of_nat n)%Z;
     axios_search := fun _ _ => inl error;
     axios_package := fun _ _ => inl error;
     enableCache := None;
     cacheExpiration := None;
     maxSearchResults := None;
     parseYaml := parseSample;
     stringifyYaml := fun _ => textAfter;
     path_join := fun a b => a ++ js "/" ++ b |}.

Definition start : World :=
  {| clock := 0;
     requests := [];
     cacheService := CacheService.new 0 None;
     console := [];
     window := [];
     files := {[ js "/app/pubspec.yaml" := textBefore ]};
     projects := [];
     terminals := [] |}.

(** The manifest of the specification's example. *)
Definition manifest : jsstring :=
  js "dependencies:" ++ [NEWLINE] ++ js "  foo: ^1.0.0" ++ [NEWLINE]
  ++ js "dev_dependencies:" ++ [NEWLINE] ++ js "  bar: ^2.0.0".

End Samples.

(** ** A small YAML library

    A printer and a parser for manifests of the usual shape: top-level
    keys whose values are strings, blocks of [key: string] entries, or
    blocks of [- string] items, indented by two spaces.  Keys are
    printed in the map's order of enumeration.  It stands for the YAML
    library in the examples. *)

Module MiniYaml.

Definition scalar (v : yaml) : jsstring :=
  match v with YStr s => s | _ => js "~" end.

Definition printEntry (entry : jsstring * yaml) : jsstring :=
  js "  " ++ entry.1 ++ js ": " ++ scalar entry.2.

Definition printItem (item : yaml) : jsstring := js "  - " ++ scalar item.

Definition printBlock (entry : jsstring * yaml) : list jsstring :=
  match entry.2 with
  | YMap entries => (entry.1 ++ js ":") :: (printEntry <$> map_to_list entries)
  | YSeq items => (entry.1 ++ js ":") :: (printItem <$> items)
  | v => [entry.1 ++ js ": " ++ scalar v]
  end.

Fixpoint unlines (lines : list jsstring) : jsstring :=
  match lines with
  | [] => []
  | [l] => l
  | l :: rest => l ++ [NEWLINE] ++ unlines rest
  end.

Definition stringify (v : yaml) : jsstring :=
  match v with
  | YMap entries => unlines (flat_map printBlock (map_to_list entries))
  | _ => js "~"
  end.

(** [key: value], cut at the first colon that a space follows. *)
Fixpoint cut (s : jsstring) : option (jsstring * jsstring) :=
  match s with
  | c :: rest =>
      match rest with
      | c' :: rest' =>
          if (c =? COLON)%N && (c' =? 32)%N then Some ([], rest')
          else (fun kv : jsstring * jsstring => (c :: kv.1, kv.2)) <$> cut rest
      | [] => None
      end
  | [] => None
  end.

(** The keys read so far, and the key whose block is being read. *)
Definition state : Type := gmap (list N) yaml * option jsstring.

Definition readLine (st : option state) (l : jsstring) : option state :=
  match st with
  | None => None
  | Some (top, current) =>
      if PubspecAnalyzer.startsWith l (js "  - ") then
        match current with
        | Some k =>
            match top !! k with
            | Some YNull => Some (<[k := YSeq [YStr (drop 4 l)]]> top, current)
            | Some (YSeq items) =>
                Some (<[k := YSeq (items ++ [YStr (drop 4 l)])]> top, current)
            | _ => None
            end
        | None => None
        end
      else if PubspecAnalyzer.startsWith l (js "  ") then
        match current, cut (drop 2 l) with
        | Some k, Some (name, value) =>
            match top !! k with
            | Some YNull => Some (<[k := YMap {[ name := YStr value ]}]> top, current)
            | Some (YMap entries) =>
                Some (<[k := YMap (<[name := YStr value]> entries)]> top, current)
            | _ => None
            end
        | _, _ => None
        end
      else
        match cut l with
        | Some (k, value) => Some (<[k := YStr value]> top, None)
        | None =>
            if PubspecAnalyzer.endsWith l [COLON]
            then let k := take (length l - 1) l in
                 Some (<[k := YNull]> top, Some k)
            else None
        end
  end.

Definition read (text : jsstring) : option yaml :=
  match foldl readLine (Some (∅, None)) (split NEWLINE text) with
  | Some (top, _) => Some (YMap top)
  | None => None
  end.

End MiniYaml.

(** A registry like [Samples.registry], with that YAML library. *)
Definition library (latest : jsstring) : Env :=
  {| Date_now := Date_now (Samples.registry latest);
     axios_search := axios_search (Samples.registry latest);
     axios_package := axios_package (Samples.registry latest);
     enableCache := None;
     cacheExpiration := None;
     maxSearchResults := None;
     parseYaml := MiniYaml.read;
     stringifyYaml := MiniYaml.stringify;
     path_join := path_join (Samples.registry latest) |}.

(** ** Vocabulary for further properties *)

(** The comparison of [isOutdated_padded] on the lists of components. *)
Definition compareComponents (cs ls : list jsnum) : bool :=
  let n := Nat.max (length cs) (length ls) in
  Version.firstDifference
    (zip (Version.padZero n cs) (Version.padZero n ls)).

(** The snapshot in the global state is the map of the service (no
    snapshot standing for the empty map). *)
Definition flushed {T} (st : CacheService.t T) : Prop :=
  default ∅ (CacheService.globalState st) = CacheService.cache st.

(** Whatever the computation does, the cache is as before. *)
Definition keepsCache {A} (m : M A) : Prop :=
  ∀ w, cacheService (snd (m w)) = cacheService w.

(** A registry like [Samples.registry], used with the cache turned
    off in the configuration. *)
Definition uncachedRegistry (latest : jsstring) : Env :=
  {| Date_now := Date_now (Samples.registry latest);
     axios_search := axios_search (Samples.registry latest);
     axios_package := axios_package (Samples.registry latest);
     enableCache := Some false;
     cacheExpiration := None;
     maxSearchResults := None;
     parseYaml := Samples.parseSample;
     stringifyYaml := stringifyYaml (Samples.registry latest);
     path_join := path_join (Samples.registry latest) |}.

(** A world like [Samples.start] whose manifest has the given text. *)
Definition startWith (content : jsstring) : World :=
  setFiles {[ js "/app/pubspec.yaml" := content ]} Samples.start.

(** What stands behind a record of [extractDependencies]: an entry of
    the section that has a name other than the SDK's and a truthy value
    that prints as the record's version, with the flag as the comparison
    with the latest version gives it. *)
Definition listedFrom (isDev : bool) (sdk : jsstring)
    (entries : list (jsstring * yaml)) (d : DependencyInfo) : Prop :=
  ∃ v, (dep_name d, v) ∈ entries
       ∧ nonEmpty (dep_name d) = true
       ∧ dep_name d ≠ sdk
       ∧ truthy v = true
       ∧ String v = Some (dep_version d)
       ∧ PubTypes.isDev d = isDev
       ∧ PubTypes.isOutdated d
         = match PubTypes.latestVersion d with
           | Some latest =>
               Version.isVersionOutdated (Some (dep_version d)) (Some latest)
           | None => false
           end.

(** The conflict that [detectConflicts] always reports. *)
Definition flutterLints : DependencyConflict :=
  {| packageName := js "flutter_lints";
     conflictingVersions := [js "^6.0.0"; js "^5.0.0"];
     suggestedResolution := js "^5.0.0";
     reason := js "Incompatible version ranges between direct and transitive dependencies" |}.

(** A run of digits, a version [X.Y.Z] made of three, and a string
    that begins with one. *)
Definition digitRun (d : jsstring) : Prop :=
  d ≠ [] ∧ forallb isDigit d = true.

Definition versionShape (m : jsstring) : Prop :=
  ∃ d1 d2 d3 : jsstring,
    digitRun d1 ∧ digitRun d2 ∧ digitRun d3
    ∧ m = d1 ++ [DOT] ++ d2 ++ [DOT] ++ d3.

Definition beginsVersion (s : jsstring) : Prop :=
  ∃ m rest : jsstring, versionShape m ∧ s = m ++ rest.

(** The string does not begin with a digit. *)
Definition noDigitAhead (s : jsstring) : Prop :=
  match s with
  | c :: _ => isDigit c = false
  | [] => True
  end.

(** ** The rest of the manifest accessor (workspace-service.ts) *)

Module Workspace.

(** The names that every plain object inherits from [Object.prototype].
    What is read under one of them, when the object has no property of
    its own by that name, is a function or an object: truthy. *)
Definition objectPrototype : list jsstring :=
  [js "constructor"; js "__defineGetter__"; js "__defineSetter__";
   js "hasOwnProperty"; js "__lookupGetter__"; js "__lookupSetter__";
   js "isPrototypeOf"; js "propertyIsEnumerable"; js "toString";
   js "valueOf"; js "__proto__"; js "toLocaleString"].

(** The object that [dependencies.reduce] builds in [checkForUpdates]:
    [acc[dep.name] = dep.version] for each dependency in turn.  On an
    object literal [__proto__] is a setter, and ignores a string. *)
Definition dependencyRecord (deps : list DependencyInfo)
    : gmap (list N) (list N) :=
  foldl (fun acc dep =>
           if bool_decide (dep_name dep = js "__proto__") then acc
           else <[dep_name dep := dep_version dep]> acc)
        ∅ deps.

Section Service.
Variable env : Env.

(** What the runtime answers for a section that is not a plain object
    (an array, a string, a number, [true]): whether [section[name]] is
    truthy, and what [delete section[name]] leaves or throws. *)
Variable exoticHas : yaml -> jsstring -> bool.
Variable exoticDelete : yaml -> jsstring -> Error + yaml.

(** [section[name]] as a condition. *)
Definition hasTruthyProperty (section : yaml) (name : jsstring) : bool :=
  match section with
  | YMap entries =>
      match entries !! name with
      | Some v => truthy v
      | None => bool_decide (name ∈ objectPrototype)
      end
  | _ => exoticHas section name
  end.

(** [delete section[name]] *)
Definition deleteProperty (section : yaml) (name : jsstring) : Error + yaml :=
  match section with
  | YMap entries => inr (YMap (delete name entries))
  | _ => exoticDelete section name
  end.

(** [isDev] is [None] when the argument is omitted. *)
Definition removeDependency (projectPath packageName : jsstring)
    (isDev : option bool) : M bool :=
  let isDev := default false isDev in
  tryCatch
    (let pubspecPath := path_join env projectPath (js "pubspec.yaml") in
     found ← WorkspaceService.existsSync pubspecPath;
     if negb found then
       _ ← show (ErrorMessage (js "pubspec.yaml not found in " ++ projectPath));
       mret false
     else
       content ← WorkspaceService.readFileSync pubspecPath;
       pubspec ← WorkspaceService.parse env content;
       let dependencySection :=
         if isDev then js "dev_dependencies" else js "dependencies" in
       section ← liftEither (getProperty pubspec dependencySection);
       match section, pubspec with
       | Some section, YMap entries =>
           if truthy section && hasTruthyProperty section packageName then
             section' ← liftEither (deleteProperty section packageName);
             let newContent :=
               stringifyYaml env (YMap (<[dependencySection := section']> entries)) in
             _ ← WorkspaceService.writeFileSync pubspecPath newContent;
             _ ← WorkspaceService.runPubGet projectPath;
             _ ← WorkspaceService.refreshProject env projectPath;
             _ ← show (InformationMessage
                         (js "Removed " ++ packageName ++ js " from dependencies"));
             mret true
           else
             _ ← show (WarningMessage
                         (packageName ++ js " not found in dependencies"));
             mret false
       | _, _ =>
           _ ← show (WarningMessage
                       (packageName ++ js " not found in dependencies"));
           mret false
       end)
    (fun error =>
       _ ← consoleLog LogError (js "Error removing dependency:") (Some error);
       _ ← show (ErrorMessageOf (js "Failed to remove dependency: ") error);
       mret false).

(** [this.projects.find(p => p.path === projectPath)] *)
Definition findProject (projectPath : jsstring) (l : list WorkspaceProject)
    : option WorkspaceProject :=
  List.find (fun p => bool_decide (path p = projectPath)) l.

Definition checkForUpdates (projectPath : jsstring)
    : M (gmap (list N) (list N)) :=
  project ← reads (fun w => findProject projectPath (projects w));
  match project with
  | None => mret ∅
  | Some project =>
      PubApiService.checkForUpdates env (dependencyRecord (dependencies project))
  end.

End Service.
End Workspace.

(** ** Analysis of an open manifest (pubspec-analyzer.ts) *)

Module PubspecAnalysis.

Import PubspecAnalyzer.

(** A [vscode.TextDocument], by what the analyzer reads of it. *)
Record TextDocument : Type := {
  fileName : jsstring;
  uri : jsstring;
  fsPath : jsstring;
  documentVersion : N;
  getText : jsstring
}.

Record PackageAnalysis : Type := {
  name : jsstring;
  currentVersion : jsstring;
  latestVersion : jsstring;
  isOutdated : bool;
  isDev : bool;
  range : Range;
  description : option jsstring
}.

Inductive DiagnosticSeverity : Type := Error_ | Warning | Information | Hint_.

Inductive DiagnosticTag : Type := Unnecessary | Deprecated.

Record Diagnostic : Type := {
  diagnostic_range : Range;
  message : jsstring;
  severity : DiagnosticSeverity;
  code : jsstring;
  source : jsstring;
  tags : list DiagnosticTag
}.

(** The two maps of the analyzer: analyses by document and version,
    diagnostics by document. *)
Record t : Type := {
  analysisCache : gmap (list N) (list PackageAnalysis);
  diagnosticCollection : gmap (list N) (list Diagnostic)
}.

Definition isPubspecFile (document : TextDocument) : bool :=
  endsWith (fileName document) (js "pubspec.yaml").

Definition cacheKeyOf (document : TextDocument) : jsstring :=
  fsPath document ++ js ":"
  ++ PubApiService.numberToString (documentVersion document).

(** [range.contains(position)]: both ends belong to the range. *)
Definition contains (r : Range) (p : Position) : bool :=
  negb (isBefore p (start r)) && negb (isBefore (end_ r) p).

(** [Object.entries(v)] of a truthy value: a string has its characters
    under their indices, a number and [true] have nothing. *)
Definition entriesOfValue (v : yaml) : list (jsstring * yaml) :=
  match v with
  | YStr s =>
      imap (fun i c => (js (pretty (N.of_nat i)), YStr [c])) s
  | _ => entriesOf v
  end.

(** The arrow of the messages, with a space on each side. *)
Definition ARROW : jsstring := [32; 8594; 32]%N.

Definition diagnosticOf (analysis : PackageAnalysis) : Diagnostic :=
  {| diagnostic_range := range analysis;
     message :=
       js "Package '" ++ name analysis ++ js "' has an update available: "
       ++ currentVersion analysis ++ ARROW ++ latestVersion analysis;
     severity := Information;
     code := js "package-update-available";
     source := js "Smart Pub Manager";
     tags := [Unnecessary] |}.

(** The loop of [updateDiagnostics], then [diagnosticCollection.set]. *)
Definition updateDiagnostics (document : TextDocument)
    (analyses : list PackageAnalysis) (st : t) : t :=
  let diagnostics :=
    flat_map (fun analysis =>
                if isOutdated analysis then [diagnosticOf analysis] else [])
             analyses in
  {| analysisCache := analysisCache st;
     diagnosticCollection :=
       <[uri document := diagnostics]> (diagnosticCollection st) |}.

Definition getAnalysisForPosition (st : t) (document : TextDocument)
    (position : Position) : option PackageAnalysis :=
  match analysisCache st !! cacheKeyOf document with
  | None => None
  | Some analyses =>
      List.find (fun analysis => contains (range analysis) position) analyses
  end.

Section Service.
Variable env : Env.

(** [packageDetails?.latest?.pubspec?.description] *)
Definition descriptionOf (packageDetails : option PubData) : option jsstring :=
  match packageDetails with
  | Some (Details d) => pubspec_description (latest_pubspec d)
  | _ => None
  end.

(** The loop of [analyzeDependencySection] over the entries of the
    section; [analyses] is the array pushed to. *)
Fixpoint sectionLoop (document : TextDocument) (sectionName : jsstring)
    (isDev : bool) (entries : list (jsstring * yaml))
    (analyses : list PackageAnalysis) : M (list PackageAnalysis) :=
  match entries with
  | [] => mret analyses
  | (packageName, versionConstraint) :: rest =>
      if bool_decide (packageName = js "flutter")
         || bool_decide (packageName = js "flutter_test")
      then sectionLoop document sectionName isDev rest analyses
      else
        match versionConstraint with
        | YStr constraint =>
            analyses' ← tryCatch
              (latestVersion ← PubApiService.getLatestVersion env packageName;
               match latestVersion with
               | None => mret analyses
               | Some latestVersion =>
                   let currentVersion := extractVersionFromConstraint constraint in
                   let isOutdated :=
                     Version.isVersionOutdated (Some currentVersion)
                       (Some latestVersion) in
                   match findPackageRange (getText document) packageName
                           sectionName with
                   | None => mret analyses
                   | Some range =>
                       packageDetails ←
                         PubApiService.getPackageDetails env packageName;
                       mret (analyses ++
                         [{| name := packageName;
                             currentVersion := currentVersion;
                             latestVersion := latestVersion;
                             isOutdated := isOutdated;
                             isDev := isDev;
                             range := range;
                             description := descriptionOf packageDetails |}])
                   end
               end)
              (fun error =>
                 _ ← consoleLog LogError
                       (js "Error analyzing package " ++ packageName ++ js ":")
                       (Some error);
                 mret analyses);
            sectionLoop document sectionName isDev rest analyses'
        | _ => sectionLoop document sectionName isDev rest analyses
        end
  end.

Definition analyzeDependencySection (document : TextDocument)
    (dependencies : yaml) (sectionName : jsstring) (isDev : bool)
    : M (list PackageAnalysis) :=
  sectionLoop document sectionName isDev (entriesOfValue dependencies) [].

(** [if (pubspec.section) analyses.push(...await
    this.analyzeDependencySection(...))] *)
Definition analyzeIfPresent (document : TextDocument) (pubspec : yaml)
    (sectionName : jsstring) (isDev : bool) : M (list PackageAnalysis) :=
  section ← liftEither (getProperty pubspec sectionName);
  match section with
  | Some dependencies =>
      if truthy dependencies
      then analyzeDependencySection document dependencies sectionName isDev
      else mret []
  | None => mret []
  end.

(** The analyzer is passed in and returned with the analyses. *)
Definition analyzePubspecFile (st : t) (document : TextDocument)
    : M (list PackageAnalysis * t) :=
  if negb (isPubspecFile document) then mret ([], st)
  else
    let cacheKey := cacheKeyOf document in
    match analysisCache st !! cacheKey with
    | Some cached => mret (cached, st)
    | None =>
        tryCatch
          (pubspec ← WorkspaceService.parse env (getText document);
           if negb (truthy pubspec) then mret ([], st)
           else
             regular ← analyzeIfPresent document pubspec (js "dependencies") false;
             dev ← analyzeIfPresent document pubspec (js "dev_dependencies") true;
             let analyses := regular ++ dev in
             let st' :=
               {| analysisCache := <[cacheKey := analyses]> (analysisCache st);
                  diagnosticCollection := diagnosticCollection st |} in
             mret (analyses, updateDiagnostics document analyses st'))
          (fun error =>
             _ ← consoleLog LogError (js "Error analyzing pubspec:") (Some error);
             mret ([], st))
    end.

End Service.
End PubspecAnalysis.

(** What stands behind an analysis of a document: a package other than
    the SDK's, on a line that [findPackageRange] finds in the section of
    the analysis, with a latest version that is not empty, a current
    version taken from a constraint, and the flag that the comparison of
    the two gives. *)
Definition grounded (document : PubspecAnalysis.TextDocument)
    (a : PubspecAnalysis.PackageAnalysis) : Prop :=
  PubspecAnalysis.name a ≠ js "flutter"
  ∧ PubspecAnalysis.name a ≠ js "flutter_test"
  ∧ PubspecAnalyzer.findPackageRange (PubspecAnalysis.getText document)
      (PubspecAnalysis.name a) (sectionOf (PubspecAnalysis.isDev a))
    = Some (PubspecAnalysis.range a)
  ∧ PubspecAnalysis.latestVersion a ≠ []
  ∧ (∃ constraint,
       PubspecAnalysis.currentVersion a
       = PubspecAnalyzer.extractVersionFromConstraint constraint)
  ∧ PubspecAnalysis.isOutdated a
    = Version.isVersionOutdated (Some (PubspecAnalysis.currentVersion a))
        (Some (PubspecAnalysis.latestVersion a)).

(** The analyses that the analyzer remembers for a document are
    analyses of its text. *)
Definition coherent (st : PubspecAnalysis.t)
    (document : PubspecAnalysis.TextDocument) : Prop :=
  ∀ analyses,
    PubspecAnalysis.analysisCache st !! PubspecAnalysis.cacheKeyOf document
    = Some analyses →
    Forall (grounded document) analyses.

(** The registry answers every request for the details of a package in
    the same way. *)
Definition stableRegistry (env : Env)
    (registry : jsstring → Error + PubPackageDetails) : Prop :=
  ∀ (n : nat) (packageName : jsstring),
    axios_package env n
      (GetPackage (PubApiService.baseUrl ++ js "/packages/" ++ packageName)
         10000)
    = registry packageName.

(** What the cache holds for a package is what the registry answers
    for it. *)
Definition cacheOfRegistry (registry : jsstring → Error + PubPackageDetails)
    (w : World) : Prop :=
  ∀ packageName entry d,
    CacheService.cache (cacheService w) !! (js "package:" ++ packageName)
    = Some entry →
    CacheService.data entry = Some d →
    ∃ details, registry packageName = inr details ∧ d = Details details.

(** An analysis that reports the manifest and the registry: it is
    grounded, its current version is taken from the constraint that the
    manifest declares for the package in the section of the analysis,
    and its latest version is the one the registry has for the package;
    its description is the registry's, when it has one. *)
Definition reported (env : Env)
    (registry : jsstring → Error + PubPackageDetails)
    (document : PubspecAnalysis.TextDocument)
    (a : PubspecAnalysis.PackageAnalysis) : Prop :=
  grounded document a
  ∧ ∃ pubspec section constraint details,
      parseYaml env (PubspecAnalysis.getText document) = Some pubspec
      ∧ getProperty pubspec (sectionOf (PubspecAnalysis.isDev a))
        = inr (Some section)
      ∧ truthy section = true
      ∧ (PubspecAnalysis.name a, YStr constraint)
        ∈ PubspecAnalysis.entriesOfValue section
      ∧ PubspecAnalysis.currentVersion a
        = PubspecAnalyzer.extractVersionFromConstraint constraint
      ∧ registry (PubspecAnalysis.name a) = inr details
      ∧ PubspecAnalysis.latestVersion a = latest_version details
      ∧ (PubspecAnalysis.description a = None
         ∨ PubspecAnalysis.description a
           = pubspec_description (latest_pubspec details)).

(** The analyses that the analyzer remembers for a document report the
    manifest and the registry. *)
Definition remembered (env : Env)
    (registry : jsstring → Error + PubPackageDetails)
    (st : PubspecAnalysis.t) (document : PubspecAnalysis.TextDocument)
    : Prop :=
  ∀ analyses,
    PubspecAnalysis.analysisCache st !! PubspecAnalysis.cacheKeyOf document
    = Some analyses →
    Forall (reported env registry document) analyses.

(** An analyzer that has seen nothing, and the sample manifest with one
    dependency, open in the editor. *)
Definition freshAnalyzer : PubspecAnalysis.t :=
  {| PubspecAnalysis.analysisCache := ∅;
     PubspecAnalysis.diagnosticCollection := ∅ |}.

Definition openManifest : PubspecAnalysis.TextDocument :=
  {| PubspecAnalysis.fileName := js "/app/pubspec.yaml";
     PubspecAnalysis.uri := js "file:///app/pubspec.yaml";
     PubspecAnalysis.fsPath := js "/app/pubspec.yaml";
     PubspecAnalysis.documentVersion := 1;
     PubspecAnalysis.getText := Samples.textAfter |}.

(** ** The rest of the conflict advisor (dependency-resolver.ts) *)

Module ConflictResolution.

Record QuickPickItem : Type := {
  label : jsstring;
  item_description : jsstring;
  detail : jsstring;
  conflict : option DependencyConflict     (* [None] is [null] *)
}.

(** The two pictographs of the labels, as surrogate pairs. *)
Definition WRENCH : jsstring := [55357; 56615]%N.
Definition ROCKET : jsstring := [55357; 56960]%N.

(** [parts.join(separator)] *)
Fixpoint join (separator : jsstring) (parts : list jsstring) : jsstring :=
  match parts with
  | [] => []
  | [p] => p
  | p :: rest => p ++ separator ++ join separator rest
  end.

Definition itemOf (c : DependencyConflict) : QuickPickItem :=
  {| label := WRENCH ++ js " Fix " ++ packageName c;
     item_description :=
       join (js " vs ") (conflictingVersions c)
       ++ PubspecAnalysis.ARROW ++ suggestedResolution c;
     detail := reason c;
     conflict := Some c |}.

Definition fixAll (conflicts : list DependencyConflict) : QuickPickItem :=
  {| label := ROCKET ++ js " Fix All Conflicts";
     item_description :=
       js "Resolve "
       ++ PubApiService.numberToString (N.of_nat (length conflicts))
       ++ js " dependency conflicts";
     detail := js "Apply suggested resolutions for all conflicts";
     conflict := None |}.

Section Service.
Variable env : Env.

(** The choice of the user in [vscode.window.showQuickPick]: one of the
    items, or [None] when the pick is dismissed. *)
Variable showQuickPick : list QuickPickItem -> option QuickPickItem.

Definition isDevDependency (projectPath packageName : jsstring) : M bool :=
  projects ← reads projects;
  match Workspace.findProject projectPath projects with
  | None => mret false
  | Some project =>
      mret (match List.find (fun d => bool_decide (dep_name d = packageName))
                    (dependencies project) with
            | Some dependency => isDev dependency
            | None => false
            end)
  end.

Definition applyResolution (projectPath : jsstring) (c : DependencyConflict)
    : M unit :=
  tryCatch
    (isDev ← isDevDependency projectPath (packageName c);
     _ ← WorkspaceService.updateDependency env projectPath (packageName c)
           (suggestedResolution c) (Some isDev);
     consoleLog LogInfo
       (js "Applied resolution: " ++ packageName c ++ PubspecAnalysis.ARROW
        ++ suggestedResolution c) None)
    (fun error =>
       _ ← consoleLog LogError
             (js "Failed to apply resolution for " ++ packageName c ++ js ":")
             (Some error);
       show (ErrorMessageOf
               (js "Failed to resolve " ++ packageName c ++ js ": ") error)).

Fixpoint applyAll (projectPath : jsstring) (conflicts : list DependencyConflict)
    : M unit :=
  match conflicts with
  | [] => mret tt
  | c :: rest =>
      _ ← applyResolution projectPath c;
      applyAll projectPath rest
  end.

Definition showConflictResolutionOptions (projectPath : jsstring)
    (conflicts : list DependencyConflict) : M unit :=
  let items := fixAll conflicts :: List.map itemOf conflicts in
  match showQuickPick items with
  | None => mret tt
  | Some selected =>
      match conflict selected with
      | None =>
          _ ← applyAll projectPath conflicts;
          show (InformationMessage
                  (js "Resolved "
                   ++ PubApiService.numberToString (N.of_nat (length conflicts))
                   ++ js " dependency conflicts!"))
      | Some c =>
          _ ← applyResolution projectPath c;
          show (InformationMessage
                  (js "Resolved conflict for " ++ packageName c ++ js "!"))
      end
  end.

Definition resolveDependencyConflicts (projectPath : jsstring) : M unit :=
  tryCatch
    (conflicts ← DependencyResolver.detectConflicts projectPath;
     if (length conflicts =? 0)%nat then
       show (InformationMessage (js "No dependency conflicts detected!"))
     else showConflictResolutionOptions projectPath conflicts)
    (fun error =>
       _ ← consoleLog LogError (js "Error resolving conflicts:") (Some error);
       show (ErrorMessageOf (js "Failed to resolve conflicts: ") error)).

End Service.
End ConflictResolution.

(** * Properties *)

Import Version PubspecAnalyzer.

(** ** Version comparison *)

Section VersionFacts.

Lemma orZero_Some (a : jsnum) : orZero (Some a) = a.
Proof. destruct a as [[|p]|]; reflexivity. Qed.

Lemma padZero_length (n : nat) (l : list jsnum) :
  length l ≤ n → length (padZero n l) = n.
Proof.
  intros Hle. unfold padZero. rewrite length_app, length_replicate. lia.
Qed.

(** Reading the padded list is reading the array with [|| 0]. *)
Lemma padZero_lookup (n i : nat) (l : list jsnum) :
  length l ≤ n → i < n → padZero n l !! i = Some (orZero (l !! i)).
Proof.
  intros Hle Hi. unfold padZero.
  destruct (decide (i < length l)) as [Hin | Hout].
  - rewrite lookup_app_l by done.
    destruct (lookup_lt_is_Some_2 l i Hin) as [a Ha].
    rewrite Ha. by rewrite orZero_Some.
  - rewrite lookup_app_r by lia.
    rewrite (lookup_ge_None_2 l i) by lia.
    simpl. apply lookup_replicate_2. lia.
Qed.

Lemma compareLoop_firstDifference (cp lp : list jsnum) (n : nat) :
  length cp ≤ n → length lp ≤ n →
  ∀ remaining i, i + remaining = n →
    compareLoop cp lp remaining i
    = firstDifference (drop i (zip (padZero n cp) (padZero n lp))).
Proof.
  intros Hc Hl remaining.
  induction remaining as [| k IH]; intros i Hi.
  - simpl. rewrite drop_ge; [done |].
    rewrite length_zip_with, !padZero_length by done. lia.
  - assert (Hlt : i < n) by lia.
    assert (Hz : zip (padZero n cp) (padZero n lp) !! i
                 = Some (orZero (cp !! i), orZero (lp !! i))).
    { rewrite lookup_zip_with, !padZero_lookup by done. done. }
    rewrite (drop_S _ _ _ Hz). simpl.
    destruct (gt (orZero (lp !! i)) (orZero (cp !! i))); [done |].
    destruct (gt (orZero (cp !! i)) (orZero (lp !! i))); [done |].
    apply IH. lia.
Qed.

Lemma nonEmpty_false (s : jsstring) : nonEmpty s = false → s = [].
Proof. by destruct s. Qed.

Lemma isVersionOutdated_refines (declared latest : option jsstring) :
  isVersionOutdated declared latest = isOutdated_padded declared latest.
Proof.
  destruct declared as [cur |], latest as [lat |]; try reflexivity.
  unfold isVersionOutdated, isOutdated_padded.
  destruct (nonEmpty cur) eqn:Hcur; simpl.
  2:{ apply nonEmpty_false in Hcur. by subst. }
  destruct (nonEmpty lat) eqn:Hlat; simpl.
  2:{ apply nonEmpty_false in Hlat. subst. simpl. by destruct (clean cur). }
  destruct (clean cur) as [| c cs] eqn:Hcc; [done |].
  destruct (clean lat) as [| l ls] eqn:Hcl; [done |].
  simpl negb. simpl orb. cbv iota.
  unfold components. rewrite Hcc, Hcl.
  rewrite (compareLoop_firstDifference _ _ _ (Nat.le_max_l _ _)
             (Nat.le_max_r _ _) _ 0 eq_refl).
  by rewrite drop_0.
Qed.

End VersionFacts.

Section VersionReading.

(** Below 2^53 a component is compared as the natural number it
    denotes. *)
Lemma Number_exact (s : jsstring) :
  (digitsValue s < 2 ^ 53)%N → Number s = Fin (digitsValue s).
Proof.
  intros H. unfold Number, roundDouble.
  by rewrite (proj2 (N.ltb_lt _ _) H).
Qed.

Lemma gt_Fin (a b : N) : gt (Fin a) (Fin b) = true ↔ (b < a)%N.
Proof. simpl. apply N.ltb_lt. Qed.

Lemma gt_Number_exact (a b : jsstring) :
  (digitsValue a < 2 ^ 53)%N → (digitsValue b < 2 ^ 53)%N →
  gt (Number a) (Number b) = (digitsValue b <? digitsValue a)%N.
Proof. intros Ha Hb. by rewrite !Number_exact. Qed.

(** [firstDifference] answers [true] exactly when there is a position
    where latest exceeds declared and no earlier position where the
    two differ. *)
Lemma firstDifference_true_iff (pairs : list (jsnum * jsnum)) :
  firstDifference pairs = true
  ↔ ∃ (i : nat) (declared latest : jsnum),
      pairs !! i = Some (declared, latest)
      ∧ gt latest declared = true
      ∧ ∀ j d l, j < i → pairs !! j = Some (d, l) →
          gt l d = false ∧ gt d l = false.
Proof.
  induction pairs as [| [d l] rest IH]; simpl.
  - split; [done |]. by intros (i & ? & ? & H & _).
  - destruct (gt l d) eqn:Hld.
    + split; [| done]. intros _. exists 0, d, l. split_and!; [done | done |].
      intros j ? ? Hj. lia.
    + destruct (gt d l) eqn:Hdl.
      * split; [done |]. intros (i & d' & l' & Hi & Hgt & Hbefore).
        destruct i as [| i]; simpl in Hi.
        -- injection Hi as <- <-. congruence.
        -- destruct (Hbefore 0 d l) as [_ H]; [lia | done | congruence].
      * rewrite IH. split.
        -- intros (i & d' & l' & Hi & Hgt & Hbefore).
           exists (S i), d', l'. split_and!; [done | done |].
           intros [| j] d'' l'' Hj Hlookup; simpl in Hlookup.
           ++ by injection Hlookup as <- <-.
           ++ apply (Hbefore j); [lia | done].
        -- intros (i & d' & l' & Hi & Hgt & Hbefore).
           destruct i as [| i]; simpl in Hi.
           ++ injection Hi as <- <-. congruence.
           ++ exists i, d', l'. split_and!; [done | done |].
              intros j d'' l'' Hj Hlookup. apply (Hbefore (S j)); [lia | done].
Qed.

(** What [split] gives of a cleaned string are strings of digits, the
    strings that [Number] is modelled for. *)
Lemma split_clean_digits (s : jsstring) :
  Forall (λ part, forallb isDigit part = true) (split DOT (clean s)).
Proof.
  unfold clean. induction s as [| c s IH]; simpl.
  - by repeat constructor.
  - destruct (isDigit c) eqn:Hd; simpl.
    + destruct (N.eqb_spec c DOT) as [-> | _]; [done |].
      destruct (split DOT _) as [| p ps]; [by repeat constructor; simpl; rewrite Hd |].
      apply Forall_cons in IH as [Hp Hps].
      constructor; [| done]. simpl. by rewrite Hd.
    + destruct (N.eqb_spec c DOT) as [-> | _]; simpl; [| done].
      by constructor.
Qed.

(** A version is never outdated with respect to itself. *)
Lemma isVersionOutdated_same (v : option jsstring) :
  isVersionOutdated v v = false.
Proof.
  rewrite isVersionOutdated_refines. destruct v as [s |]; [| done]. simpl.
  destruct (clean s) as [| c cs]; [done |].
  generalize (padZero (length (components s) `max` length (components s))
                (components s)).
  intros l. induction l as [| a l IH]; [done |]. simpl.
  assert (Hirr : gt a a = false) by (destruct a; simpl; [apply N.ltb_irrefl | done]).
  by rewrite Hirr.
Qed.

End VersionReading.

Section VersionReference.

Lemma kept_spec_eq (c : N) : kept_spec c = isDigit c || (c =? DOT)%N.
Proof.
  unfold kept_spec, isDigit, DOT.
  change (js "0123456789.") with [48; 49; 50; 51; 52; 53; 54; 55; 56; 57; 46]%N.
  cbn [existsb].
  repeat match goal with
         | |- context [(c =? ?k)%N] =>
             destruct (N.eqb_spec c k); [subst; reflexivity |]
         end.
  simpl. symmetry.
  destruct (N.leb_spec 48 c); [| done].
  destruct (N.leb_spec c 57); [| done]. lia.
Qed.

Lemma strip_spec_clean (s : jsstring) : strip_spec s = clean s.
Proof.
  unfold clean. induction s as [| c s IH]; simpl; [done |].
  rewrite kept_spec_eq, IH. by destruct (isDigit c || (c =? DOT)%N).
Qed.

Lemma split_not_nil (sep : N) (s : jsstring) : split sep s ≠ [].
Proof.
  destruct s as [| c s]; simpl; [done |].
  destruct (c =? sep)%N; [done |]. by destruct (split sep s).
Qed.

Lemma pieces_spec_split (sep : N) (s : jsstring) :
  ∀ current,
    pieces_spec sep current s
    = match split sep s with
      | p :: ps => (current ++ p) :: ps
      | [] => [current]
      end.
Proof.
  induction s as [| c s IH]; intros current; simpl.
  - by rewrite app_nil_r.
  - destruct (c =? sep)%N.
    + rewrite app_nil_r, IH. pose proof (split_not_nil sep s).
      by destruct (split sep s).
    + rewrite IH. destruct (split sep s); [done |].
      by rewrite <- app_assoc.
Qed.

Lemma digit_spec_eq (c : N) : isDigit c = true → digit_spec c = (c - 48)%N.
Proof.
  unfold isDigit. intros H. apply andb_true_iff in H as [Hlo Hhi].
  apply N.leb_le in Hlo, Hhi.
  assert (Hc : (c = 48 ∨ c = 49 ∨ c = 50 ∨ c = 51 ∨ c = 52 ∨ c = 53
                ∨ c = 54 ∨ c = 55 ∨ c = 56 ∨ c = 57)%N) by lia.
  repeat (destruct Hc as [-> | Hc]; [reflexivity |]). by subst.
Qed.

Lemma numberOf_spec_fold (s : jsstring) :
  forallb isDigit s = true →
  ∀ a : N,
    fold_left (λ acc c, 10 * acc + (c - 48))%N s a
    = (a * 10 ^ N.of_nat (length s) + numberOf_spec s)%N.
Proof.
  induction s as [| c s IH]; intros Hd a.
  - simpl. lia.
  - cbn [forallb] in Hd. apply andb_true_iff in Hd as [Hc Hs].
    cbn [fold_left numberOf_spec length].
    rewrite (IH Hs), (digit_spec_eq c Hc), Nat2N.inj_succ, N.pow_succ_r'.
    ring.
Qed.

Lemma numberOf_spec_digitsValue (s : jsstring) :
  forallb isDigit s = true → numberOf_spec s = digitsValue s.
Proof.
  intros Hd. unfold digitsValue. rewrite (numberOf_spec_fold s Hd). lia.
Qed.

(** The numbers of the loop are those of the specification when each
    is below 2^53. *)
Lemma Number_numbers_spec (v : jsstring) :
  Forall (λ n, (n < 2 ^ 53)%N) (numbers_spec v) →
  List.map Number (split DOT (clean v)) = Fin <$> numbers_spec v.
Proof.
  unfold numbers_spec. rewrite strip_spec_clean.
  change 46%N with DOT.
  rewrite pieces_spec_split.
  pose proof (split_clean_digits v) as Hdigits.
  destruct (split DOT (clean v)) as [| p ps] eqn:Hsplit.
  { by destruct (split_not_nil DOT (clean v)). }
  simpl app. clear Hsplit. revert Hdigits.
  generalize (p :: ps). intros parts Hdigits Hsmall.
  induction parts as [| part parts IH]; [done |].
  apply Forall_cons in Hdigits as [Hpart Hparts].
  rewrite fmap_cons in Hsmall. apply Forall_cons in Hsmall as [Hlt Hrest].
  simpl. rewrite IH by done. f_equal.
  rewrite (numberOf_spec_digitsValue part Hpart) in *.
  by apply Number_exact.
Qed.

Lemma compareLoop_decide_spec (declared latest : list N) (remaining : nat) :
  ∀ i, compareLoop (Fin <$> declared) (Fin <$> latest) remaining i
       = decide_spec declared latest (seq i remaining).
Proof.
  induction remaining as [| k IH]; intros i; [done |].
  assert (Hread : ∀ numbers : list N,
            orZero ((Fin <$> numbers) !! i)
            = Fin (componentAt_spec numbers i)).
  { intros numbers. unfold componentAt_spec.
    rewrite list_lookup_fmap, nth_lookup.
    destruct (numbers !! i) as [n |]; simpl; [| done].
    by destruct n. }
  cbn [compareLoop seq decide_spec]. rewrite !Hread. simpl gt.
  by rewrite IH.
Qed.

Lemma isVersionOutdated_exact (declared latest : option jsstring) :
  readExactly declared → readExactly latest →
  isVersionOutdated declared latest = isOutdated_spec declared latest.
Proof.
  destruct declared as [cur |], latest as [lat |]; try reflexivity.
  simpl. intros Hcur Hlat.
  unfold isVersionOutdated, isOutdated_spec.
  rewrite !strip_spec_clean.
  destruct cur as [| c cur']; [done |].
  destruct lat as [| l lat'].
  { simpl. by rewrite orb_true_r. }
  cbn [nonEmpty negb orb]. cbv zeta.
  destruct (clean (c :: cur')) as [| x xs] eqn:Hcc; [done |].
  destruct (clean (l :: lat')) as [| y ys] eqn:Hcl.
  { by rewrite orb_true_r. }
  rewrite (bool_decide_eq_false_2 (x :: xs = [])) by done.
  rewrite (bool_decide_eq_false_2 (y :: ys = [])) by done.
  cbn [nonEmpty negb orb].
  rewrite <- Hcc, <- Hcl.
  rewrite (Number_numbers_spec _ Hcur), (Number_numbers_spec _ Hlat).
  rewrite !length_fmap.
  apply compareLoop_decide_spec.
Qed.

End VersionReference.

(** C1, as the specification states it, fails on components of 2^53 and
    more: the code compares them as JavaScript numbers, which are
    doubles, so that 9007199254740993 is read as 9007199254740992 and is
    not found greater than it. *)
Lemma isOutdated_spec_counterexample :
  let declared := Some (js "9007199254740992") in
  let latest := Some (js "9007199254740993") in
  isVersionOutdated declared latest = false
  ∧ isOutdated_spec declared latest = true
  ∧ ¬ (∀ declared latest : option jsstring,
         isVersionOutdated declared latest = isOutdated_spec declared latest).
Proof.
  split; [by vm_compute |]. split; [by vm_compute |].
  intros H.
  specialize (H (Some (js "9007199254740992")) (Some (js "9007199254740993"))).
  vm_compute in H. discriminate H.
Qed.

(** C1, amended.  On two strings whose components are all below 2^53,
    [isVersionOutdated] computes the comparison that the specification
    describes: both strings stripped of everything but digits and dots,
    split on the dots, the components compared as numbers from the left
    with a missing one read as 0 (and an empty one as well), the first
    difference deciding, and [false] when there is none or when an
    argument is empty, absent or strips to nothing.  The examples of the
    specification come out as stated, and so do versions that have
    something to strip. *)
Theorem isVersionOutdated_is_isOutdated_spec :
  (∀ declared latest : option jsstring,
      readExactly declared → readExactly latest →
      isVersionOutdated declared latest = isOutdated_spec declared latest)
  ∧ isVersionOutdated (Some (js "1.2.3")) (Some (js "1.3.0")) = true
  ∧ isVersionOutdated (Some (js "2.0.0")) (Some (js "1.9.9")) = false
  ∧ isVersionOutdated (Some (js "1.0")) (Some (js "1.0.0")) = false
  ∧ isVersionOutdated (Some (js "")) (Some (js "1.0.0")) = false
  ∧ isVersionOutdated (Some (js "1.0.0")) (Some (js "")) = false
  ∧ isVersionOutdated None (Some (js "1.0.0")) = false
  ∧ isVersionOutdated (Some (js "1.0.0")) None = false
  ∧ isVersionOutdated (Some (js "^1.0.0")) (Some (js "1.2.0")) = true
  ∧ isVersionOutdated (Some (js "~2.1.0")) (Some (js "v2.0.9+build")) = false
  ∧ isVersionOutdated (Some (js ">=1.9.0-beta")) (Some (js "1.10.0")) = true
  ∧ isVersionOutdated (Some (js "any")) (Some (js "1.0.0")) = false.
Proof. split; [exact isVersionOutdated_exact | by vm_compute]. Qed.

Lemma isVersionOutdated_is_isOutdated_spec_witness :
  isVersionOutdated (Some (js "^1.9.12")) (Some (js "1.10.0"))
  = isOutdated_spec (Some (js "^1.9.12")) (Some (js "1.10.0"))
  ∧ isOutdated_spec (Some (js "^1.9.12")) (Some (js "1.10.0")) = true.
Proof.
  split; [| by vm_compute].
  apply (proj1 isVersionOutdated_is_isOutdated_spec
           (Some (js "^1.9.12")) (Some (js "1.10.0")));
    unfold readExactly.
  - change (numbers_spec (js "^1.9.12")) with [1; 9; 12]%N.
    repeat constructor.
  - change (numbers_spec (js "1.10.0")) with [1; 10; 0]%N.
    repeat constructor.
Defined.


(** ** Locating a package in the manifest *)

Section FindPackageRange.
Variables packageName sectionName : jsstring.

Local Abbreviation isHeader := (PubspecAnalyzer.isHeader sectionName).
Local Abbreviation names := (PubspecAnalyzer.names packageName).

Lemma searchNonSpace_bounds (l : jsstring) :
  (-1 <= searchNonSpace l <= Z.of_nat (length l))%Z.
Proof.
  induction l as [| c l IH]; simpl; [lia |].
  destruct (isSpace c); [| lia].
  destruct (Z.ltb_spec (searchNonSpace l) 0); lia.
Qed.

Lemma newRange_line (i : nat) (l : jsstring) :
  newRange {| line := i; character := searchNonSpace l |}
           {| line := i; character := Z.of_nat (length l) |}
  = rangeOfLine i l.
Proof.
  unfold newRange, isBefore, rangeOfLine; simpl.
  pose proof (searchNonSpace_bounds l) as [_ Hle].
  rewrite Nat.ltb_irrefl, Nat.eqb_refl; simpl.
  destruct (Z.ltb_spec (Z.of_nat (length l)) (searchNonSpace l)); [lia | done].
Qed.

(** What is returned is the range of a line that begins with the name
    and follows a header. *)
Lemma scanLines_sound (lines : list jsstring) (i : nat) (inSection : bool)
    (indent : Z) (r : Range) :
  scanLines packageName sectionName lines i inSection indent = Some r →
  ∃ (j : nat) (l : jsstring),
    lines !! j = Some l ∧ names l = true ∧ r = rangeOfLine (i + j) l
    ∧ (inSection = true ∨ ∃ k h, k < j ∧ lines !! k = Some h ∧ isHeader h).
Proof.
  revert i inSection indent.
  induction lines as [| l lines IH]; intros i inSection indent; simpl; [done |].
  case_bool_decide as Hh.
  - intros H. apply IH in H as (j & l' & Hj & Hn & -> & _).
    exists (S j), l'. split_and!; [done | done | f_equal; lia |].
    right. exists 0, l. split_and!; [lia | done | done].
  - destruct inSection.
    + destruct (_ && _); [done |].
      destruct (startsWith _ _) eqn:Hn.
      * intros [= <-]. exists 0, l. rewrite newRange_line, Nat.add_0_r.
        split_and!; [done | done | done | by left].
      * intros H. apply IH in H as (j & l' & Hj & Hn' & -> & _).
        exists (S j), l'. split_and!; [done | done | f_equal; lia | by left].
    + intros H. apply IH in H as (j & l' & Hj & Hn' & -> & Hsec).
      exists (S j), l'. split_and!; [done | done | f_equal; lia |].
      right. destruct Hsec as [? | (k & h & Hk & Hlk & Hhd)]; [done |].
      exists (S k), h. split_and!; [lia | done | done].
Qed.

End FindPackageRange.

(** C5, as the specification states it, fails: the line that is returned
    need not be indented more than the header.  Under [dependencies:] a
    line [foo: ^1.0.0] in column 0 is returned by the code and rejected
    by the algorithm of the specification. *)
Lemma findPackageRange_spec_counterexample :
  let document := js "dependencies:" ++ [NEWLINE] ++ js "foo: ^1.0.0" in
  findPackageRange document (js "foo") (js "dependencies")
  = Some {| start := {| line := 1; character := 0 |};
            end_ := {| line := 1; character := 11 |} |}
  ∧ findPackageRange_spec document (js "foo") (js "dependencies") = None
  ∧ ¬ (∀ document packageName sectionName,
         findPackageRange document packageName sectionName
         = findPackageRange_spec document packageName sectionName).
Proof.
  split; [by vm_compute |]. split; [by vm_compute |].
  intros H.
  specialize (H (js "dependencies:" ++ [NEWLINE] ++ js "foo: ^1.0.0")
                (js "foo") (js "dependencies")).
  vm_compute in H. discriminate H.
Qed.

Section AmendedRange.

Lemma blank_amended_eq (c : N) : blank_amended c = isSpace c.
Proof.
  unfold blank_amended, whiteSpace_amended, isSpace. cbn [existsb].
  repeat match goal with
         | |- context [(c =? ?k)%N] =>
             destruct (N.eqb_spec c k); [subst; reflexivity |]
         end.
  simpl. rewrite !orb_false_r.
  destruct (N.leb_spec 9 c), (N.leb_spec c 13),
    (N.leb_spec 8192 c), (N.leb_spec c 8202); simpl; try done; lia.
Qed.

Lemma leading_amended_le (l : jsstring) : leading_amended l ≤ length l.
Proof.
  induction l as [| c l IH]; simpl; [done |].
  destruct (blank_amended c); lia.
Qed.

Lemma indentation_amended_eq (l : jsstring) :
  indentation_amended l = searchNonSpace l.
Proof.
  unfold indentation_amended.
  induction l as [| c l IH]; [done |].
  cbn [leading_amended searchNonSpace length].
  rewrite <- blank_amended_eq. destruct (blank_amended c); [| done].
  rewrite <- IH.
  destruct (Nat.ltb_spec (leading_amended l) (length l)) as [Hlt | Hge].
  - rewrite (proj2 (Nat.ltb_lt (S (leading_amended l)) (S (length l))))
      by lia.
    destruct (Z.ltb_spec (Z.of_nat (leading_amended l)) 0); lia.
  - rewrite (proj2 (Nat.ltb_ge (S (leading_amended l)) (S (length l))))
      by lia.
    done.
Qed.

Lemma trimStart_drop (l : jsstring) :
  trimStart l = drop (leading_amended l) l.
Proof.
  induction l as [| c l IH]; [done |]. simpl.
  rewrite <- blank_amended_eq. by destruct (blank_amended c).
Qed.

(** White space at the head of a list that goes on after a character
    that is none. *)
Lemma leading_amended_app (a b : jsstring) :
  leading_amended a < length a →
  leading_amended (a ++ b) = leading_amended a.
Proof.
  induction a as [| c a IH]; simpl; [lia |].
  destruct (blank_amended c); [| done]. intros H. f_equal. apply IH. lia.
Qed.

Lemma leading_amended_snoc (a : jsstring) (c : N) :
  blank_amended c = false → leading_amended (a ++ [c]) < length (a ++ [c]).
Proof.
  intros Hc. induction a as [| x a IH]; simpl.
  - rewrite Hc. lia.
  - destruct (blank_amended x); lia.
Qed.

Lemma trimmed_amended_eq (l : jsstring) : trimmed_amended l = trim l.
Proof.
  unfold trimmed_amended, trim. rewrite !trimStart_drop.
  set (x := drop (leading_amended l) l).
  rewrite skipn_rev, rev_involutive.
  assert (Hlen : length x = length l - leading_amended l).
  { subst x. apply length_drop. }
  destruct x as [| c x'] eqn:Hx; [by rewrite !take_nil |].
  rewrite <- Hx in *.
  assert (Hc : blank_amended c = false).
  { assert (Hhead : trimStart l = c :: x').
    { by rewrite trimStart_drop. }
    clear -Hhead. induction l as [| d l IH]; [done |].
    simpl in Hhead. rewrite <- blank_amended_eq in Hhead.
    destruct (blank_amended d) eqn:Hd; [by apply IH |].
    by injection Hhead as -> _. }
  assert (Hsplit : rev l = rev x ++ rev (take (leading_amended l) l)).
  { subst x. by rewrite <- rev_app_distr, take_drop. }
  assert (Hrev : leading_amended (rev x) < length (rev x)).
  { rewrite Hx. simpl rev. by apply leading_amended_snoc. }
  rewrite Hsplit, (leading_amended_app _ _ Hrev).
  by rewrite Hlen.
Qed.

Lemma startsWith_take (prefix : jsstring) :
  ∀ s, startsWith s prefix = bool_decide (take (length prefix) s = prefix).
Proof.
  induction prefix as [| p prefix IH]; intros s; simpl.
  - by destruct s.
  - destruct s as [| c s]; [done |]. simpl. rewrite IH.
    destruct (N.eqb_spec c p) as [-> | Hne]; simpl.
    + apply bool_decide_ext. split; [by intros -> | by intros [= ->]].
    + symmetry. apply bool_decide_eq_false. by intros [= ? _].
Qed.

Lemma endsWith_last (s : jsstring) :
  endsWith s [COLON] = bool_decide (last s = Some 58%N).
Proof.
  unfold endsWith.
  destruct s as [| c s] using rev_ind; [done |].
  rewrite rev_app_distr, last_snoc. simpl.
  assert (Hnil : ∀ t : jsstring, startsWith t [] = true) by (by intros []).
  rewrite Hnil, andb_true_r.
  destruct (N.eqb_spec c COLON) as [-> | Hne].
  - by rewrite bool_decide_eq_true_2.
  - symmetry. apply bool_decide_eq_false. by intros [= ?].
Qed.

Lemma header_amended_eq (sectionName l : jsstring) :
  header_amended sectionName l
  = bool_decide (trim l = sectionName ++ [COLON]).
Proof. unfold header_amended. by rewrite trimmed_amended_eq. Qed.

Lemma begins_amended_eq (packageName l : jsstring) :
  begins_amended packageName l
  = startsWith (trim l) (packageName ++ [COLON]).
Proof.
  unfold begins_amended.
  rewrite startsWith_take, length_app, trimmed_amended_eq. done.
Qed.

Lemma closes_amended_eq (indent : Z) (l : jsstring) :
  closes_amended indent l
  = (searchNonSpace l <=? indent)%Z && endsWith (trim l) [COLON].
Proof.
  unfold closes_amended.
  by rewrite indentation_amended_eq, trimmed_amended_eq, endsWith_last.
Qed.

Lemma nearestHeader_amended_snoc (sectionName : jsstring)
    (before : list jsstring) (l : jsstring) :
  nearestHeader_amended sectionName (before ++ [l])
  = if header_amended sectionName l then Some (indentation_amended l)
    else nearestHeader_amended sectionName before.
Proof.
  unfold nearestHeader_amended. rewrite List.filter_app. simpl.
  destruct (header_amended sectionName l).
  - by rewrite last_snoc.
  - by rewrite app_nil_r.
Qed.

(** The loop, from any line on, finds the first deciding line. *)
Lemma scanLines_amended (packageName sectionName : jsstring)
    (rest : list jsstring) :
  ∀ (before : list jsstring) (inSection : bool) (indent : Z),
    nearestHeader_amended sectionName before
    = (if inSection then Some indent else None) →
    scanLines packageName sectionName rest (length before) inSection indent
    = match List.find (decides_amended packageName sectionName (before ++ rest))
              (seq (length before) (length rest)) with
      | Some j => outcome_amended sectionName (before ++ rest) j
      | None => None
      end.
Proof.
  induction rest as [| l rest IH]; intros before inSection indent Hstate;
    [done |].
  assert (Hnext : ∀ (inSection' : bool) (indent' : Z),
            nearestHeader_amended sectionName (before ++ [l])
            = (if inSection' then Some indent' else None) →
            scanLines packageName sectionName rest (S (length before))
              inSection' indent'
            = match List.find
                      (decides_amended packageName sectionName
                         (before ++ l :: rest))
                      (seq (S (length before)) (length rest)) with
              | Some j => outcome_amended sectionName (before ++ l :: rest) j
              | None => None
              end).
  { intros inSection' indent' H.
    rewrite (cons_middle l before rest), app_assoc.
    replace (S (length before)) with (length (before ++ [l]))
      by (rewrite length_app; simpl; lia).
    by apply IH. }
  pose proof (nearestHeader_amended_snoc sectionName before l) as Hsnoc.
  assert (Hat : (before ++ l :: rest) !! length before = Some l)
    by apply list_lookup_middle, eq_refl.
  assert (Htake : take (length before) (before ++ l :: rest) = before)
    by apply take_app_length.
  cbn [scanLines length seq List.find].
  unfold decides_amended at 1. rewrite Hat, Htake, Hstate.
  rewrite <- header_amended_eq.
  destruct (header_amended sectionName l) eqn:Hheader.
  - assert (Hskip : (if inSection
                     then negb true
                          && (closes_amended indent l
                              || begins_amended packageName l)
                     else false) = false) by (by destruct inSection).
    destruct inSection; simpl in Hskip |- *;
      apply Hnext; by rewrite Hsnoc, indentation_amended_eq.
  - destruct inSection; [| by apply Hnext; rewrite Hsnoc].
    cbn [negb andb].
    rewrite <- closes_amended_eq, <- begins_amended_eq.
    destruct (closes_amended indent l) eqn:Hcloses.
    + simpl. unfold outcome_amended. by rewrite Hat, Htake, Hstate, Hcloses.
    + destruct (begins_amended packageName l) eqn:Hbegins.
      * simpl. unfold outcome_amended.
        rewrite Hat, Htake, Hstate, Hcloses, newRange_line.
        by rewrite indentation_amended_eq.
      * simpl. apply Hnext. by rewrite Hsnoc.
Qed.

Lemma findPackageRange_refines (document packageName sectionName : jsstring) :
  findPackageRange document packageName sectionName
  = findPackageRange_amended document packageName sectionName.
Proof.
  unfold findPackageRange, findPackageRange_amended. cbv zeta.
  rewrite (pieces_spec_split 10 document []).
  pose proof (split_not_nil 10 document) as Hne.
  change 10%N with NEWLINE in *.
  destruct (split NEWLINE document) as [| p ps] eqn:Hsplit; [done |].
  simpl app. rewrite <- Hsplit.
  by apply (scanLines_amended packageName sectionName _ [] false 0%Z).
Qed.

End AmendedRange.

(** C5, amended.  For every document, [findPackageRange] is decided by
    the first line after a header of the section that is not a header
    itself and that closes the section (same or lower indentation than
    the nearest header before it, and a final [':']) or begins with the
    name: no match when it closes the section, and otherwise its range
    from its indentation to its end, whatever its indentation.  Every
    header counts, also a second one, which opens the section anew.  On
    the sample manifest [foo] is found in [dependencies], on line 1 from
    column 2 to column 13, and not in [dev_dependencies]. *)
Theorem findPackageRange_is_amended :
  (∀ document packageName sectionName : jsstring,
      findPackageRange document packageName sectionName
      = findPackageRange_amended document packageName sectionName)
  ∧ findPackageRange Samples.manifest (js "foo") (js "dependencies")
    = Some {| start := {| line := 1; character := 2 |};
              end_ := {| line := 1; character := 13 |} |}
  ∧ findPackageRange Samples.manifest (js "foo") (js "dev_dependencies") = None
  ∧ findPackageRange Samples.manifest (js "bar") (js "dev_dependencies")
    = Some {| start := {| line := 3; character := 2 |};
              end_ := {| line := 3; character := 13 |} |}
  ∧ findPackageRange
      (js "x:" ++ [NEWLINE] ++ js "  dependencies:" ++ [NEWLINE]
       ++ js "    bar: 1" ++ [NEWLINE] ++ js "dependencies:" ++ [NEWLINE]
       ++ js "  foo: ^1.0.0")
      (js "foo") (js "dependencies")
    = Some {| start := {| line := 4; character := 2 |};
              end_ := {| line := 4; character := 13 |} |}
  ∧ findPackageRange
      (js "  dependencies:" ++ [NEWLINE] ++ js "    foo: 1" ++ [NEWLINE]
       ++ js "  bar:" ++ [NEWLINE] ++ js "    baz: 2")
      (js "baz") (js "dependencies")
    = None
  ∧ findPackageRange
      (js "dependencies:" ++ [NEWLINE] ++ js "" ++ [NEWLINE]
       ++ js "    foo:" ++ [NEWLINE] ++ js "  bar: 2")
      (js "bar") (js "dependencies")
    = Some {| start := {| line := 3; character := 2 |};
              end_ := {| line := 3; character := 8 |} |}.
Proof. split; [exact findPackageRange_refines | by vm_compute]. Qed.

(** ** The TTL cache *)

Section CacheFacts.
Context {T : Type}.
Implicit Types (st : CacheService.t T) (key : jsstring) (value : option T).
Implicit Types (now : Z) (cfg seconds : option Z).

Lemma expired_iff (now : Z) (entry : CacheService.CacheEntry T) :
  CacheService.expired now entry = true ↔ (CacheService.expiresAt entry < now)%Z.
Proof. unfold CacheService.expired. apply Z.ltb_lt. Qed.

Lemma get_absent now key st :
  CacheService.cache st !! key = None → CacheService.get now key st = (None, st).
Proof. intros H. unfold CacheService.get. by rewrite H. Qed.

Lemma get_expired now key st entry :
  CacheService.cache st !! key = Some entry →
  (CacheService.expiresAt entry < now)%Z →
  CacheService.get now key st
  = (None,
     {| CacheService.cache := delete key (CacheService.cache st);
        CacheService.globalState := Some (delete key (CacheService.cache st)) |}).
Proof.
  intros H Hlt. unfold CacheService.get. rewrite H.
  by rewrite (proj2 (expired_iff now entry) Hlt).
Qed.

Lemma get_fresh now key st entry :
  CacheService.cache st !! key = Some entry →
  (now <= CacheService.expiresAt entry)%Z →
  CacheService.get now key st = (CacheService.data entry, st).
Proof.
  intros H Hle. unfold CacheService.get, CacheService.expired. rewrite H.
  destruct (Z.ltb_spec (CacheService.expiresAt entry) now); [lia | done].
Qed.

(** The sweep, entry by entry. *)
Lemma cleanStep_fold (now : Z)
    (m0 m : gmap (list N) (CacheService.CacheEntry T)) (b : bool) key :
  fst (map_fold (CacheService.cleanStep now) (m0, b) m) !! key
  = match m !! key with
    | Some entry => if CacheService.expired now entry then None else m0 !! key
    | None => m0 !! key
    end.
Proof.
  revert key.
  apply (map_fold_weak_ind
    (λ r m, ∀ key, fst r !! key
       = match m !! key with
         | Some entry =>
             if CacheService.expired now entry then None else m0 !! key
         | None => m0 !! key
         end)).
  - intros key. by rewrite lookup_empty.
  - intros i x m' r Hi IH key. unfold CacheService.cleanStep.
    destruct (decide (i = key)) as [-> | Hne].
    + rewrite lookup_insert_eq.
      destruct (CacheService.expired now x); simpl.
      * apply lookup_delete_eq.
      * by rewrite IH, Hi.
    + rewrite lookup_insert_ne by done.
      destruct (CacheService.expired now x); simpl.
      * rewrite lookup_delete_ne by done. apply IH.
      * apply IH.
Qed.

Lemma cleanExpiredEntries_lookup now st key :
  CacheService.cache (CacheService.cleanExpiredEntries now st) !! key
  = entry ← CacheService.cache st !! key;
    if CacheService.expired now entry then None else Some entry.
Proof.
  unfold CacheService.cleanExpiredEntries.
  pose proof (cleanStep_fold now (CacheService.cache st) (CacheService.cache st)
                false key) as H.
  destruct (map_fold _ _ _) as [cache' hasChanges]. simpl in H.
  assert (Hc : CacheService.cache
                 (if hasChanges
                  then CacheService.saveCacheToStorage
                         {| CacheService.cache := cache';
                            CacheService.globalState := CacheService.globalState st |}
                  else {| CacheService.cache := cache';
                          CacheService.globalState := CacheService.globalState st |})
               = cache') by (by destruct hasChanges).
  rewrite Hc, H.
  destruct (CacheService.cache st !! key) as [entry |]; simpl; [| done].
  by destruct (CacheService.expired now entry).
Qed.

Lemma new_lookup now (storage : option (gmap (list N) (CacheService.CacheEntry T)))
    key :
  CacheService.cache (CacheService.new now storage) !! key
  = entry ← default ∅ storage !! key;
    if CacheService.expired now entry then None else Some entry.
Proof.
  unfold CacheService.new, CacheService.loadCacheFromStorage.
  by rewrite cleanExpiredEntries_lookup.
Qed.

Lemma set_lookup cfg now now' key value seconds st :
  CacheService.cache (CacheService.set cfg now now' key value seconds st) !! key
  = Some {| CacheService.data := value;
            CacheService.timestamp := now;
            CacheService.expiresAt :=
              (now' + CacheService.orElse seconds
                        (CacheService.defaultExpiration cfg) * 1000)%Z |}.
Proof. unfold CacheService.set; simpl. apply lookup_insert_eq. Qed.

Lemma set_globalState cfg now now' key value seconds st :
  CacheService.globalState (CacheService.set cfg now now' key value seconds st)
  = Some (CacheService.cache
            (CacheService.set cfg now now' key value seconds st)).
Proof. reflexivity. Qed.

End CacheFacts.

(** C3. An entry is not returned once the clock is past its
    [expiresAt]: [get] answers [null], deletes the entry and saves the
    map; the constructor keeps of the stored map exactly the entries
    that have not expired; and after [set(k, v, 1)] a [get] more than a
    second later answers [null], and [has] answers [false] from then
    on. *)
Theorem cache_expiry (T : Type) :
  (∀ (now : Z) (key : jsstring) (st : CacheService.t T)
     (entry : CacheService.CacheEntry T),
      CacheService.cache st !! key = Some entry →
      (CacheService.expiresAt entry < now)%Z →
      CacheService.get now key st
      = (None,
         {| CacheService.cache := delete key (CacheService.cache st);
            CacheService.globalState :=
              Some (delete key (CacheService.cache st)) |}))
  ∧ (∀ (now : Z) (storage : option (gmap (list N) (CacheService.CacheEntry T)))
       (key : jsstring),
      CacheService.cache (CacheService.new now storage) !! key
      = entry ← default ∅ storage !! key;
        if (CacheService.expiresAt entry <? now)%Z then None else Some entry)
  ∧ (∀ (cfg : option Z) (t0 t1 t2 : Z) (key : jsstring) (value : option T)
       (st : CacheService.t T),
      (t1 + 1000 < t2)%Z →
      let st1 := CacheService.set cfg t0 t1 key value (Some 1%Z) st in
      let st2 := snd (CacheService.get t2 key st1) in
      fst (CacheService.get t2 key st1) = None
      ∧ CacheService.cache st2 !! key = None
      ∧ ∀ t3 : Z, CacheService.has t3 key st2 = (false, st2)).
Proof.
  split_and!.
  - intros now key st entry. apply get_expired.
  - intros now storage key. apply new_lookup.
  - intros cfg t0 t1 t2 key value st Hlate st1 st2.
    pose proof (set_lookup cfg t0 t1 key value (Some 1%Z) st) as Hset.
    fold st1 in Hset.
    assert (Hget : CacheService.get t2 key st1
                   = (None,
                      {| CacheService.cache := delete key (CacheService.cache st1);
                         CacheService.globalState :=
                           Some (delete key (CacheService.cache st1)) |})).
    { apply (get_expired _ _ _ _ Hset). simpl. lia. }
    subst st2. rewrite Hget. simpl.
    split_and!; [done | apply lookup_delete_eq |].
    intros t3. unfold CacheService.has.
    rewrite get_absent; [done |]. simpl. apply lookup_delete_eq.
Qed.

Lemma cache_expiry_witness :
  let st := CacheService.set None 0 0 (js "k") (Some 7) (Some 1%Z)
              (CacheService.new 0 None) in
  CacheService.get 1001 (js "k") st
  = (None,
     {| CacheService.cache := delete (js "k") (CacheService.cache st);
        CacheService.globalState :=
          Some (delete (js "k") (CacheService.cache st)) |})
  ∧ fst (CacheService.get 1001 (js "k") st) = None
  ∧ CacheService.cache (snd (CacheService.get 1001 (js "k") st)) !! js "k" = None
  ∧ ∀ t3 : Z,
      CacheService.has t3 (js "k") (snd (CacheService.get 1001 (js "k") st))
      = (false, snd (CacheService.get 1001 (js "k") st)).
Proof.
  intros st.
  destruct (cache_expiry nat) as (Hget & _ & Hlater).
  split.
  - apply (Hget 1001%Z (js "k") st
             {| CacheService.data := Some 7;
                CacheService.timestamp := 0;
                CacheService.expiresAt := 1000 |}).
    + by vm_compute.
    + simpl. lia.
  - apply (Hlater None 0%Z 0%Z 1001%Z (js "k") (Some 7) (CacheService.new 0 None)).
    lia.
Defined.

(** C4. Before its expiry [get] returns the value that [set] stored,
    also from a service constructed anew on the saved state; and [has]
    answers [true] exactly when [get] does not answer [null], leaving
    the cache as [get] does. *)
Theorem cache_round_trip (T : Type) :
  (∀ (cfg : option Z) (t0 t1 t2 : Z) (key : jsstring) (value : option T)
     (seconds : option Z) (st : CacheService.t T),
      let st1 := CacheService.set cfg t0 t1 key value seconds st in
      ∀ entry, CacheService.cache st1 !! key = Some entry →
      (t2 <= CacheService.expiresAt entry)%Z →
      CacheService.get t2 key st1 = (value, st1))
  ∧ (∀ (cfg : option Z) (t0 t1 t2 t3 : Z) (key : jsstring) (value : option T)
       (seconds : option Z) (st : CacheService.t T),
      let st1 := CacheService.set cfg t0 t1 key value seconds st in
      let reloaded := CacheService.new t2 (CacheService.globalState st1) in
      ∀ entry, CacheService.cache st1 !! key = Some entry →
      (t2 <= CacheService.expiresAt entry)%Z →
      (t3 <= CacheService.expiresAt entry)%Z →
      CacheService.get t3 key reloaded = (value, reloaded))
  ∧ (∀ (now : Z) (key : jsstring) (st : CacheService.t T),
      (fst (CacheService.has now key st) = true
       ↔ fst (CacheService.get now key st) ≠ None)
      ∧ snd (CacheService.has now key st) = snd (CacheService.get now key st)).
Proof.
  split_and!.
  - intros cfg t0 t1 t2 key value seconds st st1 entry Hentry Hfresh.
    rewrite (get_fresh _ _ _ _ Hentry Hfresh).
    subst st1. rewrite set_lookup in Hentry. by injection Hentry as <-.
  - intros cfg t0 t1 t2 t3 key value seconds st st1 reloaded entry Hentry
      Hload Hfresh.
    assert (Hre : CacheService.cache reloaded !! key = Some entry).
    { subst reloaded. rewrite new_lookup.
      assert (Hsaved : default ∅ (CacheService.globalState st1)
                       = CacheService.cache st1) by reflexivity.
      rewrite Hsaved, Hentry. simpl. unfold CacheService.expired.
      destruct (Z.ltb_spec (CacheService.expiresAt entry) t2); [lia | done]. }
    rewrite (get_fresh _ _ _ _ Hre Hfresh).
    subst st1. rewrite set_lookup in Hentry. by injection Hentry as <-.
  - intros now key st. unfold CacheService.has.
    destruct (CacheService.get now key st) as [[v |] st']; simpl; by split.
Qed.

Lemma cache_round_trip_witness :
  let st := CacheService.set None 0 0 (js "k") (Some 7) None
              (CacheService.new 0 None) in
  CacheService.get 5 (js "k") st = (Some 7, st)
  ∧ CacheService.get 9 (js "k") (CacheService.new 8 (CacheService.globalState st))
    = (Some 7, CacheService.new 8 (CacheService.globalState st)).
Proof.
  intros st.
  destruct (cache_round_trip nat) as (Hsame & Hreload & _).
  split.
  - apply (Hsame None 0%Z 0%Z 5%Z (js "k") (Some 7) None (CacheService.new 0 None)
             {| CacheService.data := Some 7;
                CacheService.timestamp := 0;
                CacheService.expiresAt := 3600000 |}).
    + by vm_compute.
    + simpl. lia.
  - apply (Hreload None 0%Z 0%Z 8%Z 9%Z (js "k") (Some 7) None
             (CacheService.new 0 None)
             {| CacheService.data := Some 7;
                CacheService.timestamp := 0;
                CacheService.expiresAt := 3600000 |}).
    + by vm_compute.
    + simpl. lia.
    + simpl. lia.
Defined.

(** C10. [set] with an expiration of [0] seconds does what [set]
    without one does: the entry expires the configured number of
    seconds, 3600 when none is configured, after the clock reading. *)
Theorem set_zero_seconds_is_default (T : Type) (cfg : option Z) (now now' : Z)
    (key : jsstring) (value : option T) (st : CacheService.t T) :
  CacheService.set cfg now now' key value (Some 0%Z) st
  = CacheService.set cfg now now' key value None st
  ∧ CacheService.cache (CacheService.set cfg now now' key value (Some 0%Z) st)
      !! key
    = Some {| CacheService.data := value;
              CacheService.timestamp := now;
              CacheService.expiresAt :=
                (now' + CacheService.defaultExpiration cfg * 1000)%Z |}
  ∧ CacheService.defaultExpiration None = 3600%Z
  ∧ (∀ seconds : Z, CacheService.defaultExpiration (Some seconds) = seconds).
Proof.
  split_and!; try reflexivity.
  unfold CacheService.set; simpl. apply lookup_insert_eq.
Qed.

(** ** The registry client *)

Section RunFacts.

Lemma bind_run {A B} (m : M A) (f : A → M B) (w : World) :
  (m ≫= f) w
  = match m w with
    | (Return a, w') => f a w'
    | (Throw e, w') => (Throw e, w')
    end.
Proof. reflexivity. Qed.

Lemma bind_Return {A B} (m : M A) (f : A → M B) (w w' : World) (a : A) :
  m w = (Return a, w') → (m ≫= f) w = f a w'.
Proof. intros H. by rewrite bind_run, H. Qed.

Lemma bind_Throw {A B} (m : M A) (f : A → M B) (w w' : World) (e : Error) :
  m w = (Throw e, w') → (m ≫= f) w = (Throw e, w').
Proof. intros H. by rewrite bind_run, H. Qed.

Lemma tryCatch_Throw {A} (m : M A) (h : Error → M A) (w w' : World) (e : Error) :
  m w = (Throw e, w') → tryCatch m h w = h e w'.
Proof. intros H. unfold tryCatch. by rewrite H. Qed.

Lemma tryCatch_Return {A} (m : M A) (h : Error → M A) (w w' : World) (a : A) :
  m w = (Return a, w') → tryCatch m h w = (Return a, w').
Proof. intros H. unfold tryCatch. by rewrite H. Qed.

End RunFacts.

Section RegistryFacts.
Variable env : Env.

(** Looking into the cache sends nothing and throws nothing. *)
Lemma cacheHit_requests (key : jsstring) (w : World) :
  ∃ (hit : bool) (w' : World),
    PubApiService.cacheHit env key w = (Return hit, w')
    ∧ requests w' = requests w.
Proof.
  unfold PubApiService.cacheHit, cacheIsEnabled, cacheHas.
  rewrite bind_run. simpl.
  destruct (default true (enableCache env)); [| by eexists _, _].
  rewrite bind_run. simpl. unfold onCache. simpl.
  destruct (CacheService.has _ _ _) as [b c]. by eexists _, _.
Qed.

End RegistryFacts.

(** C9. When the request that [searchPackages] sends fails,
    [searchPackages] returns the empty list, and when the request that
    [getPackageDetails] sends fails, [getPackageDetails] returns [null]:
    each returns (nothing is thrown to the caller), whatever the error
    is, and has sent that one request and no other. *)
Theorem registry_fail_soft (env : Env) (w : World) :
  (∀ (query : jsstring) (page : option N) (error : Error),
      let cacheKey :=
        js "search:" ++ query ++ js ":"
        ++ PubApiService.numberToString (default 1%N page) in
      let request :=
        GetSearch (PubApiService.baseUrl ++ js "/search")
          {| q := query; page := default 1%N page;
             size := Z.min (default 20%Z (maxSearchResults env)) 50 |}
          10000 in
      fst (PubApiService.cacheHit env cacheKey w) = Return false →
      axios_search env (length (requests w)) request = inl error →
      fst (PubApiService.searchPackages env query page w) = Return (Packages [])
      ∧ requests (snd (PubApiService.searchPackages env query page w))
        = requests w ++ [request])
  ∧ (∀ (packageName : jsstring) (error : Error),
      let cacheKey := js "package:" ++ packageName in
      let request :=
        GetPackage (PubApiService.baseUrl ++ js "/packages/" ++ packageName)
          10000 in
      fst (PubApiService.cacheHit env cacheKey w) = Return false →
      axios_package env (length (requests w)) request = inl error →
      fst (PubApiService.getPackageDetails env packageName w) = Return None
      ∧ requests (snd (PubApiService.getPackageDetails env packageName w))
        = requests w ++ [request]).
Proof.
  split.
  - intros query page error cacheKey request Hmiss Hfail.
    destruct (cacheHit_requests env cacheKey w) as (hit & w1 & Hhit & Hreq).
    rewrite Hhit in Hmiss. simpl in Hmiss. injection Hmiss as ->.
    unfold PubApiService.searchPackages. fold cacheKey.
    rewrite (bind_Return _ _ _ _ _ Hhit). cbv iota.
    erewrite tryCatch_Throw; cycle 1.
    { apply bind_Throw. unfold axiosGetSearch.
      rewrite Hreq. fold request. rewrite Hfail. reflexivity. }
    simpl. by rewrite ?Hreq.
  - intros packageName error cacheKey request Hmiss Hfail.
    destruct (cacheHit_requests env cacheKey w) as (hit & w1 & Hhit & Hreq).
    rewrite Hhit in Hmiss. simpl in Hmiss. injection Hmiss as ->.
    unfold PubApiService.getPackageDetails. fold cacheKey.
    rewrite (bind_Return _ _ _ _ _ Hhit). cbv iota.
    erewrite tryCatch_Throw; cycle 1.
    { apply bind_Throw. unfold axiosGetPackage.
      rewrite Hreq. fold request. rewrite Hfail. reflexivity. }
    simpl. by rewrite ?Hreq.
Qed.

Lemma registry_fail_soft_witness :
  fst (PubApiService.searchPackages (Samples.unreachable Samples.notFound)
         (js "http") None Samples.start) = Return (Packages [])
  ∧ fst (PubApiService.getPackageDetails
           (Samples.unreachable Samples.networkError) (js "http") Samples.start)
    = Return None.
Proof.
  split.
  - destruct (registry_fail_soft (Samples.unreachable Samples.notFound)
                Samples.start) as [Hsearch _].
    destruct (Hsearch (js "http") None Samples.notFound) as [H _].
    + by vm_compute.
    + reflexivity.
    + exact H.
  - destruct (registry_fail_soft (Samples.unreachable Samples.networkError)
                Samples.start) as [_ Hdetails].
    destruct (Hdetails (js "http") Samples.networkError) as [H _].
    + by vm_compute.
    + reflexivity.
    + exact H.
Defined.

(** ** What a computation leaves alone *)

Section Frame.

Lemma safe_keepsFiles {A} (m : M A) : safe m → keepsFiles m.
Proof. intros H w. destruct (H w) as (a & w' & -> & Hf). exact Hf. Qed.

Lemma keepsFiles_ret {A} (a : A) : keepsFiles (mret a : M A).
Proof. by intros w. Qed.

Lemma safe_ret {A} (a : A) : safe (mret a : M A).
Proof. intros w. by exists a, w. Qed.

Lemma keepsFiles_throw {A} (e : Error) : keepsFiles (throw e : M A).
Proof. by intros w. Qed.

Lemma keepsFiles_bind {A B} (m : M A) (f : A → M B) :
  keepsFiles m → (∀ a, keepsFiles (f a)) → keepsFiles (m ≫= f).
Proof.
  intros Hm Hf w. rewrite bind_run. specialize (Hm w).
  destruct (m w) as [[a | e] w']; simpl in *; [| done].
  by rewrite Hf.
Qed.

Lemma safe_bind {A B} (m : M A) (f : A → M B) :
  safe m → (∀ a, safe (f a)) → safe (m ≫= f).
Proof.
  intros Hm Hf w. destruct (Hm w) as (a & w' & Hrun & Hw').
  destruct (Hf a w') as (b & w'' & Hrun' & Hw'').
  exists b, w''. rewrite (bind_Return _ _ _ _ _ Hrun). split; [done | congruence].
Qed.

Lemma keepsFiles_tryCatch {A} (m : M A) (h : Error → M A) :
  keepsFiles m → (∀ e, keepsFiles (h e)) → keepsFiles (tryCatch m h).
Proof.
  intros Hm Hh w. unfold tryCatch. specialize (Hm w).
  destruct (m w) as [[a | e] w']; simpl in *; [done |].
  by rewrite Hh.
Qed.

Lemma safe_tryCatch {A} (m : M A) (h : Error → M A) :
  keepsFiles m → (∀ e, safe (h e)) → safe (tryCatch m h).
Proof.
  intros Hm Hh w. unfold tryCatch. specialize (Hm w).
  destruct (m w) as [[a | e] w']; simpl in *; [by exists a, w' |].
  destruct (Hh e w') as (a & w'' & -> & Hw''). exists a, w''.
  split; [done | congruence].
Qed.

Lemma safe_reads {A} (f : World → A) : safe (reads f).
Proof. intros w. by exists (f w), w. Qed.

Lemma safe_modify (f : World → World) :
  (∀ w, files (f w) = files w) → safe (modify f).
Proof. intros H w. exists tt, (f w). by rewrite H. Qed.

Lemma safe_consoleLog level text e : safe (consoleLog level text e).
Proof. by apply safe_modify. Qed.

Lemma safe_show n : safe (show n).
Proof. by apply safe_modify. Qed.

Lemma safe_dateNow env : safe (dateNow env).
Proof. intros w. by eexists _, _. Qed.

Lemma safe_onCache {A}
    (f : CacheService.t PubData → A * CacheService.t PubData) :
  safe (onCache f).
Proof.
  intros w. unfold onCache. destruct (f (cacheService w)) as [a c].
  by eexists _, _.
Qed.

Lemma safe_liftEither_keeps {A} (r : Error + A) : keepsFiles (liftEither r).
Proof. intros w. by destruct r. Qed.

Lemma keepsFiles_axiosGetPackage env r : keepsFiles (axiosGetPackage env r).
Proof. intros w. unfold axiosGetPackage. by destruct (axios_package _ _ _). Qed.

Lemma keepsFiles_axiosGetSearch env r : keepsFiles (axiosGetSearch env r).
Proof. intros w. unfold axiosGetSearch. by destruct (axios_search _ _ _). Qed.

Lemma safe_attempt {A} (m : M A) :
  keepsFiles m → safe (WorkspaceService.attempt m).
Proof.
  intros Hm w. unfold WorkspaceService.attempt. specialize (Hm w).
  destruct (m w) as [[a | e] w']; simpl in *; by eexists _, _.
Qed.

End Frame.

Create HintDb frame.

#[local] Hint Resolve safe_keepsFiles safe_ret keepsFiles_ret keepsFiles_throw
  safe_reads safe_consoleLog safe_show safe_dateNow safe_onCache
  keepsFiles_axiosGetPackage keepsFiles_axiosGetSearch : frame.

Section RegistryFrame.
Variable env : Env.

Lemma safe_cacheHas key : safe (cacheHas env key).
Proof. apply safe_bind; auto with frame. Qed.

Lemma safe_cacheGet key : safe (cacheGet env key).
Proof. apply safe_bind; auto with frame. Qed.

Lemma safe_cacheSet key value seconds : safe (cacheSet env key value seconds).
Proof. repeat (apply safe_bind; [auto with frame | intros ?]). auto with frame. Qed.

Lemma safe_cacheHit key : safe (PubApiService.cacheHit env key).
Proof.
  apply safe_bind; [apply safe_ret | intros [|]];
    [apply safe_cacheHas | apply safe_ret].
Qed.

Lemma safe_getPackageDetails name : safe (PubApiService.getPackageDetails env name).
Proof.
  apply safe_bind; [apply safe_cacheHit | intros [|]]; [apply safe_cacheGet |].
  apply safe_tryCatch.
  - apply keepsFiles_bind; [auto with frame | intros response].
    apply safe_keepsFiles.
    apply safe_bind; [apply safe_ret | intros enabled].
    apply safe_bind; [| intros ?; apply safe_ret].
    destruct enabled; [apply safe_cacheSet | apply safe_ret].
  - intros e. apply safe_bind; [auto with frame | intros ?; apply safe_ret].
Qed.

Lemma safe_getLatestVersion name : safe (PubApiService.getLatestVersion env name).
Proof.
  apply safe_bind; [apply safe_getPackageDetails | intros ?; apply safe_ret].
Qed.

End RegistryFrame.

Section CheckForUpdates.
Variable env : Env.

(** For a single dependency: the latest version is entered exactly when
    the registry has one and the constraint, as it stands, is outdated
    with respect to it. *)
Lemma checkForUpdates_singleton (packageName constraint : jsstring) (w : World) :
  ∃ (latest : option jsstring) (w' : World),
    PubApiService.getLatestVersion env packageName w = (Return latest, w')
    ∧ PubApiService.checkForUpdates env {[ packageName := constraint ]} w
      = (Return
           (match latest with
            | Some l =>
                if isVersionOutdated (Some constraint) (Some l)
                then {[ packageName := l ]} else ∅
            | None => ∅
            end), w').
Proof.
  destruct (safe_getLatestVersion env packageName w) as (latest & w' & Hrun & _).
  exists latest, w'. split; [done |].
  unfold PubApiService.checkForUpdates. rewrite map_to_list_singleton.
  cbn -[isVersionOutdated].
  rewrite bind_run, Hrun. rewrite lookup_singleton_eq.
  destruct latest as [l |]; [| done].
  destruct (isVersionOutdated (Some constraint) (Some l)); [| done].
  cbn. by rewrite insert_empty.
Qed.

(** The end-to-end example of the specification: [pkg_a: ^1.0.0] and a
    registry whose latest version is [1.2.0]. *)
Lemma checkForUpdates_end_to_end :
  fst (PubApiService.checkForUpdates (Samples.registry (js "1.2.0"))
         {[ js "pkg_a" := js "^1.0.0" ]} Samples.start)
  = Return {[ js "pkg_a" := js "1.2.0" ]}.
Proof. by vm_compute. Qed.

End CheckForUpdates.

(** C2 does not hold of [checkForUpdates]: the constraint goes to the
    comparison as it is.  For [>=1.0.0 <2.0.0] and a latest version
    [1.0.1] the map of updates is empty, because the constraint is
    compared as [1.0.02.0.0]; reduced to [1.0.0], as the analyzer of the
    manifest reduces it, it is outdated. *)
Theorem checkForUpdates_compares_whole_constraint :
  let constraint := js ">=1.0.0 <2.0.0" in
  fst (PubApiService.checkForUpdates (Samples.registry (js "1.0.1"))
         {[ js "pkg" := constraint ]} Samples.start) = Return ∅
  ∧ clean constraint = js "1.0.02.0.0"
  ∧ isVersionOutdated (Some constraint) (Some (js "1.0.1")) = false
  ∧ extractVersionFromConstraint constraint = js "1.0.0"
  ∧ isVersionOutdated (Some (js "1.0.0")) (Some (js "1.0.1")) = true
  ∧ analyzedOutdated constraint (js "1.0.1") = true.
Proof. by vm_compute. Qed.

(** ** The manifest accessor *)

Section WorkspaceFacts.
Variable env : Env.

Lemma safe_stringOf_keeps v : keepsFiles (WorkspaceService.stringOf v).
Proof. intros w. unfold WorkspaceService.stringOf. by destruct (String v). Qed.

(** One section read: nothing is thrown, the files are as before, what
    was pushed stays, and when every value can be printed there is no
    failure and every entry that passes the guard has its record. *)
Lemma extractLoop_spec (dev : bool) (sdk : jsstring)
    (entries : list (jsstring * yaml)) :
  ∀ (deps : list DependencyInfo) (w : World),
  ∃ (deps' : list DependencyInfo) (failure : option Error) (w' : World),
    WorkspaceService.extractLoop env dev sdk entries deps w
    = (Return (deps', failure), w')
    ∧ files w' = files w
    ∧ (∀ d, d ∈ deps → d ∈ deps')
    ∧ (Forall (λ entry, is_Some (String (snd entry))) entries →
       failure = None
       ∧ ∀ name v, (name, v) ∈ entries →
           nonEmpty name = true → name ≠ sdk → truthy v = true →
           ∃ d, d ∈ deps' ∧ dep_name d = name
                ∧ String v = Some (dep_version d) ∧ PubTypes.isDev d = dev).
Proof.
  induction entries as [| [name v] rest IH]; intros deps w.
  - exists deps, None, w. split_and!; try done.
    intros _. split; [done |]. intros ? ? H. by apply elem_of_nil in H.
  - simpl.
    destruct (nonEmpty name && negb (bool_decide (name = sdk)) && truthy v)
      eqn:Hguard.
    + destruct (safe_getLatestVersion env name w) as (latest & w1 & Hrun & Hf1).
      rewrite bind_run. unfold WorkspaceService.attempt, tryCatch.
      rewrite (bind_Return _ _ _ _ _ Hrun).
      unfold WorkspaceService.stringOf.
      destruct (String v) as [s |] eqn:Hs.
      * simpl.
        match goal with
        | |- context [WorkspaceService.extractLoop env dev sdk rest ?ds w1] =>
            destruct (IH ds w1) as (deps' & failure & w' & Hloop & Hf & Hmono & Hall)
        end.
        exists deps', failure, w'. split_and!; [done | congruence | |].
        { intros d Hd. apply Hmono. apply elem_of_app. by left. }
        intros Hprint. apply Forall_cons in Hprint as [_ Hprint].
        destruct (Hall Hprint) as [-> Hrest]. split; [done |].
        intros name' v' Hin Hne Hsdk Htruthy.
        apply elem_of_cons in Hin as [[= -> ->] | Hin].
        -- eexists. split; [apply Hmono, elem_of_app; right; apply list_elem_of_singleton; reflexivity |].
           simpl. by rewrite Hs.
        -- by apply Hrest.
      * simpl. eexists deps, _, _. split_and!; [reflexivity | exact Hf1 | done |].
        intros Hprint. apply Forall_cons in Hprint as [[? Hsome] _].
        simpl in Hsome. congruence.
    + destruct (IH deps w) as (deps' & failure & w' & Hloop & Hf & Hmono & Hall).
      exists deps', failure, w'. split_and!; [done | done | done |].
      intros Hprint. apply Forall_cons in Hprint as [_ Hprint].
      destruct (Hall Hprint) as [-> Hrest]. split; [done |].
      intros name' v' Hin Hne Hsdk Htruthy.
      apply elem_of_cons in Hin as [[= -> ->] | Hin]; [| by apply Hrest].
      rewrite Hne, Htruthy in Hguard.
      rewrite bool_decide_eq_false_2 in Hguard by done. discriminate.
Qed.

(** A section that is not an object is not read at all. *)
Lemma sectionLoop_spec (dev : bool) (sdk : jsstring) (section : option yaml)
    (deps : list DependencyInfo) (w : World) :
  ∃ (deps' : list DependencyInfo) (failure : option Error) (w' : World),
    (if WorkspaceService.isSection section
     then WorkspaceService.extractLoop env dev sdk
            (WorkspaceService.sectionEntries section) deps
     else mret (deps, None)) w
    = (Return (deps', failure), w')
    ∧ files w' = files w
    ∧ (∀ d, d ∈ deps → d ∈ deps')
    ∧ (printable section →
       failure = None
       ∧ ∀ entries name v, section = Some (YMap entries) →
           entries !! name = Some v →
           nonEmpty name = true → name ≠ sdk → truthy v = true →
           ∃ d, d ∈ deps' ∧ dep_name d = name
                ∧ String v = Some (dep_version d) ∧ PubTypes.isDev d = dev).
Proof.
  destruct (WorkspaceService.isSection section) eqn:Hsec.
  - destruct (extractLoop_spec dev sdk (WorkspaceService.sectionEntries section)
                deps w) as (deps' & failure & w' & Hrun & Hf & Hmono & Hall).
    exists deps', failure, w'. split_and!; [done | done | done |].
    intros Hprint. destruct (Hall Hprint) as [-> Hentries]. split; [done |].
    intros entries name v -> Hlookup. apply Hentries.
    simpl. by apply elem_of_map_to_list.
  - exists deps, None, w. split_and!; [done | done | done |].
    intros _. split; [done |]. by intros entries name v ->.
Qed.

Lemma extractDependencies_spec (pubspec : yaml) (w : World) :
  ∃ (deps : list DependencyInfo) (w' : World),
    WorkspaceService.extractDependencies env pubspec w = (Return deps, w')
    ∧ files w' = files w
    ∧ ∀ m, pubspec = YMap m →
        printable (m !! js "dependencies") →
        printable (m !! js "dev_dependencies") →
        ∀ dev entries name v,
          m !! sectionOf dev = Some (YMap entries) →
          entries !! name = Some v →
          nonEmpty name = true → name ≠ sdkOf dev → truthy v = true →
          ∃ d, d ∈ deps ∧ dep_name d = name
               ∧ String v = Some (dep_version d) ∧ PubTypes.isDev d = dev.
Proof.
  unfold WorkspaceService.extractDependencies.
  destruct (getProperty pubspec (js "dependencies")) as [e | regular] eqn:Hreg.
  { eexists [], _. split_and!; [reflexivity | done |].
    intros m ->. discriminate Hreg. }
  destruct (getProperty pubspec (js "dev_dependencies")) as [e | devs] eqn:Hdev.
  { eexists [], _. split_and!; [reflexivity | done |].
    intros m ->. discriminate Hdev. }
  destruct (sectionLoop_spec false (js "flutter") regular [] w)
    as (deps1 & failure1 & w1 & Hrun1 & Hf1 & Hmono1 & Hall1).
  rewrite (bind_Return _ _ _ _ _ Hrun1).
  destruct (sectionLoop_spec true (js "flutter_test") devs deps1 w1)
    as (deps2 & failure2 & w2 & Hrun2 & Hf2 & Hmono2 & Hall2).
  assert (Hsections : ∀ m, pubspec = YMap m →
            regular = m !! js "dependencies"
            ∧ devs = m !! js "dev_dependencies").
  { intros m ->. simpl in Hreg, Hdev. by simplify_eq. }
  destruct failure1 as [error1 |].
  { eexists deps1, _. split_and!; [reflexivity | exact Hf1 |].
    intros m Hm Hp1 _. destruct (Hsections m Hm) as [-> _].
    by destruct (Hall1 Hp1). }
  rewrite (bind_Return _ _ _ _ _ Hrun2).
  assert (Hgoal : ∀ m, pubspec = YMap m →
            printable (m !! js "dependencies") →
            printable (m !! js "dev_dependencies") →
            ∀ dev entries name v,
              m !! sectionOf dev = Some (YMap entries) →
              entries !! name = Some v →
              nonEmpty name = true → name ≠ sdkOf dev → truthy v = true →
              ∃ d, d ∈ deps2 ∧ dep_name d = name
                   ∧ String v = Some (dep_version d) ∧ PubTypes.isDev d = dev).
  { intros m Hm Hp1 Hp2 dev entries name v Hsection Hentry Hne Hsdk Htruthy.
    destruct (Hsections m Hm) as [-> ->].
    destruct (Hall1 Hp1) as [_ Hfirst]. destruct (Hall2 Hp2) as [_ Hsecond].
    destruct dev; simpl in Hsection, Hsdk.
    - by apply (Hsecond entries).
    - destruct (Hfirst entries name v Hsection Hentry Hne Hsdk Htruthy)
        as (d & Hd & Hrest).
      exists d. split; [by apply Hmono2 | done]. }
  destruct failure2 as [error2 |].
  - eexists deps2, _. split_and!; [reflexivity | simpl; congruence | exact Hgoal].
  - exists deps2, w2. split_and!; [reflexivity | congruence | exact Hgoal].
Qed.

Lemma safe_extractDependencies pubspec :
  safe (WorkspaceService.extractDependencies env pubspec).
Proof.
  intros w. destruct (extractDependencies_spec pubspec w) as (deps & w' & H & Hf & _).
  by exists deps, w'.
Qed.

Lemma keepsFiles_readFileSync file : keepsFiles (WorkspaceService.readFileSync file).
Proof. intros w. unfold WorkspaceService.readFileSync. by destruct (files w !! file). Qed.

Lemma keepsFiles_parse content : keepsFiles (WorkspaceService.parse env content).
Proof. intros w. unfold WorkspaceService.parse. by destruct (parseYaml env content). Qed.

Lemma safe_createProjectFromPath projectPath :
  safe (WorkspaceService.createProjectFromPath env projectPath).
Proof.
  apply safe_tryCatch.
  - apply keepsFiles_bind; [apply keepsFiles_readFileSync | intros content].
    apply keepsFiles_bind; [apply keepsFiles_parse | intros pubspec].
    destruct (negb (truthy pubspec)); [apply keepsFiles_ret |].
    apply keepsFiles_bind; [apply safe_liftEither_keeps | intros name].
    destruct (negb (truthyProp name)); [apply keepsFiles_ret |].
    apply safe_keepsFiles.
    apply safe_bind; [apply safe_extractDependencies | intros ?; apply safe_ret].
  - intros e. apply safe_bind; [apply safe_consoleLog | intros ?; apply safe_ret].
Qed.

Lemma safe_refreshProject projectPath :
  safe (WorkspaceService.refreshProject env projectPath).
Proof.
  apply safe_bind; [apply safe_reads | intros [index |]]; [| apply safe_ret].
  apply safe_bind; [apply safe_createProjectFromPath | intros [project |]];
    [| apply safe_ret].
  by apply safe_modify.
Qed.

Lemma safe_runPubGet projectPath : safe (WorkspaceService.runPubGet projectPath).
Proof.
  apply safe_bind; [by apply safe_modify | intros ?; apply safe_show].
Qed.

End WorkspaceFacts.

(** One step of a run: the first computation of a sequence returns. *)
Tactic Notation "run" uconstr(H) := rewrite bind_run, H; cbv beta iota.

Section AddDependency.
Variable env : Env.

Lemma formatVersion_cases (version : jsstring) :
  WorkspaceService.formatVersion version
  = if nonEmpty version then formatVersion_spec version else js "^1.0.0".
Proof. by destruct version. Qed.

(** On a manifest that is an object whose section, when it has one that
    is truthy, is an object, the two assignments give [withDependency]. *)
Lemma setDependency_object (m : gmap (list N) yaml) (section name value : jsstring) :
  section ≠ js "__proto__" →
  name ≠ js "__proto__" →
  (∀ v, m !! section = Some v → truthy v = true → ∃ entries, v = YMap entries) →
  WorkspaceService.setDependency (YMap m) section name value
  = inr (YMap (withDependency m section name value)).
Proof.
  intros Hsection Hname Hobject.
  unfold WorkspaceService.setDependency, withDependency. simpl.
  destruct (m !! section) as [v |] eqn:Hv; simpl.
  - destruct (truthy v) eqn:Htruthy.
    + destruct (Hobject v eq_refl Htruthy) as [entries ->]. simpl.
      rewrite (bool_decide_eq_false_2 _ Hname). by simpl.
    + rewrite (bool_decide_eq_false_2 _ Hsection). simpl.
      rewrite (bool_decide_eq_false_2 _ Hname). simpl.
      rewrite insert_insert_eq.
      destruct v as [| b | falsy text | s | items | entries]; try done.
  - rewrite (bool_decide_eq_false_2 _ Hsection). simpl.
    rewrite (bool_decide_eq_false_2 _ Hname). simpl.
    by rewrite insert_insert_eq.
Qed.

Lemma withDependency_lookup (m : gmap (list N) yaml) (section name value : jsstring) :
  sectionMap (withDependency m section name value !! section) !! name
  = Some (YStr value).
Proof.
  unfold withDependency. rewrite lookup_insert_eq. simpl.
  apply lookup_insert_eq.
Qed.

Lemma readFileSync_run (file content : jsstring) (w : World) :
  files w !! file = Some content →
  WorkspaceService.readFileSync file w = (Return content, w).
Proof. intros H. unfold WorkspaceService.readFileSync. by rewrite H. Qed.

Lemma existsSync_run (file content : jsstring) (w : World) :
  files w !! file = Some content →
  WorkspaceService.existsSync file w = (Return true, w).
Proof.
  intros H. unfold WorkspaceService.existsSync, reads.
  rewrite bool_decide_eq_true_2; [done | by rewrite H].
Qed.

Lemma parse_run (content : jsstring) (v : yaml) (w : World) :
  parseYaml env content = Some v →
  WorkspaceService.parse env content w = (Return v, w).
Proof. intros H. unfold WorkspaceService.parse. by rewrite H. Qed.

Lemma createProjectFromPath_reads (projectPath content : jsstring)
    (m : gmap (list N) yaml) (w : World) :
  files w !! path_join env projectPath (js "pubspec.yaml") = Some content →
  parseYaml env content = Some (YMap m) →
  truthyProp (m !! js "name") = true →
  printable (m !! js "dependencies") →
  printable (m !! js "dev_dependencies") →
  ∃ (project : WorkspaceProject) (w' : World),
    WorkspaceService.createProjectFromPath env projectPath w
    = (Return (Some project), w')
    ∧ ∀ dev entries name v,
        m !! sectionOf dev = Some (YMap entries) →
        entries !! name = Some v →
        nonEmpty name = true → name ≠ sdkOf dev → truthy v = true →
        ∃ d, d ∈ dependencies project ∧ dep_name d = name
             ∧ String v = Some (dep_version d) ∧ PubTypes.isDev d = dev.
Proof.
  intros Hfile Hparse Hname Hp1 Hp2.
  destruct (extractDependencies_spec env (YMap m) w)
    as (deps & w' & Hrun & _ & Hdeps).
  eexists _, w'. split.
  - unfold WorkspaceService.createProjectFromPath.
    apply tryCatch_Return. cbv zeta.
    run (readFileSync_run _ _ _ Hfile).
    run (parse_run _ _ _ Hparse).
    cbn [truthy negb].
    rewrite bind_run. cbn [liftEither getProperty]. unfold mret at 1, M_ret at 1.
    rewrite Hname. cbn [negb].
    run Hrun. reflexivity.
  - simpl. by apply Hdeps.
Qed.

Lemma addDependency_writes (projectPath packageName version content : jsstring)
    (dev : option bool) (m : gmap (list N) yaml) (w : World) :
  let pubspecPath := path_join env projectPath (js "pubspec.yaml") in
  let section := sectionOf (default false dev) in
  files w !! pubspecPath = Some content →
  parseYaml env content = Some (YMap m) →
  packageName ≠ js "__proto__" →
  (∀ v, m !! section = Some v → truthy v = true → ∃ entries, v = YMap entries) →
  ∃ w', WorkspaceService.addDependency env projectPath packageName version dev w
        = (Return true, w')
        ∧ files w'
          = <[pubspecPath :=
                stringifyYaml env
                  (YMap (withDependency m section packageName
                           (WorkspaceService.formatVersion version)))]> (files w).
Proof.
  intros pubspecPath section Hfile Hparse Hname Hobject.
  assert (Hset : WorkspaceService.setDependency (YMap m) section packageName
                   (WorkspaceService.formatVersion version)
                 = inr (YMap (withDependency m section packageName
                                (WorkspaceService.formatVersion version)))).
  { apply setDependency_object; [| done | done].
    subst section. by destruct (default false dev). }
  set (written := stringifyYaml env _).
  unfold WorkspaceService.addDependency. cbv zeta. fold pubspecPath.
  change (if default false dev then js "dev_dependencies" else js "dependencies")
    with section.
  destruct (safe_runPubGet projectPath
              (setFiles (<[pubspecPath := written]> (files w)) w))
    as ([] & w1 & Hget & Hf1).
  destruct (safe_refreshProject env projectPath w1) as ([] & w2 & Hrefresh & Hf2).
  eexists. split.
  - apply tryCatch_Return.
    run (existsSync_run _ _ _ Hfile). cbn [negb].
    run (readFileSync_run _ _ _ Hfile).
    run (parse_run _ _ _ Hparse).
    rewrite bind_run, Hset. cbn [liftEither]. unfold mret at 1, M_ret at 1.
    rewrite bind_run. unfold WorkspaceService.writeFileSync, modify.
    fold written. cbv beta iota.
    run Hget. run Hrefresh.
    reflexivity.
  - simpl. rewrite Hf2, Hf1. reflexivity.
Qed.

End AddDependency.

Section Writes.
Variable env : Env.

Lemma existsSync_missing (file : jsstring) (w : World) :
  files w !! file = None →
  WorkspaceService.existsSync file w = (Return false, w).
Proof.
  intros H. unfold WorkspaceService.existsSync, reads.
  rewrite bool_decide_eq_false_2; [done |]. rewrite H. by intros [? ?].
Qed.

Lemma parse_fails (content : jsstring) (w : World) :
  parseYaml env content = None →
  ∃ e, WorkspaceService.parse env content w = (Throw e, w).
Proof. intros H. unfold WorkspaceService.parse. rewrite H. by eexists. Qed.

(** The two assignments on an object give an object, and leave every
    other key of it, and every other entry of a section that is an
    object, as they were. *)
Lemma setDependency_others (m : gmap (list N) yaml)
    (section name value : jsstring) (pubspec' : yaml) :
  WorkspaceService.setDependency (YMap m) section name value = inr pubspec' →
  ∃ m', pubspec' = YMap m'
        ∧ (∀ k, k ≠ section → m' !! k = m !! k)
        ∧ (∀ entries n, m !! section = Some (YMap entries) → n ≠ name →
             ∃ entries', m' !! section = Some (YMap entries')
                         ∧ entries' !! n = entries !! n).
Proof.
  unfold WorkspaceService.setDependency. simpl.
  destruct (truthyProp (m !! section)) eqn:Htruthy.
  - destruct (m !! section) as [v |] eqn:Hv; [| done]. simpl.
    destruct (setProperty v name (YStr value)) as [e | target'] eqn:Hset; [done |].
    intros [= <-]. eexists. split_and!; [done | |].
    + intros k Hk. by rewrite lookup_insert_ne.
    + intros entries n [= ->] Hn. simpl in Hset.
      rewrite lookup_insert_eq.
      destruct (bool_decide (name = js "__proto__")
                && bool_decide (entries !! name = None));
        injection Hset as <-; eexists; split; try done.
      by rewrite lookup_insert_ne.
  - assert (Hnot : ∀ entries, m !! section ≠ Some (YMap entries)).
    { intros entries Hv. by rewrite Hv in Htruthy. }
    destruct (bool_decide (section = js "__proto__")
              && bool_decide (m !! section = None)); simpl.
    + destruct (bool_decide (name = js "__proto__")
                && bool_decide ((∅ : gmap (list N) yaml) !! name = None));
        intros [= <-]; eexists; (split_and!; [done | |]).
      * intros k Hk. by rewrite lookup_insert_ne.
      * intros entries n Hv. by destruct (Hnot entries).
      * intros k Hk. by rewrite lookup_insert_ne.
      * intros entries n Hv. by destruct (Hnot entries).
    + destruct (bool_decide (name = js "__proto__")
                && bool_decide ((∅ : gmap (list N) yaml) !! name = None));
        intros [= <-]; eexists; (split_and!; [done | |]).
      * intros k Hk. by rewrite !lookup_insert_ne.
      * intros entries n Hv. by destruct (Hnot entries).
      * intros k Hk. by rewrite !lookup_insert_ne.
      * intros entries n Hv. by destruct (Hnot entries).
Qed.

(** Every way through [addDependency]. *)
Lemma addDependency_outcome (projectPath packageName version : jsstring)
    (dev : option bool) (w : World) :
  let pubspecPath := path_join env projectPath (js "pubspec.yaml") in
  let section := sectionOf (default false dev) in
  ∃ (b : bool) (w' : World),
    WorkspaceService.addDependency env projectPath packageName version dev w
    = (Return b, w')
    ∧ (b = false → files w' = files w ∧ terminals w' = terminals w)
    ∧ (b = true →
       ∃ content pubspec pubspec',
         files w !! pubspecPath = Some content
         ∧ parseYaml env content = Some pubspec
         ∧ WorkspaceService.setDependency pubspec section packageName
             (WorkspaceService.formatVersion version) = inr pubspec'
         ∧ files w' = <[pubspecPath := stringifyYaml env pubspec']> (files w)).
Proof.
  intros pubspecPath section.
  unfold WorkspaceService.addDependency. cbv zeta. fold pubspecPath.
  change (if default false dev then js "dev_dependencies" else js "dependencies")
    with section.
  unfold tryCatch.
  destruct (files w !! pubspecPath) as [content |] eqn:Hfile.
  2:{ run (existsSync_missing _ _ Hfile). cbn [negb].
      eexists false, _. split_and!; [reflexivity | done | done]. }
  run (existsSync_run _ _ _ Hfile). cbn [negb].
  run (readFileSync_run _ _ _ Hfile).
  destruct (parseYaml env content) as [pubspec |] eqn:Hparse.
  2:{ destruct (parse_fails content w Hparse) as [e He].
      rewrite bind_run, He. cbv beta iota.
      eexists false, _. split_and!; [reflexivity | done | done]. }
  run (parse_run env _ _ _ Hparse).
  destruct (WorkspaceService.setDependency pubspec section packageName
              (WorkspaceService.formatVersion version)) as [e | pubspec'] eqn:Hset.
  { rewrite bind_run. cbn [liftEither]. unfold throw. cbv beta iota.
    eexists false, _. split_and!; [reflexivity | done | done]. }
  rewrite bind_run. cbn [liftEither]. unfold mret at 1, M_ret at 1.
  rewrite bind_run. unfold WorkspaceService.writeFileSync, modify.
  cbv beta iota.
  destruct (safe_runPubGet projectPath
              (setFiles (<[pubspecPath := stringifyYaml env pubspec']> (files w)) w))
    as ([] & w1 & Hget & Hf1).
  destruct (safe_refreshProject env projectPath w1) as ([] & w2 & Hrefresh & Hf2).
  run Hget. run Hrefresh.
  eexists true, _. split_and!; [reflexivity | done |].
  intros _. exists content, pubspec, pubspec'. split_and!; try done.
  simpl. by rewrite Hf2, Hf1.
Qed.

End Writes.

(** C7, as the specification states it, fails.  At the empty version
    what is written is the fallback ["^1.0.0"], not a lone caret.  And
    writing is not always followed by reading back: a package named
    [flutter] is written to [dependencies] and skipped when the manifest
    is read again, and when [dependencies] is a sequence [addDependency]
    returns [true], writes the manifest as it was, and what is read
    back are the items of the sequence. *)
Lemma addDependency_spec_counterexample :
  let env := library (js "1.2.0") in
  let manifest := js "/app/pubspec.yaml" in
  let sdk :=
    WorkspaceService.addDependency env (js "/app") (js "flutter") (js "^1.0.0")
      None (startWith (js "name: app")) in
  let listed :=
    js "dependencies:" ++ [NEWLINE] ++ js "  - a" ++ [NEWLINE] ++ js "  - b"
    ++ [NEWLINE] ++ js "name: app" in
  let sequence :=
    WorkspaceService.addDependency env (js "/app") (js "foo") (js "^1.0.0")
      None (startWith listed) in
  (WorkspaceService.formatVersion (js "") = js "^1.0.0"
   ∧ formatVersion_spec (js "") = js "^"
   ∧ ¬ (∀ version : jsstring,
          WorkspaceService.formatVersion version = formatVersion_spec version))
  ∧ (fst sdk = Return true
     ∧ files (snd sdk) !! manifest
       = Some (js "dependencies:" ++ [NEWLINE] ++ js "  flutter: ^1.0.0"
               ++ [NEWLINE] ++ js "name: app")
     ∧ ∃ project,
         fst (WorkspaceService.createProjectFromPath env (js "/app") (snd sdk))
         = Return (Some project)
         ∧ dependencies project = [])
  ∧ (fst sequence = Return true
     ∧ files (snd sequence) !! manifest = Some listed
     ∧ ∃ project,
         fst (WorkspaceService.createProjectFromPath env (js "/app")
                (snd sequence))
         = Return (Some project)
         ∧ dep_name <$> dependencies project = [js "0"; js "1"]).
Proof.
  intros env manifest sdk listed sequence. split_and!.
  - done.
  - done.
  - intros H. specialize (H (js "")). discriminate H.
  - by vm_compute.
  - by vm_compute.
  - vm_compute. eexists. split; reflexivity.
  - by vm_compute.
  - by vm_compute.
  - vm_compute. eexists. split; reflexivity.
Qed.

(** C7, amended.  What [addDependency] assigns under the name is, for a
    version that is not empty, the version with its first character
    removed when that is a caret or a tilde, and a caret put in front,
    and for the empty version ["^1.0.0"]: a caret form in both cases,
    and ["^1.0.0"] for ["^1.0.0"].  Whenever [addDependency] returns
    [true], the file holds the serialization of the manifest that was
    parsed with that value assigned.  When the manifest exists and
    parses to an object whose target section is absent, falsy or an
    object, and the name is not [__proto__], [addDependency] returns
    [true] and the manifest written has that value under the name.
    When moreover the YAML library reads that serialization back as the
    manifest it was, the manifest has a truthy name, the package name is
    neither empty nor the SDK entry that the section skips, and every
    value of the two sections can be printed, reading the project again
    gives a [DependencyInfo] for the name with that value as its
    version, in the section asked for. *)
Theorem addDependency_writes_caret_form :
  (∀ version : jsstring,
      WorkspaceService.formatVersion version
      = (if nonEmpty version then CARET :: stripPrefix version
         else js "^1.0.0")
      ∧ ∃ rest, WorkspaceService.formatVersion version = CARET :: rest)
  ∧ WorkspaceService.formatVersion (js "^1.0.0") = js "^1.0.0"
  ∧ WorkspaceService.formatVersion (js "1.0.0") = js "^1.0.0"
  ∧ WorkspaceService.formatVersion (js "~^1.0.0") = js "^^1.0.0"
  ∧ (∀ (env : Env) (projectPath packageName version : jsstring)
       (dev : option bool) (w w' : World),
      WorkspaceService.addDependency env projectPath packageName version dev w
      = (Return true, w') →
      let pubspecPath := path_join env projectPath (js "pubspec.yaml") in
      ∃ content pubspec pubspec',
        files w !! pubspecPath = Some content
        ∧ parseYaml env content = Some pubspec
        ∧ WorkspaceService.setDependency pubspec
            (sectionOf (default false dev)) packageName
            (WorkspaceService.formatVersion version) = inr pubspec'
        ∧ files w' = <[pubspecPath := stringifyYaml env pubspec']> (files w))
  ∧ (∀ (env : Env) (w : World)
       (projectPath packageName version content : jsstring)
       (dev : option bool) (m : gmap (list N) yaml),
      let isDev := default false dev in
      let pubspecPath := path_join env projectPath (js "pubspec.yaml") in
      let value := WorkspaceService.formatVersion version in
      let written := withDependency m (sectionOf isDev) packageName value in
      let after :=
        snd (WorkspaceService.addDependency env projectPath packageName
               version dev w) in
      files w !! pubspecPath = Some content →
      parseYaml env content = Some (YMap m) →
      (∀ v, m !! sectionOf isDev = Some v → truthy v = true →
            ∃ entries, v = YMap entries) →
      packageName ≠ js "__proto__" →
      fst (WorkspaceService.addDependency env projectPath packageName version
             dev w) = Return true
      ∧ files after !! pubspecPath = Some (stringifyYaml env (YMap written))
      ∧ sectionMap (written !! sectionOf isDev) !! packageName
        = Some (YStr value)
      ∧ (parseYaml env (stringifyYaml env (YMap written))
         = Some (YMap written) →
         truthyProp (m !! js "name") = true →
         nonEmpty packageName = true →
         packageName ≠ sdkOf isDev →
         printable (written !! js "dependencies") →
         printable (written !! js "dev_dependencies") →
         ∃ (project : WorkspaceProject) (w' : World) (d : DependencyInfo),
           WorkspaceService.createProjectFromPath env projectPath after
           = (Return (Some project), w')
           ∧ d ∈ dependencies project
           ∧ dep_name d = packageName
           ∧ dep_version d = value
           ∧ PubTypes.isDev d = isDev)).
Proof.
  assert (Hvalue : ∀ version : jsstring,
            ∃ rest, WorkspaceService.formatVersion version = CARET :: rest).
  { intros version. rewrite formatVersion_cases.
    destruct (nonEmpty version); by eexists. }
  split_and!; try reflexivity.
  - intros version. split; [apply formatVersion_cases | apply Hvalue].
  - intros env projectPath packageName version dev w w' Hrun pubspecPath.
    destruct (addDependency_outcome env projectPath packageName version dev w)
      as (b & w'' & Hrun' & _ & Htrue).
    rewrite Hrun in Hrun'. injection Hrun' as <- <-.
    exact (Htrue eq_refl).
  - intros env w projectPath packageName version content dev m
      isDev pubspecPath value written after Hfile Hparse Hobject Hproto.
    destruct (addDependency_writes env projectPath packageName version content
                dev m w Hfile Hparse Hproto Hobject) as (w' & Hrun & Hfiles).
    assert (Hafter : files after !! pubspecPath
                     = Some (stringifyYaml env (YMap written))).
    { subst after. rewrite Hrun. simpl. rewrite Hfiles. apply lookup_insert_eq. }
    split_and!.
    + by rewrite Hrun.
    + exact Hafter.
    + apply withDependency_lookup.
    + intros Hround Hname Hnonempty Hsdk Hp1 Hp2.
      assert (Hname' : truthyProp (written !! js "name") = true).
      { subst written. unfold withDependency.
        rewrite lookup_insert_ne; [done |]. subst isDev.
        by destruct (default false dev). }
      destruct (createProjectFromPath_reads env projectPath _ written after
                  Hafter Hround Hname' Hp1 Hp2)
        as (project & w'' & Hread & Hdeps).
      destruct (Hvalue version) as [rest Hrest].
      destruct (Hdeps isDev (<[packageName := YStr value]>
                               (sectionMap (m !! sectionOf isDev)))
                  packageName (YStr value))
        as (d & Hd & Hdname & Hdversion & Hddev).
      * subst written. unfold withDependency. apply lookup_insert_eq.
      * apply lookup_insert_eq.
      * exact Hnonempty.
      * exact Hsdk.
      * simpl. subst value. by rewrite Hrest.
      * exists project, w'', d. split_and!; try done.
        simpl in Hdversion. by injection Hdversion.
Qed.

Lemma addDependency_writes_caret_form_witness :
  let env := library (js "1.2.0") in
  let after :=
    snd (WorkspaceService.addDependency env (js "/app") (js "foo")
           (js "~1.0.0") None (startWith (js "name: app"))) in
  files after !! js "/app/pubspec.yaml"
  = Some (js "dependencies:" ++ [NEWLINE] ++ js "  foo: ^1.0.0" ++ [NEWLINE]
          ++ js "name: app")
  ∧ ∃ (project : WorkspaceProject) (w' : World) (d : DependencyInfo),
      WorkspaceService.createProjectFromPath env (js "/app") after
      = (Return (Some project), w')
      ∧ d ∈ dependencies project
      ∧ dep_name d = js "foo"
      ∧ dep_version d = js "^1.0.0"
      ∧ PubTypes.isDev d = false.
Proof.
  intros env after.
  destruct addDependency_writes_caret_form as (_ & _ & _ & _ & _ & H).
  destruct (H env (startWith (js "name: app")) (js "/app") (js "foo")
              (js "~1.0.0") (js "name: app") None
              {[ js "name" := YStr (js "app") ]})
    as (_ & Hfile & _ & Hread).
  - reflexivity.
  - by vm_compute.
  - intros v Hv. by vm_compute in Hv.
  - by vm_compute.
  - split.
    + etransitivity; [exact Hfile | by vm_compute].
    + apply Hread.
      * by vm_compute.
      * reflexivity.
      * reflexivity.
      * by vm_compute.
      * unfold printable. vm_compute. repeat constructor. by eexists.
      * unfold printable. vm_compute. constructor.
Defined.

(** C6. [updateDependency] is [addDependency]: the same result and the
    same world afterwards, whether [isDev] is given or not. *)
Theorem updateDependency_is_addDependency (env : Env)
    (projectPath packageName newVersion : jsstring) (isDev : option bool)
    (w : World) :
  WorkspaceService.updateDependency env projectPath packageName newVersion isDev w
  = WorkspaceService.addDependency env projectPath packageName newVersion isDev w.
Proof. by destruct isDev. Qed.

(** ** The conflict advisor *)

(** C8. [detectConflicts] returns the one conflict that is written in
    its body, for [flutter_lints] with the resolution [^5.0.0], and
    touches nothing: neither the project directory nor anything of the
    world, its files among it, has a part in the result. *)
Theorem detectConflicts_constant :
  (∀ (projectPath : jsstring) (w : World),
      DependencyResolver.detectConflicts projectPath w
      = (Return
           [{| packageName := js "flutter_lints";
               conflictingVersions := [js "^6.0.0"; js "^5.0.0"];
               suggestedResolution := js "^5.0.0";
               reason := js "Incompatible version ranges between direct and transitive dependencies" |}],
         w))
  ∧ (∀ (projectPath projectPath' : jsstring) (w w' : World),
      fst (DependencyResolver.detectConflicts projectPath w)
      = fst (DependencyResolver.detectConflicts projectPath' w')).
Proof. by split. Qed.


(** * Further properties *)

(** ** Version comparison: order, decoration, padding *)

Section VersionOrder.

Lemma gt_asymmetric (a b : jsnum) : gt a b = true → gt b a = false.
Proof.
  destruct a as [x |], b as [y |]; simpl; try done.
  intros H. apply N.ltb_lt in H. apply N.ltb_ge. lia.
Qed.

Lemma firstDifference_flip (l k : list jsnum) :
  firstDifference (zip l k) = true → firstDifference (zip k l) = false.
Proof.
  revert k. induction l as [| a l IH]; intros [| b k]; simpl; try done.
  destruct (gt b a) eqn:Hba.
  - intros _. by rewrite (gt_asymmetric _ _ Hba).
  - destruct (gt a b) eqn:Hab; [done |]. apply IH.
Qed.

Lemma clean_idempotent (s : jsstring) : clean (clean s) = clean s.
Proof.
  unfold clean. induction s as [| c s IH]; simpl; [done |].
  destruct (isDigit c || (c =? DOT)%N) eqn:Hc; simpl; [| done].
  by rewrite Hc, IH.
Qed.

Lemma clean_app (s t : jsstring) : clean (s ++ t) = clean s ++ clean t.
Proof. unfold clean. apply List.filter_app. Qed.

Lemma clean_digits (s : jsstring) : forallb isDigit s = true → clean s = s.
Proof.
  unfold clean. induction s as [| c s IH]; simpl; [done |].
  intros H. apply andb_true_iff in H as [Hc Hs]. by rewrite Hc, IH.
Qed.

Lemma split_nonempty (sep : N) (s : jsstring) : split sep s ≠ [].
Proof.
  destruct s as [| c s]; simpl; [done |].
  destruct (c =? sep)%N; [done |]. by destruct (split sep s).
Qed.

Lemma split_app (sep : N) (s t : jsstring) :
  split sep (s ++ sep :: t) = split sep s ++ split sep t.
Proof.
  induction s as [| c s IH]; simpl.
  - by rewrite N.eqb_refl.
  - destruct (c =? sep)%N; [by rewrite IH |].
    rewrite IH. pose proof (split_nonempty sep s) as Hne.
    by destruct (split sep s).
Qed.

Lemma split_digits (s : jsstring) :
  forallb isDigit s = true → split DOT s = [s].
Proof.
  induction s as [| c s IH]; simpl; [done |].
  intros H. apply andb_true_iff in H as [Hc Hs].
  destruct (N.eqb_spec c DOT) as [-> | _]; [done |].
  by rewrite (IH Hs).
Qed.

(** Zeros at the end of both lists decide nothing. *)
Lemma firstDifference_zeros (l : list (jsnum * jsnum)) (k : nat) :
  firstDifference (l ++ replicate k (Fin 0, Fin 0)) = firstDifference l.
Proof.
  induction l as [| [d e] l IH]; simpl.
  - by induction k.
  - by rewrite IH.
Qed.

Lemma padZero_more (n n' : nat) (l : list jsnum) :
  length l ≤ n → n ≤ n' →
  padZero n' l = padZero n l ++ replicate (n' - n) (Fin 0).
Proof.
  intros Hl Hn. unfold padZero. rewrite <- app_assoc, <- replicate_add.
  do 2 f_equal. lia.
Qed.

(** The comparison of the padded lists does not depend on how far they
    are padded. *)
Lemma firstDifference_pad (n n' : nat) (cs ls : list jsnum) :
  length cs ≤ n → length ls ≤ n → n ≤ n' →
  firstDifference (zip (padZero n' cs) (padZero n' ls))
  = firstDifference (zip (padZero n cs) (padZero n ls)).
Proof.
  intros Hc Hl Hn.
  rewrite (padZero_more n n' cs), (padZero_more n n' ls) by done.
  rewrite zip_with_app by (by rewrite !padZero_length).
  rewrite zip_with_replicate. apply firstDifference_zeros.
Qed.

Lemma padZero_snoc (n : nat) (l : list jsnum) :
  length l < n → padZero n (l ++ [Fin 0]) = padZero n l.
Proof.
  intros Hl. unfold padZero. rewrite length_app, <- app_assoc. simpl.
  f_equal. replace (n - length l) with (S (n - (length l + 1))) by lia.
  done.
Qed.

Lemma compareComponents_snoc_l (cs ls : list jsnum) :
  compareComponents (cs ++ [Fin 0]) ls = compareComponents cs ls.
Proof.
  unfold compareComponents. rewrite length_app. simpl.
  rewrite padZero_snoc by lia.
  apply firstDifference_pad; lia.
Qed.

Lemma compareComponents_snoc_r (cs ls : list jsnum) :
  compareComponents cs (ls ++ [Fin 0]) = compareComponents cs ls.
Proof.
  unfold compareComponents. rewrite length_app. simpl.
  rewrite padZero_snoc by lia.
  apply firstDifference_pad; lia.
Qed.

Lemma isVersionOutdated_components (a b : jsstring) :
  clean a ≠ [] → clean b ≠ [] →
  isVersionOutdated (Some a) (Some b)
  = compareComponents (components a) (components b).
Proof.
  intros Ha Hb. rewrite isVersionOutdated_refines. simpl.
  destruct (clean a) eqn:Hca; [done |]. by destruct (clean b) eqn:Hcb.
Qed.

Lemma isVersionOutdated_empty_l (a : jsstring) (b : option jsstring) :
  clean a = [] → isVersionOutdated (Some a) b = false.
Proof.
  intros Ha. rewrite isVersionOutdated_refines.
  destruct b as [b |]; [| done]. simpl. by rewrite Ha.
Qed.

Lemma isVersionOutdated_empty_r (a : option jsstring) (b : jsstring) :
  clean b = [] → isVersionOutdated a (Some b) = false.
Proof.
  intros Hb. rewrite isVersionOutdated_refines.
  destruct a as [a |]; [| done]. simpl. rewrite Hb. by destruct (clean a).
Qed.

Lemma components_dot_zero (a : jsstring) :
  components (a ++ js ".0") = components a ++ [Fin 0].
Proof.
  unfold components. rewrite clean_app.
  change (clean (js ".0")) with (DOT :: js "0").
  rewrite split_app, map_app. reflexivity.
Qed.

End VersionOrder.

(** X1. The comparison is asymmetric: when the latest version is newer
    than the declared one, the declared one is not newer than the
    latest.  (So no version is newer than itself.) *)
Theorem isVersionOutdated_asymmetric (a b : option jsstring) :
  isVersionOutdated a b = true → isVersionOutdated b a = false.
Proof.
  rewrite !isVersionOutdated_refines.
  destruct a as [a |], b as [b |]; try done. simpl.
  destruct (clean a) as [| c cs] eqn:Ha; [done |].
  destruct (clean b) as [| d ds] eqn:Hb; [done |].
  rewrite (Nat.max_comm (length (components b))).
  apply firstDifference_flip.
Qed.

Lemma isVersionOutdated_asymmetric_witness :
  isVersionOutdated (Some (js "1.3.0")) (Some (js "1.2.3")) = false.
Proof.
  apply (isVersionOutdated_asymmetric (Some (js "1.2.3")) (Some (js "1.3.0"))).
  by vm_compute.
Defined.

(** X2. Only the digits and the dots of the two strings count: the
    verdict on two versions is the verdict on the two stripped of every
    other character (a caret, a tilde, an operator, a suffix). *)
Theorem isVersionOutdated_ignores_decoration (a b : jsstring) :
  isVersionOutdated (Some a) (Some b)
  = isVersionOutdated (Some (clean a)) (Some (clean b)).
Proof.
  rewrite !isVersionOutdated_refines. simpl.
  unfold components. by rewrite !clean_idempotent.
Qed.

(** X3. On versions of three components below 2^53 the comparison is the
    lexicographic order of the triples of numbers: outdated exactly when
    the latest triple is greater. *)
Theorem isVersionOutdated_three_components (d1 d2 d3 e1 e2 e3 : jsstring) :
  let declared := d1 ++ [DOT] ++ d2 ++ [DOT] ++ d3 in
  let latest := e1 ++ [DOT] ++ e2 ++ [DOT] ++ e3 in
  Forall (λ part, forallb isDigit part = true) [d1; d2; d3; e1; e2; e3] →
  Forall (λ part, (digitsValue part < 2 ^ 53)%N) [d1; d2; d3; e1; e2; e3] →
  isVersionOutdated (Some declared) (Some latest) = true
  ↔ (digitsValue d1 < digitsValue e1
     ∨ digitsValue d1 = digitsValue e1
       ∧ (digitsValue d2 < digitsValue e2
          ∨ digitsValue d2 = digitsValue e2
            ∧ digitsValue d3 < digitsValue e3))%N.
Proof.
  intros declared latest Hdigits Hbound.
  repeat (apply Forall_cons in Hdigits as [? Hdigits]).
  repeat (apply Forall_cons in Hbound as [? Hbound]).
  assert (Hparts : ∀ x y z : jsstring,
            forallb isDigit x = true → forallb isDigit y = true →
            forallb isDigit z = true →
            clean (x ++ [DOT] ++ y ++ [DOT] ++ z) = x ++ [DOT] ++ y ++ [DOT] ++ z
            ∧ split DOT (x ++ [DOT] ++ y ++ [DOT] ++ z) = [x; y; z]).
  { intros x y z Hx Hy Hz. split.
    - rewrite !clean_app, (clean_digits x), (clean_digits y), (clean_digits z)
        by done.
      reflexivity.
    - simpl. rewrite !split_app, (split_digits x), (split_digits y),
        (split_digits z) by done.
      reflexivity. }
  destruct (Hparts d1 d2 d3) as [Hcd Hsd]; [done .. |].
  destruct (Hparts e1 e2 e3) as [Hce Hse]; [done .. |].
  rewrite isVersionOutdated_components; cycle 1.
  { fold declared in Hcd. rewrite Hcd. subst declared. by destruct d1. }
  { fold latest in Hce. rewrite Hce. subst latest. by destruct e1. }
  unfold components. fold declared in Hcd, Hsd. fold latest in Hce, Hse.
  rewrite Hcd, Hce, Hsd, Hse. unfold compareComponents. simpl.
  rewrite !Number_exact by done. simpl.
  destruct (N.ltb_spec (digitsValue d1) (digitsValue e1)); [split; [lia | done] |].
  destruct (N.ltb_spec (digitsValue e1) (digitsValue d1)); [split; [done | lia] |].
  destruct (N.ltb_spec (digitsValue d2) (digitsValue e2)); [split; [lia | done] |].
  destruct (N.ltb_spec (digitsValue e2) (digitsValue d2)); [split; [done | lia] |].
  destruct (N.ltb_spec (digitsValue d3) (digitsValue e3)); [split; [lia | done] |].
  destruct (N.ltb_spec (digitsValue e3) (digitsValue d3)); split; (done || lia).
Qed.

Lemma isVersionOutdated_three_components_witness :
  isVersionOutdated (Some (js "1.9.12")) (Some (js "1.10.0")) = true.
Proof.
  apply (isVersionOutdated_three_components (js "1") (js "9") (js "12")
           (js "1") (js "10") (js "0")).
  - repeat constructor.
  - repeat constructor.
  - vm_compute. right. split; [reflexivity |]. by left.
Defined.

(** X4. A missing component counts as 0: appending [.0] to a version
    that has a digit or a dot changes the verdict on neither side. *)
Theorem isVersionOutdated_trailing_zero (a : jsstring) (b : option jsstring) :
  clean a ≠ [] →
  isVersionOutdated (Some (a ++ js ".0")) b = isVersionOutdated (Some a) b
  ∧ isVersionOutdated b (Some (a ++ js ".0")) = isVersionOutdated b (Some a).
Proof.
  intros Ha.
  assert (Ha0 : clean (a ++ js ".0") ≠ []).
  { rewrite clean_app. by destruct (clean a). }
  destruct b as [b |]; [| split; [done | by rewrite !isVersionOutdated_refines]].
  destruct (clean b) as [| c cs] eqn:Hb.
  - rewrite !(isVersionOutdated_empty_r _ b Hb).
    by rewrite !(isVersionOutdated_empty_l b _ Hb).
  - assert (Hb' : clean b ≠ []) by (by rewrite Hb).
    rewrite !isVersionOutdated_components by done.
    rewrite components_dot_zero.
    by rewrite compareComponents_snoc_l, compareComponents_snoc_r.
Qed.

Lemma isVersionOutdated_trailing_zero_witness :
  isVersionOutdated (Some (js "1.0" ++ js ".0")) (Some (js "1.0.1"))
  = isVersionOutdated (Some (js "1.0")) (Some (js "1.0.1")).
Proof.
  apply (isVersionOutdated_trailing_zero (js "1.0") (Some (js "1.0.1"))).
  by vm_compute.
Defined.

(** ** The version of a constraint, the range of a package *)

Section ExtractVersion.

Lemma spanDigits_spec (s : jsstring) :
  s = fst (spanDigits s) ++ snd (spanDigits s)
  ∧ forallb isDigit (fst (spanDigits s)) = true
  ∧ noDigitAhead (snd (spanDigits s)).
Proof.
  induction s as [| c s (IH1 & IH2 & IH3)]; simpl; [done |].
  destruct (isDigit c) eqn:Hc; [| done].
  destruct (spanDigits s) as [d r]. simpl in *.
  split_and!; [by f_equal | by rewrite Hc | done].
Qed.

(** A run of digits followed by something that is no digit is what
    [spanDigits] splits off. *)
Lemma spanDigits_run (d rest : jsstring) :
  forallb isDigit d = true → noDigitAhead rest →
  spanDigits (d ++ rest) = (d, rest).
Proof.
  intros Hd Hrest. induction d as [| c d IH]; simpl.
  - destruct rest as [| c rest]; [done |]. simpl in *. by rewrite Hrest.
  - simpl in Hd. apply andb_true_iff in Hd as [Hc Hd].
    by rewrite Hc, (IH Hd).
Qed.

Lemma matchVersionHere_Some (s m : jsstring) :
  matchVersionHere s = Some m →
  ∃ post, s = m ++ post ∧ versionShape m ∧ noDigitAhead post.
Proof.
  unfold matchVersionHere.
  destruct (spanDigits_spec s) as (Hs1 & Hd1 & _).
  destruct (spanDigits s) as [d1 r1]. simpl in *.
  destruct d1 as [| a1 d1]; [done |].
  destruct r1 as [| c1 r1]; [done |].
  destruct (N.eqb_spec c1 DOT) as [-> | _]; [| done].
  destruct (spanDigits_spec r1) as (Hs2 & Hd2 & _).
  destruct (spanDigits r1) as [d2 r2]. simpl in *.
  destruct d2 as [| a2 d2]; [done |].
  destruct r2 as [| c2 r2]; [done |].
  destruct (N.eqb_spec c2 DOT) as [-> | _]; [| done].
  destruct (spanDigits_spec r2) as (Hs3 & Hd3 & Hpost).
  destruct (spanDigits r2) as [d3 r3]. simpl in *.
  destruct d3 as [| a3 d3]; [done |].
  intros [= <-]. exists r3. split_and!.
  - rewrite Hs1, Hs2, Hs3. simpl. f_equal.
    repeat (rewrite <- app_assoc; simpl). reflexivity.
  - exists (a1 :: d1), (a2 :: d2), (a3 :: d3). by split_and!.
  - exact Hpost.
Qed.

Lemma digitRun_split (d rest : jsstring) :
  digitRun d → noDigitAhead rest →
  ∃ a d', d = a :: d' ∧ spanDigits (d ++ rest) = (a :: d', rest).
Proof.
  intros [Hne Hd] Hrest. destruct d as [| a d']; [done |].
  exists a, d'. split; [done |]. by apply spanDigits_run.
Qed.

Lemma matchVersionHere_begins (s : jsstring) :
  beginsVersion s → is_Some (matchVersionHere s).
Proof.
  intros (m & rest & (d1 & d2 & d3 & H1 & H2 & H3 & ->) & ->).
  unfold matchVersionHere.
  rewrite <- !app_assoc. simpl.
  destruct (digitRun_split d1 (DOT :: d2 ++ DOT :: d3 ++ rest) H1 eq_refl)
    as (a1 & d1' & -> & ->).
  rewrite N.eqb_refl.
  destruct (digitRun_split d2 (DOT :: d3 ++ rest) H2 eq_refl)
    as (a2 & d2' & -> & ->).
  rewrite N.eqb_refl.
  destruct H3 as [Hne3 Hd3]. destruct d3 as [| a3 d3']; [done |].
  simpl in Hd3. apply andb_true_iff in Hd3 as [Ha3 _].
  simpl. rewrite Ha3. destruct (spanDigits (d3' ++ rest)). by eexists.
Qed.

Lemma matchVersionHere_None (s : jsstring) :
  matchVersionHere s = None ↔ ¬ beginsVersion s.
Proof.
  split.
  - intros Hnone Hb. apply matchVersionHere_begins in Hb as [m Hm]. congruence.
  - intros Hb. destruct (matchVersionHere s) as [m |] eqn:Hm; [| done].
    exfalso. apply Hb. apply matchVersionHere_Some in Hm as (post & -> & Hv & _).
    by exists m, post.
Qed.

Lemma matchVersion_Some (s m : jsstring) :
  matchVersion s = Some m →
  ∃ pre post, s = pre ++ m ++ post ∧ versionShape m ∧ noDigitAhead post
              ∧ ∀ k, k < length pre → ¬ beginsVersion (drop k s).
Proof.
  induction s as [| c s IH]; simpl.
  - done.
  - destruct (matchVersionHere (c :: s)) as [m' |] eqn:Hh.
    + intros [= ->]. apply matchVersionHere_Some in Hh as (post & Hs & Hv & Hp).
      exists [], post. split_and!; [done | done | done |]. simpl. lia.
    + intros Hm. destruct (IH Hm) as (pre & post & -> & Hv & Hp & Hleft).
      exists (c :: pre), post. split_and!; [done | done | done |].
      intros [| k] Hk; simpl.
      * by apply matchVersionHere_None.
      * apply Hleft. simpl in Hk. lia.
Qed.

Lemma matchVersion_None (s : jsstring) :
  matchVersion s = None → ∀ k, ¬ beginsVersion (drop k s).
Proof.
  induction s as [| c s IH]; simpl.
  - intros _ k. rewrite drop_nil. by apply matchVersionHere_None.
  - destruct (matchVersionHere (c :: s)) eqn:Hh; [done |].
    intros Hm [| k]; simpl; [by apply matchVersionHere_None | by apply IH].
Qed.

Lemma versionShape_nonempty (m : jsstring) : versionShape m → m ≠ [].
Proof. intros (d1 & d2 & d3 & [H1 _] & _ & _ & ->). by destruct d1. Qed.

End ExtractVersion.

(** X5. [extractVersionFromConstraint] never returns the empty string:
    the comparison that follows always has a declared version to work
    on. *)
Theorem extractVersionFromConstraint_nonempty (constraint : jsstring) :
  extractVersionFromConstraint constraint ≠ [].
Proof.
  unfold extractVersionFromConstraint.
  destruct (nonEmpty constraint); simpl; [| done].
  destruct (matchVersion constraint) as [m |] eqn:Hm.
  - apply matchVersion_Some in Hm as (pre & post & _ & Hv & _).
    by apply versionShape_nonempty.
  - destruct (trim constraint) eqn:Ht; simpl; done.
Qed.

(** X6. What [extractVersionFromConstraint] returns.  Either the
    constraint holds a version [X.Y.Z] (three runs of digits joined by
    dots): then the result is the leftmost one, with its last run of
    digits taken whole.  Or it holds none: then the result is the
    constraint trimmed, and ["1.0.0"] when that is empty. *)
Theorem extractVersionFromConstraint_first_version (constraint : jsstring) :
  (∃ pre m post : jsstring,
      constraint = pre ++ m ++ post
      ∧ versionShape m
      ∧ noDigitAhead post
      ∧ (∀ k, k < length pre → ¬ beginsVersion (drop k constraint))
      ∧ extractVersionFromConstraint constraint = m)
  ∨ ((∀ k, ¬ beginsVersion (drop k constraint))
     ∧ extractVersionFromConstraint constraint
       = if nonEmpty (trim constraint) then trim constraint else js "1.0.0").
Proof.
  unfold extractVersionFromConstraint.
  destruct (matchVersion constraint) as [m |] eqn:Hm.
  - left. destruct (matchVersion_Some _ _ Hm) as (pre & post & Hc & Hv & Hp & Hl).
    exists pre, m, post. split_and!; try done.
    destruct constraint; [| done].
    destruct pre; [| done]. simpl in Hc.
    apply versionShape_nonempty in Hv. by destruct m.
  - right. split; [by apply matchVersion_None |].
    by destruct constraint.
Qed.

Section RangeFacts.
Variables packageName sectionName : jsstring.

Lemma trimStart_blank (l : jsstring) :
  (searchNonSpace l < 0)%Z → trimStart l = [].
Proof.
  induction l as [| c l IH]; simpl; [done |].
  destruct (isSpace c); [| lia].
  destruct (Z.ltb_spec (searchNonSpace l) 0); [intros _; by apply IH | lia].
Qed.

Lemma names_indent (l : jsstring) :
  names packageName l = true → (0 <= searchNonSpace l)%Z.
Proof.
  intros Hn. destruct (Z.le_gt_cases 0 (searchNonSpace l)) as [| Hlt]; [done |].
  unfold names, trim in Hn. rewrite (trimStart_blank l) in Hn by lia.
  simpl in Hn. by destruct packageName.
Qed.

End RangeFacts.

(** X7. A range that [findPackageRange] returns is the range of a line
    of the document, from its first character that is not white space
    (a column that is not negative) to its end; the line begins, white
    space aside, with the name and a colon, and a header of the section
    stands on an earlier line. *)
Theorem findPackageRange_sound (document packageName sectionName : jsstring)
    (r : Range) :
  findPackageRange document packageName sectionName = Some r →
  ∃ (j k : nat) (l h : jsstring),
    split NEWLINE document !! j = Some l
    ∧ r = rangeOfLine j l
    ∧ names packageName l = true
    ∧ (0 <= character (start r) <= character (end_ r))%Z
    ∧ k < j
    ∧ split NEWLINE document !! k = Some h
    ∧ isHeader sectionName h.
Proof.
  intros H. unfold findPackageRange in H.
  apply scanLines_sound in H as (j & l & Hj & Hn & -> & Hsec).
  destruct Hsec as [? | (k & h & Hk & Hh & Hhd)]; [done |].
  exists j, k, l, h. split_and!; try done.
  - simpl. by apply (names_indent packageName).
  - simpl. apply searchNonSpace_bounds.
Qed.

Lemma findPackageRange_sound_witness :
  ∃ (j k : nat) (l h : jsstring),
    split NEWLINE Samples.manifest !! j = Some l
    ∧ rangeOfLine 3 (js "  bar: ^2.0.0") = rangeOfLine j l
    ∧ names (js "bar") l = true
    ∧ (0 <= character (start (rangeOfLine 3 (js "  bar: ^2.0.0")))
       <= character (end_ (rangeOfLine 3 (js "  bar: ^2.0.0"))))%Z
    ∧ k < j
    ∧ split NEWLINE Samples.manifest !! k = Some h
    ∧ isHeader (js "dev_dependencies") h.
Proof.
  apply (findPackageRange_sound Samples.manifest (js "bar")
           (js "dev_dependencies")).
  by vm_compute.
Defined.

(** ** The cache: removal, other keys, the snapshot *)

Section CacheMore.
Context {T : Type}.
Implicit Types (st : CacheService.t T) (key other : jsstring).
Implicit Types (now : Z).

Lemma get_cache_other now key other st :
  key ≠ other →
  CacheService.cache (snd (CacheService.get now key st)) !! other
  = CacheService.cache st !! other.
Proof.
  intros Hne. unfold CacheService.get.
  destruct (CacheService.cache st !! key) as [entry |]; [| done].
  destruct (CacheService.expired now entry); [| done].
  simpl. by rewrite lookup_delete_ne.
Qed.

(** What [get] answers depends on the entry under the key alone. *)
Lemma get_fst_lookup now key st st' :
  CacheService.cache st !! key = CacheService.cache st' !! key →
  fst (CacheService.get now key st) = fst (CacheService.get now key st').
Proof.
  intros H. unfold CacheService.get. rewrite H.
  destruct (CacheService.cache st' !! key) as [entry |]; [| done].
  by destruct (CacheService.expired now entry).
Qed.

Lemma get_flushed now key st :
  flushed st → flushed (snd (CacheService.get now key st)).
Proof.
  intros H. unfold CacheService.get.
  destruct (CacheService.cache st !! key) as [entry |]; [| done].
  by destruct (CacheService.expired now entry).
Qed.

(** When the sweep reports no change it has changed nothing. *)
Lemma cleanStep_fold_unchanged now
    (m0 m : gmap (list N) (CacheService.CacheEntry T)) :
  snd (map_fold (CacheService.cleanStep now) (m0, false) m) = false →
  fst (map_fold (CacheService.cleanStep now) (m0, false) m) = m0.
Proof.
  apply (map_fold_weak_ind (λ r _, snd r = false → fst r = m0)); [done |].
  intros i x m' r _ IH. unfold CacheService.cleanStep.
  destruct (CacheService.expired now x); [done | exact IH].
Qed.

Lemma cleanExpiredEntries_flushed now st :
  flushed st → flushed (CacheService.cleanExpiredEntries now st).
Proof.
  unfold flushed, CacheService.cleanExpiredEntries. intros H.
  pose proof (cleanStep_fold_unchanged now (CacheService.cache st)
                (CacheService.cache st)) as Hsame.
  destruct (map_fold _ _ _) as [cache' [|]]; simpl in *; [done |].
  by rewrite Hsame.
Qed.

Lemma new_flushed now
    (storage : option (gmap (list N) (CacheService.CacheEntry T))) :
  flushed (CacheService.new now storage).
Proof.
  unfold CacheService.new, CacheService.loadCacheFromStorage.
  by apply cleanExpiredEntries_flushed.
Qed.

End CacheMore.

(** X8. After [delete(k)] the key is gone: [get(k)] answers [null] at
    any time and leaves the cache as it is, and what [get] answers for
    any other key is what it answered before.  After [clear()] every
    key is gone. *)
Theorem cache_delete_clear (T : Type) (now : Z) (key other : jsstring)
    (st : CacheService.t T) :
  CacheService.get now key (CacheService.delete key st)
  = (None, CacheService.delete key st)
  ∧ (key ≠ other →
     fst (CacheService.get now other (CacheService.delete key st))
     = fst (CacheService.get now other st))
  ∧ CacheService.get now key (CacheService.clear st)
    = (None, CacheService.clear st).
Proof.
  split_and!.
  - apply get_absent. simpl. apply lookup_delete_eq.
  - intros Hne. apply get_fst_lookup. simpl. by apply lookup_delete_ne.
  - by apply get_absent.
Qed.

Lemma cache_delete_clear_witness :
  let st := CacheService.set None 0 0 (js "a") (Some 1) None
              (CacheService.set None 0 0 (js "b") (Some 2) None
                 (CacheService.new 0 None)) in
  fst (CacheService.get 5 (js "b") (CacheService.delete (js "a") st))
  = fst (CacheService.get 5 (js "b") st).
Proof.
  intros st.
  destruct (cache_delete_clear nat 5%Z (js "a") (js "b") st) as (_ & H & _).
  apply H. by vm_compute.
Defined.

(** X9. Keys do not disturb one another: what [get] answers for a key
    is the same after [set] on another key, and after a [get] on another
    key, whether or not that one evicts its entry. *)
Theorem cache_other_keys (T : Type) (cfg : option Z) (t0 t1 now now' : Z)
    (key other : jsstring) (value : option T) (seconds : option Z)
    (st : CacheService.t T) :
  key ≠ other →
  fst (CacheService.get now other
         (CacheService.set cfg t0 t1 key value seconds st))
  = fst (CacheService.get now other st)
  ∧ fst (CacheService.get now other (snd (CacheService.get now' key st)))
    = fst (CacheService.get now other st).
Proof.
  intros Hne. split.
  - apply get_fst_lookup. simpl. by apply lookup_insert_ne.
  - apply get_fst_lookup. by apply get_cache_other.
Qed.

Lemma cache_other_keys_witness :
  let st := CacheService.set None 0 0 (js "b") (Some 2) None
              (CacheService.new 0 None) in
  fst (CacheService.get 5 (js "b")
         (CacheService.set None 1 1 (js "a") (Some 1) (Some 1%Z) st))
  = fst (CacheService.get 5 (js "b") st).
Proof.
  intros st.
  apply (cache_other_keys nat None 1%Z 1%Z 5%Z 5%Z (js "a") (js "b") (Some 1)
           (Some 1%Z) st).
  by vm_compute.
Defined.

(** X10. The snapshot follows the map.  A service just constructed, and
    the service after [set], [delete] or [clear], has in the global
    state exactly its map; [get] and [has] keep it so; and a service
    constructed from that state has the entries of the map that have not
    expired, and no other. *)
Theorem cache_snapshot_invariant (T : Type) :
  (∀ (now : Z) (storage : option (gmap (list N) (CacheService.CacheEntry T))),
      flushed (CacheService.new now storage))
  ∧ (∀ (cfg : option Z) (t0 t1 : Z) (key : jsstring) (value : option T)
       (seconds : option Z) (st : CacheService.t T),
      flushed (CacheService.set cfg t0 t1 key value seconds st))
  ∧ (∀ (key : jsstring) (st : CacheService.t T),
      flushed (CacheService.delete key st) ∧ flushed (CacheService.clear st))
  ∧ (∀ (now : Z) (key : jsstring) (st : CacheService.t T),
      flushed st →
      flushed (snd (CacheService.get now key st))
      ∧ flushed (snd (CacheService.has now key st)))
  ∧ (∀ (now : Z) (key : jsstring) (st : CacheService.t T),
      flushed st →
      CacheService.cache (CacheService.new now (CacheService.globalState st))
        !! key
      = entry ← CacheService.cache st !! key;
        if (CacheService.expiresAt entry <? now)%Z then None else Some entry).
Proof.
  split_and!.
  - intros now storage. apply new_flushed.
  - done.
  - done.
  - intros now key st H. split; [by apply get_flushed |].
    unfold CacheService.has.
    pose proof (get_flushed now key st H) as H'.
    by destruct (CacheService.get now key st) as [[v |] st'].
  - intros now key st H. rewrite new_lookup. unfold flushed in H. by rewrite H.
Qed.

Lemma cache_snapshot_invariant_witness :
  let st := CacheService.set None 0 0 (js "k") (Some 7) None
              (CacheService.new 0 None) in
  flushed (snd (CacheService.get 5 (js "k") st))
  ∧ CacheService.cache (CacheService.new 5 (CacheService.globalState st))
      !! js "k"
    = entry ← CacheService.cache st !! js "k";
      if (CacheService.expiresAt entry <? 5)%Z then None else Some entry.
Proof.
  intros st.
  destruct (cache_snapshot_invariant nat) as (_ & _ & _ & Hget & Hnew).
  split.
  - apply (Hget 5%Z (js "k") st). reflexivity.
  - apply (Hnew 5%Z (js "k") st). reflexivity.
Defined.

(** ** The registry client: the cache at work *)

Section RegistryCache.
Variable env : Env.

Lemma cacheHit_disabled (key : jsstring) (w : World) :
  default true (enableCache env) = false →
  PubApiService.cacheHit env key w = (Return false, w).
Proof.
  intros H. unfold PubApiService.cacheHit, cacheIsEnabled.
  rewrite bind_run. simpl. by rewrite H.
Qed.

(** A hit: the entry is there, holds a value, and has not expired at
    the reading of the clock. *)
Lemma cacheHit_fresh (key : jsstring) (w : World)
    (entry : CacheService.CacheEntry PubData) (d : PubData) :
  default true (enableCache env) = true →
  CacheService.cache (cacheService w) !! key = Some entry →
  CacheService.data entry = Some d →
  (Date_now env (clock w) <= CacheService.expiresAt entry)%Z →
  PubApiService.cacheHit env key w = (Return true, setClock (S (clock w)) w).
Proof.
  intros Hen Hentry Hdata Hfresh.
  unfold PubApiService.cacheHit, cacheIsEnabled.
  rewrite bind_run. simpl. rewrite Hen.
  unfold cacheHas, dateNow, onCache. rewrite bind_run. simpl.
  unfold CacheService.has.
  rewrite (get_fresh _ _ _ _ Hentry Hfresh), Hdata. reflexivity.
Qed.

Lemma cacheGet_fresh (key : jsstring) (w : World)
    (entry : CacheService.CacheEntry PubData) :
  CacheService.cache (cacheService w) !! key = Some entry →
  (Date_now env (clock w) <= CacheService.expiresAt entry)%Z →
  cacheGet env key w
  = (Return (CacheService.data entry), setClock (S (clock w)) w).
Proof.
  intros Hentry Hfresh. unfold cacheGet, dateNow, onCache.
  rewrite bind_run. simpl.
  rewrite (get_fresh _ _ _ _ Hentry Hfresh). reflexivity.
Qed.

(** A look into the cache leaves the log of requests, the window and
    the console alone. *)
Lemma cacheHit_quiet (key : jsstring) (w : World) :
  ∃ (hit : bool) (w' : World),
    PubApiService.cacheHit env key w = (Return hit, w')
    ∧ requests w' = requests w ∧ window w' = window w
    ∧ console w' = console w
    ∧ (default true (enableCache env) = false → w' = w).
Proof.
  unfold PubApiService.cacheHit, cacheIsEnabled, cacheHas.
  rewrite bind_run. simpl.
  destruct (default true (enableCache env)); [| by eexists _, _].
  rewrite bind_run. simpl. unfold onCache. simpl.
  destruct (CacheService.has _ _ _) as [b c]. by eexists _, _.
Qed.

Lemma cacheSet_run (key : jsstring) (value : PubData) (seconds : option Z)
    (w : World) :
  cacheSet env key value seconds w
  = (Return tt,
     setCacheService
       (CacheService.set (cacheExpiration env) (Date_now env (clock w))
          (Date_now env (S (clock w))) key (Some value) seconds
          (cacheService w))
       (setClock (S (S (clock w))) w)).
Proof. reflexivity. Qed.

(** [getPackageDetails] when the answer has to be fetched and is. *)
Lemma getPackageDetails_fetched (packageName : jsstring) (w w1 : World)
    (response : PubPackageDetails) :
  let cacheKey := js "package:" ++ packageName in
  let request :=
    GetPackage (PubApiService.baseUrl ++ js "/packages/" ++ packageName) 10000 in
  PubApiService.cacheHit env cacheKey w = (Return false, w1) →
  requests w1 = requests w →
  axios_package env (length (requests w)) request = inr response →
  PubApiService.getPackageDetails env packageName w
  = (Return (Some (Details response)),
     if default true (enableCache env)
     then setCacheService
            (CacheService.set (cacheExpiration env) (Date_now env (clock w1))
               (Date_now env (S (clock w1))) cacheKey (Some (Details response))
               (Some 3600%Z) (cacheService w1))
            (setClock (S (S (clock w1)))
               (setRequests (requests w ++ [request]) w1))
     else setRequests (requests w ++ [request]) w1).
Proof.
  intros cacheKey request Hhit Hreq Hok.
  unfold PubApiService.getPackageDetails. fold cacheKey.
  rewrite bind_run, Hhit. cbv beta iota.
  unfold tryCatch. rewrite bind_run.
  unfold axiosGetPackage. rewrite Hreq. fold request. rewrite Hok.
  cbv beta iota. rewrite bind_run. unfold cacheIsEnabled. simpl.
  destruct (default true (enableCache env)); reflexivity.
Qed.

End RegistryCache.

(** X11. A value in the cache is returned without a request.  With the
    cache enabled, when the key of the call has an entry that holds a
    value and has not expired at the two readings of the clock that the
    call makes, [getPackageDetails] and [searchPackages] return that
    value, send nothing, and change nothing but the clock. *)
Theorem registry_cache_hit (env : Env) (w : World)
    (entry : CacheService.CacheEntry PubData) (d : PubData) :
  default true (enableCache env) = true →
  CacheService.data entry = Some d →
  (Date_now env (clock w) <= CacheService.expiresAt entry)%Z →
  (Date_now env (S (clock w)) <= CacheService.expiresAt entry)%Z →
  (∀ packageName : jsstring,
      CacheService.cache (cacheService w) !! (js "package:" ++ packageName)
      = Some entry →
      PubApiService.getPackageDetails env packageName w
      = (Return (Some d), setClock (S (S (clock w))) w))
  ∧ (∀ (query : jsstring) (page : option N),
      CacheService.cache (cacheService w)
        !! (js "search:" ++ query ++ js ":"
            ++ PubApiService.numberToString (default 1%N page))
      = Some entry →
      PubApiService.searchPackages env query page w
      = (Return d, setClock (S (S (clock w))) w)).
Proof.
  intros Hen Hdata Hfresh Hfresh'. split.
  - intros packageName Hentry.
    unfold PubApiService.getPackageDetails.
    rewrite bind_run, (cacheHit_fresh env _ _ _ _ Hen Hentry Hdata Hfresh).
    cbv beta iota. rewrite cacheGet_fresh with (entry := entry); [| done | done].
    by rewrite Hdata.
  - intros query page Hentry.
    unfold PubApiService.searchPackages. cbv zeta.
    rewrite bind_run, (cacheHit_fresh env _ _ _ _ Hen Hentry Hdata Hfresh).
    cbv beta iota. rewrite bind_run.
    rewrite cacheGet_fresh with (entry := entry); [| done | done].
    by rewrite Hdata.
Qed.

(** X12. [getPackageDetails] when the cache does not answer and the
    request succeeds: it returns the data of the response, having sent
    that one request; with the cache enabled the data is then in the
    cache under [package:name], to expire 3600 seconds after the last
    reading of the clock, whatever expiration is configured; with the
    cache disabled the cache is as before. *)
Theorem getPackageDetails_fetches_and_caches (env : Env) (w : World)
    (packageName : jsstring) (response : PubPackageDetails) :
  let cacheKey := js "package:" ++ packageName in
  let request :=
    GetPackage (PubApiService.baseUrl ++ js "/packages/" ++ packageName) 10000 in
  let after := snd (PubApiService.getPackageDetails env packageName w) in
  fst (PubApiService.cacheHit env cacheKey w) = Return false →
  axios_package env (length (requests w)) request = inr response →
  fst (PubApiService.getPackageDetails env packageName w)
  = Return (Some (Details response))
  ∧ requests after = requests w ++ [request]
  ∧ (default true (enableCache env) = true →
     ∃ entry, CacheService.cache (cacheService after) !! cacheKey = Some entry
              ∧ CacheService.data entry = Some (Details response)
              ∧ CacheService.expiresAt entry
                = (Date_now env (pred (clock after)) + 3600 * 1000)%Z)
  ∧ (default true (enableCache env) = false →
     cacheService after = cacheService w).
Proof.
  intros cacheKey request after Hmiss Hok.
  destruct (cacheHit_quiet env cacheKey w) as (hit & w1 & Hhit & Hreq & _ & _ & Hoff).
  rewrite Hhit in Hmiss. simpl in Hmiss. injection Hmiss as ->.
  subst after.
  rewrite (getPackageDetails_fetched env packageName w w1 response Hhit Hreq Hok).
  fold cacheKey. fold request.
  destruct (default true (enableCache env)) eqn:Hen; simpl.
  - split_and!; [done | done | | done].
    intros _. eexists. split_and!; [apply lookup_insert_eq | done | done].
  - split_and!; [done | done | done |]. intros _. by rewrite Hoff.
Qed.

Lemma getPackageDetails_fetches_and_caches_witness :
  fst (PubApiService.getPackageDetails (Samples.registry (js "1.2.0"))
         (js "http") Samples.start)
  = Return (Some (Details (Samples.detailsOf (js "pkg") (js "1.2.0")))).
Proof.
  destruct (getPackageDetails_fetches_and_caches (Samples.registry (js "1.2.0"))
              Samples.start (js "http")
              (Samples.detailsOf (js "pkg") (js "1.2.0"))) as [H _].
  - by vm_compute.
  - reflexivity.
  - exact H.
Defined.

Lemma registry_cache_hit_witness :
  let env := Samples.registry (js "1.2.0") in
  let w := snd (PubApiService.getPackageDetails env (js "http") Samples.start) in
  PubApiService.getPackageDetails env (js "http") w
  = (Return (Some (Details (Samples.detailsOf (js "pkg") (js "1.2.0")))),
     setClock (S (S (clock w))) w).
Proof.
  intros env w.
  destruct (registry_cache_hit env w
              {| CacheService.data :=
                   Some (Details (Samples.detailsOf (js "pkg") (js "1.2.0")));
                 CacheService.timestamp := 1000;
                 CacheService.expiresAt := 3602000 |}
              (Details (Samples.detailsOf (js "pkg") (js "1.2.0")))) as [H _].
  - reflexivity.
  - reflexivity.
  - by vm_compute.
  - by vm_compute.
  - apply H. by vm_compute.
Defined.

(** X13. A second [getPackageDetails] is answered from the cache.
    After a call that fetched the details, with the cache enabled, a
    call for the same package whose two readings of the clock are not
    later than 3600 seconds after the last reading of the first call
    returns the same details and sends no request. *)
Theorem getPackageDetails_twice (env : Env) (w : World)
    (packageName : jsstring) (response : PubPackageDetails) :
  let cacheKey := js "package:" ++ packageName in
  let request :=
    GetPackage (PubApiService.baseUrl ++ js "/packages/" ++ packageName) 10000 in
  let w1 := snd (PubApiService.getPackageDetails env packageName w) in
  let expiry := (Date_now env (pred (clock w1)) + 3600 * 1000)%Z in
  default true (enableCache env) = true →
  fst (PubApiService.cacheHit env cacheKey w) = Return false →
  axios_package env (length (requests w)) request = inr response →
  (Date_now env (clock w1) <= expiry)%Z →
  (Date_now env (S (clock w1)) <= expiry)%Z →
  fst (PubApiService.getPackageDetails env packageName w1)
  = Return (Some (Details response))
  ∧ requests (snd (PubApiService.getPackageDetails env packageName w1))
    = requests w1.
Proof.
  intros cacheKey request w1 expiry Hen Hmiss Hok Hfresh Hfresh'.
  destruct (cacheHit_quiet env cacheKey w) as (hit & w0 & Hhit & Hreq & _).
  rewrite Hhit in Hmiss. simpl in Hmiss. injection Hmiss as ->.
  pose proof (getPackageDetails_fetched env packageName w w0 response Hhit Hreq
                Hok) as Hrun.
  cbv zeta in Hrun. rewrite Hen in Hrun.
  assert (Hw1 : w1 = snd (PubApiService.getPackageDetails env packageName w))
    by done.
  rewrite Hrun in Hw1. simpl in Hw1.
  set (entry := {| CacheService.data := Some (Details response);
                   CacheService.timestamp := Date_now env (clock w0);
                   CacheService.expiresAt :=
                     (Date_now env (S (clock w0)) + 3600 * 1000)%Z |}).
  assert (Hentry : CacheService.cache (cacheService w1) !! cacheKey = Some entry).
  { rewrite Hw1. simpl. apply lookup_insert_eq. }
  assert (Hexp : expiry = CacheService.expiresAt entry).
  { subst expiry. rewrite Hw1. reflexivity. }
  rewrite Hexp in Hfresh, Hfresh'.
  unfold PubApiService.getPackageDetails. fold cacheKey.
  rewrite bind_run, (cacheHit_fresh env _ _ _ _ Hen Hentry eq_refl Hfresh).
  cbv beta iota.
  rewrite cacheGet_fresh with (entry := entry); [| done | done].
  done.
Qed.

Lemma getPackageDetails_twice_witness :
  let env := Samples.registry (js "1.2.0") in
  let w1 := snd (PubApiService.getPackageDetails env (js "http") Samples.start) in
  requests (snd (PubApiService.getPackageDetails env (js "http") w1))
  = requests w1.
Proof.
  intros env w1.
  destruct (getPackageDetails_twice env Samples.start (js "http")
              (Samples.detailsOf (js "pkg") (js "1.2.0"))) as [_ H].
  - reflexivity.
  - by vm_compute.
  - reflexivity.
  - by vm_compute.
  - by vm_compute.
  - exact H.
Defined.

(** ** The registry client: what it reports and what it leaves alone *)

Section KeepsCache.

Lemma keepsCache_ret {A} (a : A) : keepsCache (mret a : M A).
Proof. by intros w. Qed.

Lemma keepsCache_throw {A} (e : Error) : keepsCache (throw e : M A).
Proof. by intros w. Qed.

Lemma keepsCache_bind {A B} (m : M A) (f : A → M B) :
  keepsCache m → (∀ a, keepsCache (f a)) → keepsCache (m ≫= f).
Proof.
  intros Hm Hf w. rewrite bind_run. specialize (Hm w).
  destruct (m w) as [[a | e] w']; simpl in *; [| done].
  by rewrite Hf.
Qed.

Lemma keepsCache_tryCatch {A} (m : M A) (h : Error → M A) :
  keepsCache m → (∀ e, keepsCache (h e)) → keepsCache (tryCatch m h).
Proof.
  intros Hm Hh w. unfold tryCatch. specialize (Hm w).
  destruct (m w) as [[a | e] w']; simpl in *; [done |].
  by rewrite Hh.
Qed.

Lemma keepsCache_modify (f : World → World) :
  (∀ w, cacheService (f w) = cacheService w) → keepsCache (modify f).
Proof. intros H w. apply H. Qed.

Lemma keepsCache_axiosGetPackage env r : keepsCache (axiosGetPackage env r).
Proof. intros w. unfold axiosGetPackage. by destruct (axios_package _ _ _). Qed.

Lemma keepsCache_axiosGetSearch env r : keepsCache (axiosGetSearch env r).
Proof. intros w. unfold axiosGetSearch. by destruct (axios_search _ _ _). Qed.

Variable env : Env.
Hypothesis disabled : default true (enableCache env) = false.

Lemma keepsCache_cacheHit key : keepsCache (PubApiService.cacheHit env key).
Proof using disabled. intros w. by rewrite cacheHit_disabled. Qed.

Lemma keepsCache_getPackageDetails name :
  keepsCache (PubApiService.getPackageDetails env name).
Proof using disabled.
  intros w. unfold PubApiService.getPackageDetails.
  rewrite bind_run, cacheHit_disabled by done. cbv beta iota.
  revert w. apply keepsCache_tryCatch.
  - apply keepsCache_bind; [apply keepsCache_axiosGetPackage | intros response].
    unfold cacheIsEnabled. intros w. rewrite bind_run. simpl.
    by rewrite disabled.
  - intros e. apply keepsCache_bind; [by apply keepsCache_modify |].
    intros ?. apply keepsCache_ret.
Qed.

Lemma keepsCache_getLatestVersion name :
  keepsCache (PubApiService.getLatestVersion env name).
Proof using disabled.
  apply keepsCache_bind; [apply keepsCache_getPackageDetails |].
  intros ?. apply keepsCache_ret.
Qed.

Lemma keepsCache_convertLoop results packages :
  keepsCache (PubApiService.convertLoop env results packages).
Proof using disabled.
  revert packages. induction results as [| result rest IH]; intros packages.
  - apply keepsCache_ret.
  - simpl. apply keepsCache_bind; [apply keepsCache_getPackageDetails |].
    intros [[l | d] |]; [apply keepsCache_throw | apply IH | apply IH].
Qed.

Lemma keepsCache_searchPackages query page :
  keepsCache (PubApiService.searchPackages env query page).
Proof using disabled.
  intros w. unfold PubApiService.searchPackages. cbv zeta.
  rewrite bind_run, cacheHit_disabled by done. cbv beta iota.
  revert w. apply keepsCache_tryCatch.
  - apply keepsCache_bind; [apply keepsCache_axiosGetSearch | intros response].
    apply keepsCache_bind; [apply keepsCache_convertLoop | intros packages].
    unfold cacheIsEnabled. intros w. rewrite bind_run. simpl.
    by rewrite disabled.
  - intros e. apply keepsCache_bind; [by apply keepsCache_modify | intros ?].
    apply keepsCache_bind; [by apply keepsCache_modify | intros ?].
    apply keepsCache_ret.
Qed.

Lemma keepsCache_checkLoop dependencies keys updates :
  keepsCache (PubApiService.checkLoop env dependencies keys updates).
Proof using disabled.
  revert updates. induction keys as [| key rest IH]; intros updates.
  - apply keepsCache_ret.
  - simpl. apply keepsCache_bind; [apply keepsCache_getLatestVersion |].
    intros [latest |]; [| apply IH].
    destruct (isVersionOutdated _ _); apply IH.
Qed.

End KeepsCache.

(** X14. With [smartPub.enableCache] set to false the registry client
    does not touch the cache: after [searchPackages],
    [getPackageDetails], [getLatestVersion] and [checkForUpdates] the
    cache service is what it was, map and snapshot. *)
Theorem registry_cache_disabled (env : Env) (w : World) :
  enableCache env = Some false →
  (∀ query page,
      cacheService (snd (PubApiService.searchPackages env query page w))
      = cacheService w)
  ∧ (∀ packageName,
      cacheService (snd (PubApiService.getPackageDetails env packageName w))
      = cacheService w)
  ∧ (∀ packageName,
      cacheService (snd (PubApiService.getLatestVersion env packageName w))
      = cacheService w)
  ∧ (∀ dependencies,
      cacheService (snd (PubApiService.checkForUpdates env dependencies w))
      = cacheService w).
Proof.
  intros Hoff.
  assert (disabled : default true (enableCache env) = false) by (by rewrite Hoff).
  split_and!.
  - intros query page. by apply keepsCache_searchPackages.
  - intros packageName. by apply keepsCache_getPackageDetails.
  - intros packageName. by apply keepsCache_getLatestVersion.
  - intros dependencies. by apply keepsCache_checkLoop.
Qed.

Lemma registry_cache_disabled_witness :
  cacheService
    (snd (PubApiService.getPackageDetails (uncachedRegistry (js "1.2.0"))
            (js "http") Samples.start))
  = cacheService Samples.start.
Proof.
  destruct (registry_cache_disabled (uncachedRegistry (js "1.2.0"))
              Samples.start) as (_ & H & _).
  - reflexivity.
  - apply H.
Defined.

Section Updates.
Variable env : Env.

(** [getLatestVersion] returns, and what it returns is [null] or a
    string that is not empty. *)
Lemma getLatestVersion_spec (packageName : jsstring) (w : World) :
  ∃ (latest : option jsstring) (w' : World),
    PubApiService.getLatestVersion env packageName w = (Return latest, w')
    ∧ ∀ l, latest = Some l → l ≠ [].
Proof.
  destruct (safe_getPackageDetails env packageName w) as (details & w' & Hrun & _).
  unfold PubApiService.getLatestVersion. rewrite bind_run, Hrun.
  eexists _, w'. split; [reflexivity |].
  intros l. destruct details as [[pkgs | d] |]; try done.
  destruct (latest_version d) eqn:Hv; simpl; [done |].
  by intros [= <-].
Qed.

Lemma checkLoop_spec (dependencies : gmap (list N) (list N))
    (keys : list jsstring) :
  ∀ (updates : gmap (list N) (list N)) (w : World),
  ∃ (updates' : gmap (list N) (list N)) (w' : World),
    PubApiService.checkLoop env dependencies keys updates w
    = (Return updates', w')
    ∧ ∀ name latest, updates' !! name = Some latest →
        updates !! name = Some latest
        ∨ (name ∈ keys ∧ latest ≠ []
           ∧ isVersionOutdated (dependencies !! name) (Some latest) = true).
Proof.
  induction keys as [| key rest IH]; intros updates w.
  - exists updates, w. split; [done |]. by left.
  - destruct (getLatestVersion_spec key w) as (latest & w1 & Hrun & Hne).
    cbn [PubApiService.checkLoop]. rewrite bind_run, Hrun. cbv beta iota.
    assert (Hskip : ∃ updates' w',
              PubApiService.checkLoop env dependencies rest updates w1
              = (Return updates', w')
              ∧ ∀ name l, updates' !! name = Some l →
                  updates !! name = Some l
                  ∨ (name ∈ key :: rest ∧ l ≠ []
                     ∧ isVersionOutdated (dependencies !! name) (Some l) = true)).
    { destruct (IH updates w1) as (updates' & w' & Hloop & Hspec).
      exists updates', w'. split; [done |].
      intros name l Hl. destruct (Hspec name l Hl) as [? | (Hin & ? & ?)];
        [by left | right]. split_and!; [| done | done].
      apply elem_of_cons. by right. }
    destruct latest as [l |]; [| exact Hskip].
    destruct (isVersionOutdated (dependencies !! key) (Some l)) eqn:Hout;
      [| exact Hskip].
    destruct (IH (<[key := l]> updates) w1) as (updates' & w' & Hloop & Hspec).
    exists updates', w'. split; [done |].
    intros name l' Hl'. destruct (Hspec name l' Hl') as [Hold | (Hin & ? & ?)].
    + destruct (decide (key = name)) as [-> | Hne'].
      * rewrite lookup_insert_eq in Hold. injection Hold as <-.
        right. split_and!; [apply elem_of_cons; by left | by apply Hne | done].
      * rewrite lookup_insert_ne in Hold by done. by left.
    + right. split_and!; [| done | done]. apply elem_of_cons. by right.
Qed.

End Updates.

(** X15. [checkForUpdates] returns (a failing request is not thrown on),
    and reports nothing that is not so: every entry of the result is
    for a declared package, its version is not empty, and
    [isVersionOutdated] holds of the declared constraint and that
    version. *)
Theorem checkForUpdates_sound (env : Env)
    (dependencies : gmap (list N) (list N)) (w : World) :
  ∃ (updates : gmap (list N) (list N)) (w' : World),
    PubApiService.checkForUpdates env dependencies w = (Return updates, w')
    ∧ ∀ name latest, updates !! name = Some latest →
        latest ≠ []
        ∧ ∃ constraint, dependencies !! name = Some constraint
            ∧ isVersionOutdated (Some constraint) (Some latest) = true.
Proof.
  unfold PubApiService.checkForUpdates.
  destruct (checkLoop_spec env dependencies (fst <$> map_to_list dependencies)
              ∅ w) as (updates & w' & Hrun & Hspec).
  exists updates, w'. split; [done |].
  intros name latest Hl.
  destruct (Hspec name latest Hl) as [Hempty | (Hin & Hne & Hout)];
    [by rewrite lookup_empty in Hempty |].
  split; [done |].
  apply list_elem_of_fmap in Hin as ([name' constraint] & -> & Hin).
  apply elem_of_map_to_list in Hin. exists constraint. split; [done |].
  simpl in Hout. by rewrite Hin in Hout.
Qed.

Section Conversion.
Variable env : Env.

(** What [convertSearchResultsToPackages] pushes is, in order, a
    package for some of the results, under the name of the result. *)
Lemma convertLoop_sublist (results : list PubPackageSearchResult) :
  ∀ (packages r : list PubPackage) (w w' : World),
    PubApiService.convertLoop env results packages w = (Return r, w') →
    ∃ added, r = packages ++ added
             ∧ sublist (PubTypes.name <$> added) (package <$> results).
Proof.
  induction results as [| result rest IH]; intros packages r w w'.
  - intros [= <- <-]. exists []. by rewrite app_nil_r.
  - cbn [PubApiService.convertLoop]. rewrite bind_run.
    destruct (PubApiService.getPackageDetails env (package result) w)
      as [[[[l | d] |] | e] w1]; try done.
    + intros H. apply IH in H as (added & -> & Hsub).
      exists (PubApiService.toPackage result d :: added).
      split; [by rewrite <- app_assoc |].
      simpl. by apply sublist_skip.
    + intros H. apply IH in H as (added & -> & Hsub).
      exists added. split; [done |]. simpl. by apply sublist_cons.
Qed.

End Conversion.

(** X16. How the two methods report a failed request.  Under the
    conditions of the fail-soft property, [searchPackages] logs one line
    to the console and shows one error notification, whose text ends in
    the message for the error (never an empty one); [getPackageDetails]
    logs one line to the console and shows nothing. *)
Theorem registry_failure_reports (env : Env) (w : World) :
  (∀ (query : jsstring) (page : option N) (error : Error),
      let cacheKey :=
        js "search:" ++ query ++ js ":"
        ++ PubApiService.numberToString (default 1%N page) in
      let request :=
        GetSearch (PubApiService.baseUrl ++ js "/search")
          {| q := query; page := default 1%N page;
             size := Z.min (default 20%Z (maxSearchResults env)) 50 |}
          10000 in
      let after := snd (PubApiService.searchPackages env query page w) in
      fst (PubApiService.cacheHit env cacheKey w) = Return false →
      axios_search env (length (requests w)) request = inl error →
      window after
      = window w
        ++ [ErrorMessage (js "Failed to search packages: "
                          ++ PubApiService.getErrorMessage error)]
      ∧ console after
        = console w
          ++ [(LogError, js "Error searching packages:", Some error)]
      ∧ PubApiService.getErrorMessage error ≠ [])
  ∧ (∀ (packageName : jsstring) (error : Error),
      let cacheKey := js "package:" ++ packageName in
      let request :=
        GetPackage (PubApiService.baseUrl ++ js "/packages/" ++ packageName)
          10000 in
      let after := snd (PubApiService.getPackageDetails env packageName w) in
      fst (PubApiService.cacheHit env cacheKey w) = Return false →
      axios_package env (length (requests w)) request = inl error →
      window after = window w
      ∧ console after
        = console w
          ++ [(LogError,
               js "Error getting package details for " ++ packageName ++ js ":",
               Some error)]).
Proof.
  split.
  - intros query page error cacheKey request after Hmiss Hfail.
    destruct (cacheHit_quiet env cacheKey w)
      as (hit & w1 & Hhit & Hreq & Hwin & Hcon & _).
    rewrite Hhit in Hmiss. simpl in Hmiss. injection Hmiss as ->.
    subst after. unfold PubApiService.searchPackages. fold cacheKey.
    rewrite (bind_Return _ _ _ _ _ Hhit). cbv iota.
    erewrite tryCatch_Throw; cycle 1.
    { apply bind_Throw. unfold axiosGetSearch.
      rewrite Hreq. fold request. rewrite Hfail. reflexivity. }
    simpl. rewrite Hwin, Hcon. split_and!; [done | done |].
    unfold PubApiService.getErrorMessage.
    destruct (Yaml.response error) as [[status statusText] |]; [done |].
    destruct (Yaml.request error); [done |].
    by destruct (Yaml.message error).
  - intros packageName error cacheKey request after Hmiss Hfail.
    destruct (cacheHit_quiet env cacheKey w)
      as (hit & w1 & Hhit & Hreq & Hwin & Hcon & _).
    rewrite Hhit in Hmiss. simpl in Hmiss. injection Hmiss as ->.
    subst after. unfold PubApiService.getPackageDetails. fold cacheKey.
    rewrite (bind_Return _ _ _ _ _ Hhit). cbv iota.
    erewrite tryCatch_Throw; cycle 1.
    { apply bind_Throw. unfold axiosGetPackage.
      rewrite Hreq. fold request. rewrite Hfail. reflexivity. }
    simpl. by rewrite Hwin, Hcon.
Qed.

Lemma registry_failure_reports_witness :
  window (snd (PubApiService.searchPackages
                 (Samples.unreachable Samples.notFound) (js "http") None
                 Samples.start))
  = [ErrorMessage (js "Failed to search packages: "
                   ++ PubApiService.getErrorMessage Samples.notFound)]
  ∧ window (snd (PubApiService.getPackageDetails
                   (Samples.unreachable Samples.networkError) (js "http")
                   Samples.start))
    = [].
Proof.
  split.
  - destruct (registry_failure_reports (Samples.unreachable Samples.notFound)
                Samples.start) as [Hsearch _].
    destruct (Hsearch (js "http") None Samples.notFound) as [H _].
    + by vm_compute.
    + reflexivity.
    + exact H.
  - destruct (registry_failure_reports
                (Samples.unreachable Samples.networkError) Samples.start)
      as [_ Hdetails].
    destruct (Hdetails (js "http") Samples.networkError) as [H _].
    + by vm_compute.
    + reflexivity.
    + exact H.
Defined.

(** X17. [convertSearchResultsToPackages] makes at most one package of a
    search result, in the order of the results and under the name of the
    result; the results whose details cannot be had are left out. *)
Theorem convertSearchResultsToPackages_sublist (env : Env)
    (searchResults : list PubPackageSearchResult) (packages : list PubPackage)
    (w w' : World) :
  PubApiService.convertSearchResultsToPackages env searchResults w
  = (Return packages, w') →
  sublist (PubTypes.name <$> packages) (package <$> searchResults)
  ∧ length packages ≤ length searchResults.
Proof.
  intros H. apply convertLoop_sublist in H as (added & -> & Hsub).
  simpl. split; [done |].
  apply sublist_length in Hsub. by rewrite !length_fmap in Hsub.
Qed.

Lemma convertSearchResultsToPackages_sublist_witness :
  let result := {| package := js "http"; result_description := None;
                   result_tags := None; score := None |} in
  sublist
    (PubTypes.name <$>
       [PubApiService.toPackage result
          (Samples.detailsOf (js "pkg") (js "1.2.0"))])
    (package <$> [result])
  ∧ length [PubApiService.toPackage result
              (Samples.detailsOf (js "pkg") (js "1.2.0"))] ≤ length [result].
Proof.
  intros result.
  eapply (convertSearchResultsToPackages_sublist
            (Samples.registry (js "1.2.0")) [result] _ Samples.start).
  by vm_compute.
Defined.

(** ** The manifest accessor: writes, removals, reads *)


(** X18. [formatVersion] is idempotent: a version that it has formatted
    it leaves as it is, so writing again what was written changes
    nothing. *)
Theorem formatVersion_idempotent (version : jsstring) :
  WorkspaceService.formatVersion (WorkspaceService.formatVersion version)
  = WorkspaceService.formatVersion version.
Proof.
  by destruct version as [| c rest].
Qed.

(** X19. [addDependency] never throws and never writes in part.  It
    returns [false] with the files and the terminals as they were (no
    [pub get] is run), or it returns [true], and then the manifest
    existed, was parsed, took the assignment, and the file holds what
    [stringify] makes of the result. *)
Theorem addDependency_all_or_nothing (env : Env)
    (projectPath packageName version : jsstring) (dev : option bool)
    (w : World) :
  let pubspecPath := path_join env projectPath (js "pubspec.yaml") in
  let section := sectionOf (default false dev) in
  ∃ (b : bool) (w' : World),
    WorkspaceService.addDependency env projectPath packageName version dev w
    = (Return b, w')
    ∧ (b = false → files w' = files w ∧ terminals w' = terminals w)
    ∧ (b = true →
       ∃ content pubspec pubspec',
         files w !! pubspecPath = Some content
         ∧ parseYaml env content = Some pubspec
         ∧ WorkspaceService.setDependency pubspec section packageName
             (WorkspaceService.formatVersion version) = inr pubspec'
         ∧ files w' = <[pubspecPath := stringifyYaml env pubspec']> (files w)).
Proof. apply addDependency_outcome. Qed.

(** X20. Adding a dependency drops nothing: when the two assignments of
    [addDependency] succeed on a manifest that is an object, the result
    is an object with every other top-level key as before, and a section
    that was an object keeps every other entry. *)
Theorem setDependency_keeps_other_entries (m : gmap (list N) yaml)
    (section name value : jsstring) (pubspec' : yaml) :
  WorkspaceService.setDependency (YMap m) section name value = inr pubspec' →
  ∃ m', pubspec' = YMap m'
        ∧ (∀ k, k ≠ section → m' !! k = m !! k)
        ∧ (∀ entries n, m !! section = Some (YMap entries) → n ≠ name →
             ∃ entries', m' !! section = Some (YMap entries')
                         ∧ entries' !! n = entries !! n).
Proof. apply setDependency_others. Qed.

Lemma setDependency_keeps_other_entries_witness :
  ∃ m', Samples.manifestAfter = YMap m'
        ∧ (∀ k, k ≠ js "dependencies" →
             m' !! k = ({[ js "name" := YStr (js "app") ]} : gmap (list N) yaml) !! k)
        ∧ (∀ entries n,
             ({[ js "name" := YStr (js "app") ]} : gmap (list N) yaml)
               !! js "dependencies" = Some (YMap entries) →
             n ≠ js "foo" →
             ∃ entries', m' !! js "dependencies" = Some (YMap entries')
                         ∧ entries' !! n = entries !! n).
Proof.
  apply (setDependency_keeps_other_entries {[ js "name" := YStr (js "app") ]}
           (js "dependencies") (js "foo") (js "^1.0.0")).
  by vm_compute.
Defined.

Section Removal.
Variable env : Env.
Variable exoticHas : yaml -> jsstring -> bool.
Variable exoticDelete : yaml -> jsstring -> Error + yaml.


(** Every way through [removeDependency]. *)
Lemma removeDependency_outcome (projectPath packageName : jsstring)
    (dev : option bool) (w : World) :
  let pubspecPath := path_join env projectPath (js "pubspec.yaml") in
  let section := sectionOf (default false dev) in
  ∃ (b : bool) (w' : World),
    Workspace.removeDependency env exoticHas exoticDelete
      projectPath packageName dev w = (Return b, w')
    ∧ (b = false → files w' = files w ∧ terminals w' = terminals w)
    ∧ (b = true →
       ∃ content entries current current',
         files w !! pubspecPath = Some content
         ∧ parseYaml env content = Some (YMap entries)
         ∧ entries !! section = Some current
         ∧ truthy current = true
         ∧ Workspace.hasTruthyProperty exoticHas current packageName = true
         ∧ Workspace.deleteProperty exoticDelete current packageName = inr current'
         ∧ files w'
           = <[pubspecPath := stringifyYaml env (YMap (<[section := current']> entries))]>
               (files w)).
Proof.
  intros pubspecPath section.
  unfold Workspace.removeDependency. cbv zeta. fold pubspecPath.
  change (if default false dev then js "dev_dependencies" else js "dependencies")
    with section.
  unfold tryCatch.
  destruct (files w !! pubspecPath) as [content |] eqn:Hfile.
  2:{ run (existsSync_missing _ _ Hfile). cbn [negb].
      eexists false, _. split_and!; [reflexivity | done | done]. }
  run (existsSync_run _ _ _ Hfile). cbn [negb].
  run (readFileSync_run _ _ _ Hfile).
  destruct (parseYaml env content) as [pubspec |] eqn:Hparse.
  2:{ destruct (parse_fails env content w Hparse) as [e He].
      rewrite bind_run, He. cbv beta iota.
      eexists false, _. split_and!; [reflexivity | done | done]. }
  run (parse_run env _ _ _ Hparse).
  destruct (getProperty pubspec section) as [e | current] eqn:Hget.
  { rewrite bind_run. cbn [liftEither]. unfold throw. cbv beta iota.
    eexists false, _. split_and!; [reflexivity | done | done]. }
  rewrite bind_run. cbn [liftEither]. unfold mret at 1, M_ret at 1.
  cbv beta iota.
  destruct current as [current |];
    [| eexists false, _; split_and!; [reflexivity | done | done]].
  destruct pubspec as [| | | | | entries];
    try (eexists false, _; split_and!; [reflexivity | done | done]).
  simpl in Hget. injection Hget as Hget.
  destruct (truthy current
            && Workspace.hasTruthyProperty exoticHas current packageName) eqn:Hcond;
    [| eexists false, _; split_and!; [reflexivity | done | done]].
  apply andb_true_iff in Hcond as [Htruthy Hhas].
  destruct (Workspace.deleteProperty exoticDelete current packageName)
    as [e | current'] eqn:Hdelete.
  { rewrite bind_run. cbn [liftEither]. unfold throw. cbv beta iota.
    eexists false, _. split_and!; [reflexivity | done | done]. }
  rewrite bind_run. cbn [liftEither]. unfold mret at 1, M_ret at 1.
  rewrite bind_run. unfold WorkspaceService.writeFileSync, modify.
  cbv beta iota.
  destruct (safe_runPubGet projectPath
              (setFiles (<[pubspecPath :=
                             stringifyYaml env (YMap (<[section := current']> entries))]>
                           (files w)) w))
    as ([] & w1 & Hrun & Hf1).
  destruct (safe_refreshProject env projectPath w1) as ([] & w2 & Hrefresh & Hf2).
  run Hrun. run Hrefresh.
  eexists true, _. split_and!; [reflexivity | done |].
  intros _. exists content, entries, current, current'. split_and!; try done.
  simpl. by rewrite Hf2, Hf1.
Qed.

End Removal.

(** X21. [removeDependency] never throws and never writes in part.  It
    returns [false] with the files and the terminals as they were, or it
    returns [true], and then the manifest existed, was parsed to an
    object whose section is truthy and answers for the name, and the
    file holds what [stringify] makes of the manifest after the
    [delete]. *)
Theorem removeDependency_all_or_nothing (env : Env)
    (exoticHas : yaml -> jsstring -> bool)
    (exoticDelete : yaml -> jsstring -> Error + yaml)
    (projectPath packageName : jsstring) (dev : option bool) (w : World) :
  let pubspecPath := path_join env projectPath (js "pubspec.yaml") in
  let section := sectionOf (default false dev) in
  ∃ (b : bool) (w' : World),
    Workspace.removeDependency env exoticHas exoticDelete
      projectPath packageName dev w = (Return b, w')
    ∧ (b = false → files w' = files w ∧ terminals w' = terminals w)
    ∧ (b = true →
       ∃ content entries current current',
         files w !! pubspecPath = Some content
         ∧ parseYaml env content = Some (YMap entries)
         ∧ entries !! section = Some current
         ∧ truthy current = true
         ∧ Workspace.hasTruthyProperty exoticHas current packageName = true
         ∧ Workspace.deleteProperty exoticDelete current packageName = inr current'
         ∧ files w'
           = <[pubspecPath := stringifyYaml env (YMap (<[section := current']> entries))]>
               (files w)).
Proof. apply removeDependency_outcome. Qed.

(** X22. Removing a dependency that the section holds with a truthy
    value returns [true] and writes the manifest without that entry and
    with every other entry and key as before. *)
Theorem removeDependency_removes (env : Env)
    (exoticHas : yaml -> jsstring -> bool)
    (exoticDelete : yaml -> jsstring -> Error + yaml)
    (projectPath packageName content : jsstring) (dev : option bool)
    (m dependencies : gmap (list N) yaml) (value : yaml) (w : World) :
  let pubspecPath := path_join env projectPath (js "pubspec.yaml") in
  let section := sectionOf (default false dev) in
  let written := <[section := YMap (delete packageName dependencies)]> m in
  files w !! pubspecPath = Some content →
  parseYaml env content = Some (YMap m) →
  m !! section = Some (YMap dependencies) →
  dependencies !! packageName = Some value →
  truthy value = true →
  ∃ w', Workspace.removeDependency env exoticHas exoticDelete
          projectPath packageName dev w = (Return true, w')
        ∧ files w' !! pubspecPath = Some (stringifyYaml env (YMap written))
        ∧ sectionMap (written !! section) !! packageName = None
        ∧ (∀ n, n ≠ packageName →
             sectionMap (written !! section) !! n = dependencies !! n)
        ∧ (∀ k, k ≠ section → written !! k = m !! k).
Proof.
  intros pubspecPath section written Hfile Hparse Hsection Hvalue Htruthy.
  destruct (removeDependency_outcome env exoticHas exoticDelete
              projectPath packageName dev w)
    as (b & w' & Hrun & Hfalse & Htrue).
  fold pubspecPath section in Hfalse, Htrue.
  assert (b = true) as ->.
  { revert Hrun. unfold Workspace.removeDependency. cbv zeta.
    fold pubspecPath.
    change (if default false dev then js "dev_dependencies" else js "dependencies")
      with section.
    unfold tryCatch.
    run (existsSync_run _ _ _ Hfile). cbn [negb].
    run (readFileSync_run _ _ _ Hfile).
    run (parse_run env _ _ _ Hparse).
    rewrite bind_run. simpl getProperty. rewrite Hsection.
    cbn [liftEither]. unfold mret at 1, M_ret at 1. cbv beta iota.
    unfold Workspace.hasTruthyProperty, Workspace.deleteProperty.
    rewrite Hvalue, Htruthy. cbn [truthy andb liftEither].
    rewrite bind_run. unfold mret at 1, M_ret at 1.
    rewrite bind_run. unfold WorkspaceService.writeFileSync, modify.
    cbv beta iota.
    match goal with
    | |- context [setFiles ?f w] =>
        destruct (safe_runPubGet projectPath (setFiles f w))
          as ([] & w1 & Hget & Hf1)
    end.
    destruct (safe_refreshProject env projectPath w1) as ([] & w2 & Hrefresh & Hf2).
    run Hget. run Hrefresh. by intros [= <- _]. }
  destruct (Htrue eq_refl)
    as (content' & entries & current & current' & Hfile' & Hparse' & Hcurrent
        & _ & _ & Hdelete & Hfiles).
  rewrite Hfile in Hfile'. injection Hfile' as <-.
  rewrite Hparse in Hparse'. injection Hparse' as <-.
  rewrite Hsection in Hcurrent. injection Hcurrent as <-.
  simpl in Hdelete. injection Hdelete as <-.
  exists w'. split_and!.
  - done.
  - by rewrite Hfiles, lookup_insert_eq.
  - unfold written. rewrite lookup_insert_eq. simpl. apply lookup_delete_eq.
  - intros n Hn. unfold written. rewrite lookup_insert_eq. simpl.
    by rewrite lookup_delete_ne.
  - intros k Hk. unfold written. by rewrite lookup_insert_ne.
Qed.

Lemma removeDependency_removes_witness :
  ∃ w', Workspace.removeDependency (Samples.registry (js "1.0.0")) (fun _ _ => false)
          (fun section _ => inr section)
          (js "/app") (js "foo") None (startWith Samples.textAfter)
        = (Return true, w')
        ∧ files w' !! js "/app/pubspec.yaml"
          = Some (stringifyYaml (Samples.registry (js "1.0.0"))
                    (YMap (<[js "dependencies" := YMap (delete (js "foo")
                                {[ js "foo" := YStr (js "^1.0.0") ]})]>
                             {[ js "name" := YStr (js "app");
                                js "dependencies" :=
                                  YMap {[ js "foo" := YStr (js "^1.0.0") ]} ]})))
        ∧ sectionMap ((<[js "dependencies" := YMap (delete (js "foo")
                                {[ js "foo" := YStr (js "^1.0.0") ]})]>
                        ({[ js "name" := YStr (js "app");
                            js "dependencies" :=
                              YMap {[ js "foo" := YStr (js "^1.0.0") ]} ]}
                         : gmap (list N) yaml)) !! js "dependencies")
            !! js "foo" = None
        ∧ (∀ n, n ≠ js "foo" →
             sectionMap ((<[js "dependencies" := YMap (delete (js "foo")
                                {[ js "foo" := YStr (js "^1.0.0") ]})]>
                        ({[ js "name" := YStr (js "app");
                            js "dependencies" :=
                              YMap {[ js "foo" := YStr (js "^1.0.0") ]} ]}
                         : gmap (list N) yaml)) !! js "dependencies") !! n
             = ({[ js "foo" := YStr (js "^1.0.0") ]} : gmap (list N) yaml) !! n)
        ∧ (∀ k, k ≠ js "dependencies" →
             (<[js "dependencies" := YMap (delete (js "foo")
                                {[ js "foo" := YStr (js "^1.0.0") ]})]>
                        ({[ js "name" := YStr (js "app");
                            js "dependencies" :=
                              YMap {[ js "foo" := YStr (js "^1.0.0") ]} ]}
                         : gmap (list N) yaml)) !! k
             = ({[ js "name" := YStr (js "app");
                   js "dependencies" :=
                     YMap {[ js "foo" := YStr (js "^1.0.0") ]} ]}
                : gmap (list N) yaml) !! k).
Proof.
  apply (removeDependency_removes (Samples.registry (js "1.0.0")) (fun _ _ => false)
           (fun section _ => inr section)
           (js "/app") (js "foo") Samples.textAfter None
           {[ js "name" := YStr (js "app");
              js "dependencies" := YMap {[ js "foo" := YStr (js "^1.0.0") ]} ]}
           {[ js "foo" := YStr (js "^1.0.0") ]} (YStr (js "^1.0.0"))
           (startWith Samples.textAfter));
    by vm_compute.
Defined.

(** X23. A dependency that the section does not hold, or holds with a
    falsy value (as [foo:] with nothing after the colon, which is
    [null]), is not removed: [removeDependency] warns that it was not
    found and returns [false], and the files and terminals are as they
    were. *)
Theorem removeDependency_not_found (env : Env)
    (exoticHas : yaml -> jsstring -> bool)
    (exoticDelete : yaml -> jsstring -> Error + yaml)
    (projectPath packageName content : jsstring) (dev : option bool)
    (m dependencies : gmap (list N) yaml) (w : World) :
  let pubspecPath := path_join env projectPath (js "pubspec.yaml") in
  let section := sectionOf (default false dev) in
  files w !! pubspecPath = Some content →
  parseYaml env content = Some (YMap m) →
  m !! section = Some (YMap dependencies) →
  packageName ∉ Workspace.objectPrototype →
  truthyProp (dependencies !! packageName) = false →
  Workspace.removeDependency env exoticHas exoticDelete
    projectPath packageName dev w
  = (Return false,
     setWindow (window w ++ [WarningMessage
                               (packageName ++ js " not found in dependencies")]) w).
Proof.
  intros pubspecPath section Hfile Hparse Hsection Hproto Hfalsy.
  unfold Workspace.removeDependency. cbv zeta. fold pubspecPath.
  change (if default false dev then js "dev_dependencies" else js "dependencies")
    with section.
  unfold tryCatch.
  run (existsSync_run _ _ _ Hfile). cbn [negb].
  run (readFileSync_run _ _ _ Hfile).
  run (parse_run env _ _ _ Hparse).
  rewrite bind_run. simpl getProperty. rewrite Hsection.
  cbn [liftEither]. unfold mret at 1, M_ret at 1. cbv beta iota.
  unfold Workspace.hasTruthyProperty.
  destruct (dependencies !! packageName) as [v |]; simpl in Hfalsy.
  - by rewrite Hfalsy.
  - by rewrite bool_decide_eq_false_2.
Qed.

Lemma removeDependency_not_found_witness :
  Workspace.removeDependency (Samples.registry (js "1.0.0")) (fun _ _ => false)
    (fun section _ => inr section)
    (js "/app") (js "bar") None (startWith Samples.textAfter)
  = (Return false,
     setWindow (window (startWith Samples.textAfter)
                ++ [WarningMessage (js "bar" ++ js " not found in dependencies")])
       (startWith Samples.textAfter)).
Proof.
  apply (removeDependency_not_found (Samples.registry (js "1.0.0")) (fun _ _ => false)
           (fun section _ => inr section)
           (js "/app") (js "bar") Samples.textAfter None
           {[ js "name" := YStr (js "app");
              js "dependencies" := YMap {[ js "foo" := YStr (js "^1.0.0") ]} ]}
           {[ js "foo" := YStr (js "^1.0.0") ]}
           (startWith Samples.textAfter));
    try (by vm_compute).
  apply (bool_decide_unpack _). by vm_compute.
Defined.

Section Reads.
Variable env : Env.

(** One section read pushes nothing but records of its entries. *)
Lemma extractLoop_only (dev : bool) (sdk : jsstring)
    (entries : list (jsstring * yaml)) :
  ∀ (deps deps' : list DependencyInfo) (failure : option Error) (w w' : World),
    WorkspaceService.extractLoop env dev sdk entries deps w
    = (Return (deps', failure), w') →
    ∀ d, d ∈ deps' → d ∈ deps ∨ listedFrom dev sdk entries d.
Proof.
  induction entries as [| [name v] rest IH]; intros deps deps' failure w w'.
  - intros [= <- _ _] d Hd. by left.
  - simpl.
    destruct (nonEmpty name && negb (bool_decide (name = sdk)) && truthy v)
      eqn:Hguard.
    + apply andb_true_iff in Hguard as [Hguard Htruthy].
      apply andb_true_iff in Hguard as [Hname Hsdk].
      apply negb_true_iff, bool_decide_eq_false in Hsdk.
      destruct (safe_getLatestVersion env name w) as (latest & w1 & Hrun & Hf1).
      rewrite bind_run. unfold WorkspaceService.attempt, tryCatch.
      rewrite (bind_Return _ _ _ _ _ Hrun).
      unfold WorkspaceService.stringOf.
      destruct (String v) as [s |] eqn:Hs.
      * simpl. intros Hloop d Hd.
        destruct (IH _ _ _ _ _ Hloop d Hd) as [Hin | (v' & Hv' & Hrest)].
        -- apply elem_of_app in Hin as [Hin | Hin]; [by left |].
           apply list_elem_of_singleton in Hin as ->. right.
           exists v. simpl. split_and!; try done. apply elem_of_cons. by left.
        -- right. exists v'. split; [| done]. apply elem_of_cons. by right.
      * simpl. intros [= <- _ _] d Hd. by left.
    + intros Hloop d Hd.
      destruct (IH _ _ _ _ _ Hloop d Hd) as [Hin | (v' & Hv' & Hrest)];
        [by left |].
      right. exists v'. split; [| done]. apply elem_of_cons. by right.
Qed.

Lemma sectionLoop_only (dev : bool) (sdk : jsstring) (section : option yaml)
    (deps deps' : list DependencyInfo) (failure : option Error) (w w' : World) :
  (if WorkspaceService.isSection section
   then WorkspaceService.extractLoop env dev sdk
          (WorkspaceService.sectionEntries section) deps
   else mret (deps, None)) w
  = (Return (deps', failure), w') →
  ∀ d, d ∈ deps' →
    d ∈ deps
    ∨ ∃ value, section = Some value ∧ truthy value = true
               ∧ listedFrom dev sdk (entriesOf value) d.
Proof.
  destruct section as [value |]; simpl.
  - destruct (truthy value && isObject value) eqn:Hsection.
    + apply andb_true_iff in Hsection as [Htruthy _].
      intros Hloop d Hd.
      destruct (extractLoop_only _ _ _ _ _ _ _ _ Hloop d Hd) as [Hin | Hlisted];
        [by left | right]. by exists value.
    + intros [= <- _ _] d Hd. by left.
  - intros [= <- _ _] d Hd. by left.
Qed.

Lemma extractDependencies_only (pubspec : yaml) (deps : list DependencyInfo)
    (w w' : World) :
  WorkspaceService.extractDependencies env pubspec w = (Return deps, w') →
  ∀ d, d ∈ deps →
    ∃ section,
      getProperty pubspec (sectionOf (PubTypes.isDev d)) = inr (Some section)
      ∧ truthy section = true
      ∧ listedFrom (PubTypes.isDev d) (sdkOf (PubTypes.isDev d))
          (entriesOf section) d.
Proof.
  unfold WorkspaceService.extractDependencies.
  destruct (getProperty pubspec (js "dependencies")) as [e | regular] eqn:Hreg.
  { intros [= <- _] d Hd. by apply elem_of_nil in Hd. }
  destruct (getProperty pubspec (js "dev_dependencies")) as [e | devs] eqn:Hdev.
  { intros [= <- _] d Hd. by apply elem_of_nil in Hd. }
  destruct (sectionLoop_spec env false (js "flutter") regular [] w)
    as (deps1 & failure1 & w1 & Hrun1 & _).
  rewrite (bind_Return _ _ _ _ _ Hrun1).
  assert (Hfirst : ∀ d, d ∈ deps1 →
            ∃ section,
              getProperty pubspec (sectionOf (PubTypes.isDev d)) = inr (Some section)
              ∧ truthy section = true
              ∧ listedFrom (PubTypes.isDev d) (sdkOf (PubTypes.isDev d))
                  (entriesOf section) d).
  { intros d Hd.
    destruct (sectionLoop_only _ _ _ _ _ _ _ _ Hrun1 d Hd)
      as [Hin | (value & -> & Htruthy & Hlisted)];
      [by apply elem_of_nil in Hin |].
    assert (Hflag : PubTypes.isDev d = false)
      by (by destruct Hlisted as (? & _ & _ & _ & _ & _ & ? & _)).
    rewrite Hflag. by exists value. }
  destruct failure1 as [error1 |].
  { intros [= <- _]. exact Hfirst. }
  destruct (sectionLoop_spec env true (js "flutter_test") devs deps1 w1)
    as (deps2 & failure2 & w2 & Hrun2 & _).
  rewrite (bind_Return _ _ _ _ _ Hrun2).
  assert (Hsecond : ∀ d, d ∈ deps2 →
            ∃ section,
              getProperty pubspec (sectionOf (PubTypes.isDev d)) = inr (Some section)
              ∧ truthy section = true
              ∧ listedFrom (PubTypes.isDev d) (sdkOf (PubTypes.isDev d))
                  (entriesOf section) d).
  { intros d Hd.
    destruct (sectionLoop_only _ _ _ _ _ _ _ _ Hrun2 d Hd)
      as [Hin | (value & -> & Htruthy & Hlisted)]; [by apply Hfirst |].
    assert (Hflag : PubTypes.isDev d = true)
      by (by destruct Hlisted as (? & _ & _ & _ & _ & _ & ? & _)).
    rewrite Hflag. by exists value. }
  destruct failure2 as [error2 |]; intros [= <- _]; exact Hsecond.
Qed.

End Reads.

(** X24. [extractDependencies] returns, and lists nothing that the
    manifest does not hold: every record comes from an entry of its own
    section ([dev_dependencies] for a dev record, [dependencies]
    otherwise) whose name is not empty and not the SDK's ([flutter],
    [flutter_test]), whose value is truthy and prints as the record's
    version; and a record is flagged outdated only with a latest version
    that [isVersionOutdated] finds newer. *)
Theorem extractDependencies_lists_only (env : Env) (pubspec : yaml) (w : World) :
  ∃ (deps : list DependencyInfo) (w' : World),
    WorkspaceService.extractDependencies env pubspec w = (Return deps, w')
    ∧ ∀ d, d ∈ deps →
        ∃ section,
          getProperty pubspec (sectionOf (PubTypes.isDev d)) = inr (Some section)
          ∧ truthy section = true
          ∧ listedFrom (PubTypes.isDev d) (sdkOf (PubTypes.isDev d))
              (entriesOf section) d.
Proof.
  destruct (extractDependencies_spec env pubspec w) as (deps & w' & Hrun & _).
  exists deps, w'. split; [done |].
  by apply (extractDependencies_only env pubspec deps w w').
Qed.

(** X25. [createProjectFromPath] never throws and writes no file, and
    it returns a project only for a manifest that exists, parses to a
    truthy value and has a truthy [name]; the project then carries that
    name, the given path and the path of the manifest. *)
Theorem createProjectFromPath_only_named (env : Env) (projectPath : jsstring)
    (w : World) :
  let manifestPath := path_join env projectPath (js "pubspec.yaml") in
  ∃ (result : option WorkspaceProject) (w' : World),
    WorkspaceService.createProjectFromPath env projectPath w = (Return result, w')
    ∧ files w' = files w
    ∧ ∀ project, result = Some project →
        ∃ content pubspec name,
          files w !! manifestPath = Some content
          ∧ parseYaml env content = Some pubspec
          ∧ truthy pubspec = true
          ∧ getProperty pubspec (js "name") = inr (Some name)
          ∧ truthy name = true
          ∧ project_name project = name
          ∧ path project = projectPath
          ∧ pubspecPath project = manifestPath.
Proof.
  intros manifestPath.
  unfold WorkspaceService.createProjectFromPath. cbv zeta. fold manifestPath.
  unfold tryCatch.
  destruct (files w !! manifestPath) as [content |] eqn:Hfile.
  2:{ rewrite bind_run. unfold WorkspaceService.readFileSync. rewrite Hfile.
      cbv beta iota. eexists None, _. split_and!; [reflexivity | done | done]. }
  run (readFileSync_run _ _ _ Hfile).
  destruct (parseYaml env content) as [pubspec |] eqn:Hparse.
  2:{ destruct (parse_fails env content w Hparse) as [e He].
      rewrite bind_run, He. cbv beta iota.
      eexists None, _. split_and!; [reflexivity | done | done]. }
  run (parse_run env _ _ _ Hparse).
  destruct (truthy pubspec) eqn:Htruthy; cbn [negb];
    [| eexists None, _; split_and!; [reflexivity | done | done]].
  destruct (getProperty pubspec (js "name")) as [e | name] eqn:Hname.
  { rewrite bind_run. cbn [liftEither]. unfold throw. cbv beta iota.
    eexists None, _. split_and!; [reflexivity | done | done]. }
  rewrite bind_run. cbn [liftEither]. unfold mret at 1, M_ret at 1.
  cbv beta iota.
  destruct (truthyProp name) eqn:Hnamed; cbn [negb];
    [| eexists None, _; split_and!; [reflexivity | done | done]].
  destruct name as [name |]; [| done]. simpl in Hnamed.
  destruct (safe_extractDependencies env pubspec w) as (deps & w1 & Hdeps & Hf1).
  run Hdeps.
  eexists (Some _), _. split_and!; [reflexivity | done |].
  intros project [= <-]. by exists content, pubspec, name.
Qed.

(** ** The analysis of an open manifest *)

Section Analysis.
Variable env : Env.
Variable document : PubspecAnalysis.TextDocument.

(** The loop over a section returns, and pushes grounded analyses
    only. *)
Lemma sectionLoop_grounded (dev : bool) (entries : list (jsstring * yaml)) :
  ∀ (analyses : list PubspecAnalysis.PackageAnalysis) (w : World),
    Forall (grounded document) analyses →
    ∃ (analyses' : list PubspecAnalysis.PackageAnalysis) (w' : World),
      PubspecAnalysis.sectionLoop env document (sectionOf dev) dev entries
        analyses w
      = (Return analyses', w')
      ∧ Forall (grounded document) analyses'.
Proof.
  induction entries as [| [packageName versionConstraint] rest IH];
    intros analyses w Hall.
  - by exists analyses, w.
  - cbn [PubspecAnalysis.sectionLoop].
    destruct (bool_decide (packageName = js "flutter")
              || bool_decide (packageName = js "flutter_test")) eqn:Hsdk;
      [by apply IH |].
    apply orb_false_iff in Hsdk as [Hflutter Htest].
    apply bool_decide_eq_false in Hflutter, Htest.
    destruct versionConstraint as [| | | constraint | |]; try by apply IH.
    destruct (getLatestVersion_spec env packageName w)
      as (latest & w1 & Hrun & Hne).
    rewrite bind_run. unfold tryCatch. rewrite bind_run, Hrun.
    cbv beta iota zeta.
    destruct latest as [latest |]; [| by apply IH].
    destruct (findPackageRange (PubspecAnalysis.getText document) packageName
                (sectionOf dev)) as [r |] eqn:Hrange; [| by apply IH].
    destruct (safe_getPackageDetails env packageName w1)
      as (details & w2 & Hdetails & _).
    rewrite bind_run, Hdetails. cbv beta iota.
    apply IH. apply Forall_app. split; [done |].
    apply Forall_singleton. unfold grounded. simpl.
    split_and!; try done; [by apply Hne | by exists constraint].
Qed.

Lemma analyzeIfPresent_grounded (pubspec : yaml) (dev : bool) (w : World) :
  truthy pubspec = true →
  ∃ (analyses : list PubspecAnalysis.PackageAnalysis) (w' : World),
    PubspecAnalysis.analyzeIfPresent env document pubspec (sectionOf dev) dev w
    = (Return analyses, w')
    ∧ Forall (grounded document) analyses.
Proof.
  intros Htruthy. unfold PubspecAnalysis.analyzeIfPresent.
  destruct (getProperty pubspec (sectionOf dev)) as [e | section] eqn:Hget.
  { by destruct pubspec. }
  rewrite bind_run. cbn [liftEither]. unfold mret at 1, M_ret at 1.
  cbv beta iota.
  destruct section as [dependencies |]; [| by exists [], w].
  destruct (truthy dependencies); [| by exists [], w].
  by apply sectionLoop_grounded.
Qed.

(** Every way through [analyzePubspecFile]: nothing to analyse, an
    answer remembered, or a fresh analysis that is remembered. *)
Lemma analyzePubspecFile_outcome (st : PubspecAnalysis.t) (w : World) :
  let key := PubspecAnalysis.cacheKeyOf document in
  let text := PubspecAnalysis.getText document in
  ∃ (analyses : list PubspecAnalysis.PackageAnalysis) (st' : PubspecAnalysis.t)
    (w' : World),
    PubspecAnalysis.analyzePubspecFile env st document w
    = (Return (analyses, st'), w')
    ∧ ((analyses = [] ∧ st' = st ∧ requests w' = requests w
        ∧ (PubspecAnalysis.isPubspecFile document = false
           ∨ (PubspecAnalysis.analysisCache st !! key = None
              ∧ (parseYaml env text = None
                 ∨ ∃ pubspec, parseYaml env text = Some pubspec
                              ∧ truthy pubspec = false))))
       ∨ (PubspecAnalysis.isPubspecFile document = true
          ∧ PubspecAnalysis.analysisCache st !! key = Some analyses
          ∧ st' = st ∧ w' = w)
       ∨ (PubspecAnalysis.isPubspecFile document = true
          ∧ PubspecAnalysis.analysisCache st !! key = None
          ∧ (∃ pubspec, parseYaml env text = Some pubspec
                        ∧ truthy pubspec = true)
          ∧ Forall (grounded document) analyses
          ∧ st' = PubspecAnalysis.updateDiagnostics document analyses
                    {| PubspecAnalysis.analysisCache :=
                         <[key := analyses]> (PubspecAnalysis.analysisCache st);
                       PubspecAnalysis.diagnosticCollection :=
                         PubspecAnalysis.diagnosticCollection st |})).
Proof.
  intros key text. unfold PubspecAnalysis.analyzePubspecFile.
  destruct (PubspecAnalysis.isPubspecFile document) eqn:Hfile; cbn [negb].
  2:{ exists [], st, w. split; [done |]. left. split_and!; try done. by left. }
  cbv zeta. fold key text.
  destruct (PubspecAnalysis.analysisCache st !! key) as [cached |] eqn:Hcache.
  { exists cached, st, w. split; [done |]. right. by left. }
  unfold tryCatch.
  destruct (parseYaml env text) as [pubspec |] eqn:Hparse.
  2:{ destruct (parse_fails env _ w Hparse) as [e He].
      rewrite bind_run, He. cbv beta iota.
      eexists [], st, _. split; [reflexivity |]. left.
      split_and!; try done. right. split; [done |]. by left. }
  run (parse_run env _ _ _ Hparse).
  destruct (truthy pubspec) eqn:Htruthy; cbn [negb].
  2:{ exists [], st, w. split; [done |]. left.
      split_and!; try done. right. split; [done |].
      right. by exists pubspec. }
  destruct (analyzeIfPresent_grounded pubspec false w Htruthy)
    as (regular & w1 & Hregular & Hall1).
  destruct (analyzeIfPresent_grounded pubspec true w1 Htruthy)
    as (dev & w2 & Hdev & Hall2).
  simpl sectionOf in Hregular, Hdev.
  run Hregular. run Hdev.
  eexists (regular ++ dev), _, w2. split; [reflexivity |].
  right. right. split_and!; try done; [by exists pubspec | by apply Forall_app].
Qed.

End Analysis.

Section ReportedAnalysis.
Variable env : Env.
Variable registry : jsstring → Error + PubPackageDetails.
Hypothesis stable : stableRegistry env registry.
Variable document : PubspecAnalysis.TextDocument.

(** [get] adds nothing to the map, and what it returns is in it. *)
Lemma get_lookup_before (now : Z) (key k : jsstring)
    (st : CacheService.t PubData) (entry : CacheService.CacheEntry PubData) :
  CacheService.cache (snd (CacheService.get now key st)) !! k = Some entry →
  CacheService.cache st !! k = Some entry.
Proof.
  unfold CacheService.get.
  destruct (CacheService.cache st !! key) as [e |] eqn:He; [| done].
  destruct (CacheService.expired now e); [| done]. simpl.
  intros H. by apply lookup_delete_Some in H as [_ H].
Qed.

Lemma get_returns_entry (now : Z) (key : jsstring)
    (st : CacheService.t PubData) (d : PubData) :
  fst (CacheService.get now key st) = Some d →
  ∃ entry, CacheService.cache st !! key = Some entry
           ∧ CacheService.data entry = Some d.
Proof.
  unfold CacheService.get.
  destruct (CacheService.cache st !! key) as [e |] eqn:He; [| done].
  destruct (CacheService.expired now e); [done |]. simpl.
  intros H. by exists e.
Qed.

Lemma cacheHit_ofRegistry (key : jsstring) (w : World) :
  cacheOfRegistry registry w →
  ∃ (hit : bool) (w' : World),
    PubApiService.cacheHit env key w = (Return hit, w')
    ∧ cacheOfRegistry registry w'
    ∧ requests w' = requests w.
Proof.
  intros Hw. unfold PubApiService.cacheHit, cacheIsEnabled.
  rewrite bind_run. unfold mret at 1, M_ret at 1. cbv beta iota.
  destruct (default true (enableCache env)); [| by exists false, w].
  unfold cacheHas, dateNow, onCache. rewrite bind_run. cbv beta iota.
  simpl cacheService. unfold CacheService.has.
  destruct (CacheService.get (Date_now env (clock w)) key (cacheService w))
    as [value c] eqn:Hget.
  eexists _, _. split_and!; [reflexivity | | done].
  intros packageName entry d Hentry Hdata. simpl in Hentry.
  apply (Hw packageName entry d); [| done].
  apply (get_lookup_before (Date_now env (clock w)) key).
  by rewrite Hget.
Qed.

Lemma cacheGet_ofRegistry (packageName : jsstring) (w : World) :
  cacheOfRegistry registry w →
  ∃ (value : option PubData) (w' : World),
    cacheGet env (js "package:" ++ packageName) w = (Return value, w')
    ∧ cacheOfRegistry registry w'
    ∧ ∀ d, value = Some d →
        ∃ details, registry packageName = inr details ∧ d = Details details.
Proof.
  intros Hw. unfold cacheGet, dateNow, onCache. rewrite bind_run.
  cbv beta iota. simpl cacheService.
  destruct (CacheService.get (Date_now env (clock w))
              (js "package:" ++ packageName) (cacheService w))
    as [value c] eqn:Hget.
  eexists _, _. split_and!; [reflexivity | |].
  - intros name entry d Hentry Hdata. simpl in Hentry.
    apply (Hw name entry d); [| done].
    apply (get_lookup_before (Date_now env (clock w))
             (js "package:" ++ packageName)).
    by rewrite Hget.
  - intros d ->.
    destruct (get_returns_entry (Date_now env (clock w))
                (js "package:" ++ packageName) (cacheService w) d)
      as (entry & Hentry & Hdata); [by rewrite Hget |].
    by apply (Hw packageName entry d).
Qed.

Lemma cacheSet_ofRegistry (packageName : jsstring)
    (details : PubPackageDetails) (seconds : option Z) (w : World) :
  registry packageName = inr details →
  cacheOfRegistry registry w →
  cacheOfRegistry registry
    (snd (cacheSet env (js "package:" ++ packageName) (Details details)
            seconds w)).
Proof.
  unfold cacheOfRegistry. rewrite cacheSet_run.
  set (prefix := js "package:"). clearbody prefix.
  intros Hregistry Hw name entry d. simpl.
  destruct (decide (name = packageName)) as [-> | Hne].
  - rewrite lookup_insert_eq. intros [= <-]. simpl. intros [= <-].
    by exists details.
  - rewrite lookup_insert_ne; [by apply Hw |].
    intros Heq. by apply app_inv_head in Heq.
Qed.

(** With a cache of the registry, the details that are returned are the
    registry's, and the cache stays one of the registry. *)
Lemma getPackageDetails_ofRegistry (packageName : jsstring) (w : World) :
  cacheOfRegistry registry w →
  ∃ (value : option PubData) (w' : World),
    PubApiService.getPackageDetails env packageName w = (Return value, w')
    ∧ cacheOfRegistry registry w'
    ∧ ∀ d, value = Some d →
        ∃ details, registry packageName = inr details ∧ d = Details details.
Proof using stable.
  intros Hw. unfold PubApiService.getPackageDetails. cbv zeta.
  destruct (cacheHit_ofRegistry (js "package:" ++ packageName) w Hw)
    as (hit & w1 & Hhit & Hw1 & Hrequests).
  rewrite bind_run, Hhit. cbv beta iota.
  destruct hit; [by apply cacheGet_ofRegistry |].
  unfold tryCatch. rewrite bind_run. unfold axiosGetPackage.
  rewrite stable.
  destruct (registry packageName) as [error | details] eqn:Hregistry.
  - cbv beta iota zeta. eexists None, _. split_and!; [reflexivity | | done].
    intros name entry d. simpl. apply Hw1.
  - cbv beta iota zeta. unfold cacheIsEnabled.
    rewrite bind_run. unfold mret at 1, M_ret at 1. cbv beta iota.
    destruct (default true (enableCache env)).
    + rewrite bind_run, cacheSet_run. cbv beta iota.
      eexists _, _. split_and!; [reflexivity | |].
      * pose proof (cacheSet_ofRegistry packageName details (Some 3600%Z)
                      (setRequests
                         (requests w1
                          ++ [GetPackage
                                (PubApiService.baseUrl ++ js "/packages/"
                                 ++ packageName) 10000]) w1)
                      Hregistry) as Hset.
        rewrite cacheSet_run in Hset. apply Hset.
        intros name entry d. simpl. apply Hw1.
      * intros d [= <-]. by exists details.
    + eexists _, _. split_and!; [reflexivity | |].
      * intros name entry d. simpl. apply Hw1.
      * intros d [= <-]. by exists details.
Qed.

Lemma getLatestVersion_ofRegistry (packageName : jsstring) (w : World) :
  cacheOfRegistry registry w →
  ∃ (latest : option jsstring) (w' : World),
    PubApiService.getLatestVersion env packageName w = (Return latest, w')
    ∧ cacheOfRegistry registry w'
    ∧ ∀ l, latest = Some l →
        l ≠ []
        ∧ ∃ details, registry packageName = inr details
                     ∧ l = latest_version details.
Proof using stable.
  intros Hw.
  destruct (getPackageDetails_ofRegistry packageName w Hw)
    as (value & w' & Hrun & Hw' & Hvalue).
  unfold PubApiService.getLatestVersion. rewrite bind_run, Hrun.
  eexists _, w'. split_and!; [reflexivity | done |].
  intros l. destruct value as [d |]; [| done].
  destruct (Hvalue d eq_refl) as (details & Hregistry & ->).
  destruct (latest_version details) as [| c rest] eqn:Hlatest; [done |].
  simpl. intros [= <-]. split; [done |]. exists details. by rewrite Hlatest.
Qed.

(** The loop over a section pushes analyses of its entries only. *)
Lemma sectionLoop_reported (dev : bool) (all : list (jsstring * yaml))
    (P : PubspecAnalysis.PackageAnalysis → Prop) :
  (∀ a constraint details,
      grounded document a →
      PubspecAnalysis.isDev a = dev →
      (PubspecAnalysis.name a, YStr constraint) ∈ all →
      PubspecAnalysis.currentVersion a
      = extractVersionFromConstraint constraint →
      registry (PubspecAnalysis.name a) = inr details →
      PubspecAnalysis.latestVersion a = latest_version details →
      (PubspecAnalysis.description a = None
       ∨ PubspecAnalysis.description a
         = pubspec_description (latest_pubspec details)) →
      P a) →
  ∀ (entries : list (jsstring * yaml)),
    (∀ entry, entry ∈ entries → entry ∈ all) →
    ∀ (analyses : list PubspecAnalysis.PackageAnalysis) (w : World),
      Forall P analyses →
      cacheOfRegistry registry w →
      ∃ (analyses' : list PubspecAnalysis.PackageAnalysis) (w' : World),
        PubspecAnalysis.sectionLoop env document (sectionOf dev) dev entries
          analyses w
        = (Return analyses', w')
        ∧ Forall P analyses'
        ∧ cacheOfRegistry registry w'.
Proof using stable.
  intros HP entries.
  induction entries as [| [packageName versionConstraint] rest IH];
    intros Hall analyses w Hanalyses Hw.
  - by exists analyses, w.
  - assert (Hrest : ∀ entry, entry ∈ rest → entry ∈ all).
    { intros entry Hin. apply Hall, elem_of_cons. by right. }
    cbn [PubspecAnalysis.sectionLoop].
    destruct (bool_decide (packageName = js "flutter")
              || bool_decide (packageName = js "flutter_test")) eqn:Hsdk;
      [by apply IH |].
    apply orb_false_iff in Hsdk as [Hflutter Htest].
    apply bool_decide_eq_false in Hflutter, Htest.
    destruct versionConstraint as [| | | constraint | |]; try by apply IH.
    destruct (getLatestVersion_ofRegistry packageName w Hw)
      as (latest & w1 & Hrun & Hw1 & Hlatest).
    rewrite bind_run. unfold tryCatch. rewrite bind_run, Hrun.
    cbv beta iota zeta.
    destruct latest as [latest |]; [| by apply IH].
    destruct (Hlatest latest eq_refl) as (Hne & details & Hregistry & ->).
    destruct (findPackageRange (PubspecAnalysis.getText document) packageName
                (sectionOf dev)) as [r |] eqn:Hrange; [| by apply IH].
    destruct (getPackageDetails_ofRegistry packageName w1 Hw1)
      as (value & w2 & Hdetails & Hw2 & Hvalue).
    rewrite bind_run, Hdetails. cbv beta iota.
    apply IH; [done | | done].
    apply Forall_app. split; [done |].
    apply Forall_singleton.
    apply (HP _ constraint details); simpl; try done.
    + unfold grounded. simpl. split_and!; try done. by exists constraint.
    + apply Hall, elem_of_cons. by left.
    + destruct value as [d |]; [| by left].
      destruct (Hvalue d eq_refl) as (details' & Hregistry' & ->).
      rewrite Hregistry in Hregistry'. injection Hregistry' as <-.
      by right.
Qed.

Lemma analyzeIfPresent_reported (pubspec : yaml) (dev : bool) (w : World) :
  parseYaml env (PubspecAnalysis.getText document) = Some pubspec →
  truthy pubspec = true →
  cacheOfRegistry registry w →
  ∃ (analyses : list PubspecAnalysis.PackageAnalysis) (w' : World),
    PubspecAnalysis.analyzeIfPresent env document pubspec (sectionOf dev) dev w
    = (Return analyses, w')
    ∧ Forall (reported env registry document) analyses
    ∧ cacheOfRegistry registry w'.
Proof using stable.
  intros Hparse Htruthy Hw. unfold PubspecAnalysis.analyzeIfPresent.
  destruct (getProperty pubspec (sectionOf dev)) as [e | section] eqn:Hget.
  { by destruct pubspec. }
  rewrite bind_run. cbn [liftEither]. unfold mret at 1, M_ret at 1.
  cbv beta iota.
  destruct section as [dependencies |]; [| by exists [], w].
  destruct (truthy dependencies) eqn:Hsection; [| by exists [], w].
  apply (sectionLoop_reported dev (PubspecAnalysis.entriesOfValue dependencies));
    try done.
  intros a constraint details Hgrounded <- Hin Hcurrent Hregistry Hlatest Hdesc.
  split; [done |].
  by exists pubspec, dependencies, constraint, details.
Qed.

End ReportedAnalysis.

(** X26. [analyzePubspecFile] reports the manifest and the registry.
    With a registry that answers the same every time, a cache that
    holds nothing but its answers, and an analyzer whose memory for the
    document is of this kind, [analyzePubspecFile] returns, and every
    analysis it returns is for a package, other than [flutter] and
    [flutter_test], that the section of the analysis declares in the
    manifest with a string: its current version is the one taken from
    that string, its latest version is the registry's and is not empty,
    its flag is [isVersionOutdated] of the two, its range is the one
    [findPackageRange] finds, and its description is none or the
    registry's.  The cache and the memory of the analyzer stay of that
    kind. *)
Theorem analyzePubspecFile_reports (env : Env)
    (registry : jsstring → Error + PubPackageDetails)
    (document : PubspecAnalysis.TextDocument) (st : PubspecAnalysis.t)
    (w : World) :
  stableRegistry env registry →
  cacheOfRegistry registry w →
  remembered env registry st document →
  ∃ (analyses : list PubspecAnalysis.PackageAnalysis) (st' : PubspecAnalysis.t)
    (w' : World),
    PubspecAnalysis.analyzePubspecFile env st document w
    = (Return (analyses, st'), w')
    ∧ Forall (reported env registry document) analyses
    ∧ remembered env registry st' document
    ∧ cacheOfRegistry registry w'.
Proof.
  intros Hstable Hw Hst.
  unfold PubspecAnalysis.analyzePubspecFile.
  destruct (PubspecAnalysis.isPubspecFile document); cbn [negb];
    [| by exists [], st, w].
  cbv zeta.
  destruct (PubspecAnalysis.analysisCache st
              !! PubspecAnalysis.cacheKeyOf document) as [cached |] eqn:Hcache.
  { exists cached, st, w. split_and!; try done. by apply Hst. }
  unfold tryCatch.
  destruct (parseYaml env (PubspecAnalysis.getText document))
    as [pubspec |] eqn:Hparse.
  2:{ destruct (parse_fails env _ w Hparse) as [e He].
      rewrite bind_run, He. cbv beta iota.
      eexists [], st, _. split_and!; [reflexivity | done | done |].
      intros name entry d. simpl. apply Hw. }
  run (parse_run env _ _ _ Hparse).
  destruct (truthy pubspec) eqn:Htruthy; cbn [negb];
    [| by exists [], st, w].
  destruct (analyzeIfPresent_reported env registry Hstable document pubspec
              false w Hparse Htruthy Hw)
    as (regular & w1 & Hregular & Hall1 & Hw1).
  destruct (analyzeIfPresent_reported env registry Hstable document pubspec
              true w1 Hparse Htruthy Hw1)
    as (dev & w2 & Hdev & Hall2 & Hw2).
  simpl sectionOf in Hregular, Hdev.
  run Hregular. run Hdev.
  eexists (regular ++ dev), _, w2. split_and!; [reflexivity | | | done].
  - by apply Forall_app.
  - intros cached. simpl. rewrite lookup_insert_eq. intros [= <-].
    by apply Forall_app.
Qed.

Lemma analyzePubspecFile_reports_witness :
  let registry : jsstring → Error + PubPackageDetails :=
    λ _, inr (Samples.detailsOf (js "pkg") (js "1.2.0")) in
  ∃ (analyses : list PubspecAnalysis.PackageAnalysis) (st' : PubspecAnalysis.t)
    (w' : World),
    PubspecAnalysis.analyzePubspecFile (Samples.registry (js "1.2.0"))
      freshAnalyzer openManifest Samples.start
    = (Return (analyses, st'), w')
    ∧ Forall (reported (Samples.registry (js "1.2.0")) registry openManifest)
        analyses
    ∧ remembered (Samples.registry (js "1.2.0")) registry st' openManifest
    ∧ cacheOfRegistry registry w'.
Proof.
  intros registry.
  apply (analyzePubspecFile_reports (Samples.registry (js "1.2.0")) registry
           openManifest freshAnalyzer Samples.start).
  - intros n packageName. reflexivity.
  - intros packageName entry d H. by vm_compute in H.
  - intros analyses H. by vm_compute in H.
Defined.

(** X27. What [analyzePubspecFile] has answered for a document it
    answers again: a second call with the analyzer that the first one
    left returns the same analyses and the same analyzer, whatever has
    happened in between, and sends no request. *)
Theorem analyzePubspecFile_again (env : Env)
    (document : PubspecAnalysis.TextDocument) (st : PubspecAnalysis.t)
    (w : World) :
  ∃ (analyses : list PubspecAnalysis.PackageAnalysis) (st' : PubspecAnalysis.t)
    (w' : World),
    PubspecAnalysis.analyzePubspecFile env st document w
    = (Return (analyses, st'), w')
    ∧ ∀ later : World,
        ∃ later' : World,
          PubspecAnalysis.analyzePubspecFile env st' document later
          = (Return (analyses, st'), later')
          ∧ requests later' = requests later.
Proof.
  destruct (analyzePubspecFile_outcome env document st w)
    as (analyses & st' & w' & Hrun & Hcases).
  exists analyses, st', w'. split; [done |]. intros later.
  destruct Hcases
    as [(-> & -> & _ & Hwhy)
       | [(Hfile & Hcached & -> & _) | (Hfile & _ & _ & _ & ->)]].
  - destruct (analyzePubspecFile_outcome env document st later)
      as (analyses2 & st2 & later' & Hrun2 & Hcases2).
    exists later'.
    destruct Hcases2
      as [(-> & -> & Hreq & _)
         | [(Hfile2 & Hcached2 & _) | (Hfile2 & _ & Hparse2 & _)]].
    + done.
    + destruct Hwhy as [Hno | (Hmiss & _)]; congruence.
    + destruct Hparse2 as (pubspec2 & Hparse2 & Htruthy2).
      destruct Hwhy as [Hno | (_ & [Hparse | (pubspec & Hparse & Hfalsy)])];
        congruence.
  - exists later. unfold PubspecAnalysis.analyzePubspecFile.
    rewrite Hfile. cbn [negb]. cbv zeta. by rewrite Hcached.
  - exists later. unfold PubspecAnalysis.analyzePubspecFile.
    rewrite Hfile. cbn [negb]. cbv zeta. simpl.
    by rewrite lookup_insert_eq.
Qed.

(** X28. The analysis that [getAnalysisForPosition] returns for a
    position is one of a line of the document that declares its
    package: the position is on that line, between its first character
    that is not white space and its end, and the line begins, white
    space aside, with the name and a colon. *)
Theorem getAnalysisForPosition_on_line (st : PubspecAnalysis.t)
    (document : PubspecAnalysis.TextDocument) (position : Position)
    (a : PubspecAnalysis.PackageAnalysis) :
  coherent st document →
  PubspecAnalysis.getAnalysisForPosition st document position = Some a →
  ∃ (l : jsstring),
    split NEWLINE (PubspecAnalysis.getText document) !! line position = Some l
    ∧ names (PubspecAnalysis.name a) l = true
    ∧ (searchNonSpace l <= character position <= Z.of_nat (length l))%Z.
Proof.
  intros Hst. unfold PubspecAnalysis.getAnalysisForPosition.
  destruct (PubspecAnalysis.analysisCache st
              !! PubspecAnalysis.cacheKeyOf document) as [analyses |] eqn:Hcache;
    [| done].
  intros Hfind. apply find_some in Hfind as [Hin Hcontains].
  specialize (Hst analyses Hcache).
  rewrite Forall_forall in Hst.
  destruct (Hst a) as (_ & _ & Hrange & _).
  { by apply list_elem_of_In. }
  unfold findPackageRange in Hrange.
  apply scanLines_sound in Hrange as (j & l & Hj & Hn & Hr & _).
  rewrite Hr in Hcontains. unfold PubspecAnalysis.contains, isBefore in Hcontains.
  simpl in Hcontains.
  apply andb_true_iff in Hcontains as [Hstart Hend].
  apply negb_true_iff, orb_false_iff in Hstart as [Hs1 Hs2].
  apply negb_true_iff, orb_false_iff in Hend as [He1 He2].
  apply Nat.ltb_ge in Hs1, He1.
  assert (line position = j) as Hline by lia.
  rewrite Hline, Nat.eqb_refl in Hs2, He2. simpl in Hs2, He2.
  apply Z.ltb_ge in Hs2, He2.
  exists l. rewrite Hline. split_and!; [done | done | lia | lia].
Qed.

Lemma getAnalysisForPosition_on_line_witness :
  ∃ (l : jsstring),
    split NEWLINE (PubspecAnalysis.getText openManifest)
      !! line {| line := 2; character := 4 |} = Some l
    ∧ names (js "foo") l = true
    ∧ (searchNonSpace l <= character {| line := 2; character := 4 |}
       <= Z.of_nat (length l))%Z.
Proof.
  apply (getAnalysisForPosition_on_line
           {| PubspecAnalysis.analysisCache :=
                {[ PubspecAnalysis.cacheKeyOf openManifest :=
                     [{| PubspecAnalysis.name := js "foo";
                         PubspecAnalysis.currentVersion := js "1.0.0";
                         PubspecAnalysis.latestVersion := js "1.2.0";
                         PubspecAnalysis.isOutdated := true;
                         PubspecAnalysis.isDev := false;
                         PubspecAnalysis.range :=
                           rangeOfLine 2 (js "  foo: ^1.0.0");
                         PubspecAnalysis.description := None |}] ]};
              PubspecAnalysis.diagnosticCollection := ∅ |}
           openManifest {| line := 2; character := 4 |}
           {| PubspecAnalysis.name := js "foo";
              PubspecAnalysis.currentVersion := js "1.0.0";
              PubspecAnalysis.latestVersion := js "1.2.0";
              PubspecAnalysis.isOutdated := true;
              PubspecAnalysis.isDev := false;
              PubspecAnalysis.range := rangeOfLine 2 (js "  foo: ^1.0.0");
              PubspecAnalysis.description := None |}).
  - intros analyses H. cbn [PubspecAnalysis.analysisCache] in H.
    rewrite lookup_singleton_eq in H. injection H as <-.
    apply Forall_singleton. unfold grounded. simpl.
    split_and!; try (by vm_compute). by exists (js "^1.0.0").
  - by vm_compute.
Defined.

(** ** The conflict advisor's dialogue *)

Section Resolution.
Variable env : Env.
Variable showQuickPick :
  list ConflictResolution.QuickPickItem → option ConflictResolution.QuickPickItem.

(** [applyResolution] asks the projects for the kind of the dependency,
    updates it, and logs that it did, whatever the update returned. *)
Lemma applyResolution_run (projectPath : jsstring) (c : DependencyConflict)
    (w : World) :
  ∃ (dev written : bool) (w1 : World),
    ConflictResolution.isDevDependency projectPath (packageName c) w
    = (Return dev, w)
    ∧ WorkspaceService.updateDependency env projectPath (packageName c)
        (suggestedResolution c) (Some dev) w
      = (Return written, w1)
    ∧ ConflictResolution.applyResolution env projectPath c w
      = (Return tt,
         setConsole
           (console w1
            ++ [(LogInfo,
                 js "Applied resolution: " ++ packageName c
                 ++ PubspecAnalysis.ARROW ++ suggestedResolution c, None)])
           w1).
Proof.
  assert (Hdev : ∃ dev,
            ConflictResolution.isDevDependency projectPath (packageName c) w
            = (Return dev, w)).
  { unfold ConflictResolution.isDevDependency. rewrite bind_run.
    unfold reads. cbv beta iota.
    destruct (Workspace.findProject projectPath (projects w));
      by eexists. }
  destruct Hdev as [dev Hdev].
  destruct (addDependency_outcome env projectPath (packageName c)
              (suggestedResolution c) (Some (default false (Some dev))) w)
    as (written & w1 & Hrun & _).
  exists dev, written, w1. split_and!; [done | done |].
  unfold ConflictResolution.applyResolution, tryCatch.
  rewrite bind_run, Hdev. cbv beta iota.
  unfold WorkspaceService.updateDependency. cbv zeta.
  by rewrite bind_run, Hrun.
Qed.

End Resolution.

(** X29. [resolveDependencyConflicts] never throws.  It offers "Fix
    All" and the fix of [flutter_lints]; a dismissed pick leaves
    everything as it was; a pick runs [updateDependency] once, for the
    conflict picked ([flutter_lints] for "Fix All") and the kind that
    the projects give, and then announces the resolution whether or not
    the update wrote anything: the files, terminals and projects are
    those that the update left, and the last message is the
    announcement. *)
Theorem resolveDependencyConflicts_outcome (env : Env)
    (showQuickPick :
       list ConflictResolution.QuickPickItem
       → option ConflictResolution.QuickPickItem)
    (projectPath : jsstring) (w : World) :
  let items :=
    [ConflictResolution.fixAll [flutterLints];
     ConflictResolution.itemOf flutterLints] in
  ∃ w' : World,
    ConflictResolution.resolveDependencyConflicts env showQuickPick projectPath w
    = (Return tt, w')
    ∧ match showQuickPick items with
      | None => w' = w
      | Some selected =>
          let c := default flutterLints (ConflictResolution.conflict selected) in
          ∃ (dev written : bool) (w1 : World),
            ConflictResolution.isDevDependency projectPath (packageName c) w
            = (Return dev, w)
            ∧ WorkspaceService.updateDependency env projectPath (packageName c)
                (suggestedResolution c) (Some dev) w
              = (Return written, w1)
            ∧ files w' = files w1
            ∧ terminals w' = terminals w1
            ∧ projects w' = projects w1
            ∧ last (window w')
              = Some (InformationMessage
                        (match ConflictResolution.conflict selected with
                         | Some c => js "Resolved conflict for "
                                     ++ packageName c ++ js "!"
                         | None => js "Resolved 1 dependency conflicts!"
                         end))
      end.
Proof.
  intros items.
  unfold ConflictResolution.resolveDependencyConflicts, tryCatch.
  rewrite bind_run.
  change (DependencyResolver.detectConflicts projectPath w)
    with (Return [flutterLints] : Outcome _, w).
  cbv beta iota. cbn [length Nat.eqb].
  unfold ConflictResolution.showConflictResolutionOptions. cbv zeta.
  cbn [List.map]. fold items.
  destruct (showQuickPick items) as [selected |]; [| by exists w].
  destruct (ConflictResolution.conflict selected) as [c |]; cbn [default].
  - destruct (applyResolution_run env projectPath c w)
      as (dev & written & w1 & Hdev & Hupdate & Hrun).
    rewrite bind_run, Hrun. cbv beta iota.
    eexists. split; [reflexivity |].
    exists dev, written, w1. split_and!; try done.
    simpl. by rewrite last_snoc.
  - destruct (applyResolution_run env projectPath flutterLints w)
      as (dev & written & w1 & Hdev & Hupdate & Hrun).
    cbn [ConflictResolution.applyAll].
    rewrite !bind_run, Hrun. cbv beta iota.
    eexists. split; [reflexivity |].
    exists dev, written, w1. split_and!; try done.
    simpl. by rewrite last_snoc.
Qed.

(** ** Updates of a project of the workspace *)

Section ProjectUpdates.
Variable env : Env.

(** The record built from the dependencies holds versions of
    dependencies only. *)
Lemma dependencyRecord_lookup (deps : list DependencyInfo)
    (name constraint : jsstring) :
  Workspace.dependencyRecord deps !! name = Some constraint →
  ∃ d, d ∈ deps ∧ dep_name d = name ∧ dep_version d = constraint.
Proof.
  unfold Workspace.dependencyRecord.
  assert (Hgen : ∀ acc : gmap (list N) (list N),
            foldl (λ acc dep,
                     if bool_decide (dep_name dep = js "__proto__") then acc
                     else <[dep_name dep := dep_version dep]> acc) acc deps
              !! name = Some constraint →
            acc !! name = Some constraint
            ∨ ∃ d, d ∈ deps ∧ dep_name d = name ∧ dep_version d = constraint).
  { induction deps as [| d rest IH]; intros acc; simpl; [by left |].
    intros H. destruct (IH _ H) as [Hacc | (d' & Hin & Hd')].
    - case_bool_decide; [by left |].
      destruct (decide (dep_name d = name)) as [Heq | Hne].
      + rewrite Heq, lookup_insert_eq in Hacc. injection Hacc as Hacc.
        right. exists d. split_and!; [apply elem_of_cons; by left | done | done].
      + rewrite lookup_insert_ne in Hacc by done. by left.
    - right. exists d'. split; [apply elem_of_cons; by right | done]. }
  intros H. destruct (Hgen ∅ H) as [Hempty | ?]; [| done].
  by rewrite lookup_empty in Hempty.
Qed.

End ProjectUpdates.

(** X30. [checkForUpdates] of the workspace returns; for a path that is
    not a project's it returns nothing and does nothing; and every
    update it reports is for a dependency of the first project with
    that path, with a latest version that is not empty and that
    [isVersionOutdated] finds newer than the version declared. *)
Theorem workspace_checkForUpdates_sound (env : Env) (projectPath : jsstring)
    (w : World) :
  ∃ (updates : gmap (list N) (list N)) (w' : World),
    Workspace.checkForUpdates env projectPath w = (Return updates, w')
    ∧ (Workspace.findProject projectPath (projects w) = None →
       updates = ∅ ∧ w' = w)
    ∧ ∀ name latest, updates !! name = Some latest →
        ∃ project d,
          Workspace.findProject projectPath (projects w) = Some project
          ∧ path project = projectPath
          ∧ d ∈ dependencies project
          ∧ dep_name d = name
          ∧ latest ≠ []
          ∧ isVersionOutdated (Some (dep_version d)) (Some latest) = true.
Proof.
  unfold Workspace.checkForUpdates. rewrite bind_run. unfold reads.
  cbv beta iota.
  destruct (Workspace.findProject projectPath (projects w)) as [project |]
    eqn:Hfind.
  2:{ exists ∅, w. split_and!; [done | done |].
      intros name latest H. by rewrite lookup_empty in H. }
  unfold PubApiService.checkForUpdates.
  destruct (checkLoop_spec env (Workspace.dependencyRecord (dependencies project))
              (fst <$> map_to_list
                 (Workspace.dependencyRecord (dependencies project))) ∅ w)
    as (updates & w' & Hrun & Hspec).
  exists updates, w'. split_and!; [done | done |].
  intros name latest Hl.
  destruct (Hspec name latest Hl) as [Hempty | (Hin & Hne & Hout)];
    [by rewrite lookup_empty in Hempty |].
  apply list_elem_of_fmap in Hin as ([name' constraint] & -> & Hin).
  apply elem_of_map_to_list in Hin. simpl in Hout. rewrite Hin in Hout.
  apply dependencyRecord_lookup in Hin as (d & Hd & Hname & <-).
  exists project, d. split_and!; try done.
  unfold Workspace.findProject in Hfind. apply find_some in Hfind as [_ Hpath].
  by apply bool_decide_eq_true in Hpath.
Qed.
